(** * HeatMapMaker: the [CSV] table parser of [heatmapmaker.py]

    The class [CSV] reads a delimited text grid, checks that it is
    rectangular, derives its columns and offers views of the grid with the
    title row and title column stripped.  This file embeds the class and the
    Python builtins it calls, and proves the properties of the specification
    about it. *)

From Stdlib Require Import ZArith Ascii DecimalString DecimalPos DecimalZ.
From Stdlib Require Floats.SpecFloat.
From stdpp Require Import list strings gmap.

Local Open Scope Z_scope.
Local Open Scope nat_scope.

(** ** Exceptions and results *)

(** The exceptions the class can raise: [assert] raises [AssertionError]
    (the specification calls it MalformedGridError), indexing out of range
    raises [IndexError], and [str.split] with an empty separator and
    [float] on a malformed literal raise [ValueError] (the specification
    calls the latter NumberFormatError). *)
Inductive exn : Set := AssertionError | IndexError | ValueError.

Inductive outcome (A : Type) : Type :=
  | Return (a : A)
  | Raise (e : exn).
Arguments Return {A} a.
Arguments Raise {A} e.

#[global] Instance outcome_ret : MRet outcome := fun _ a => Return a.
#[global] Instance outcome_bind : MBind outcome := fun _ _ f m =>
  match m with
  | Return a => f a
  | Raise e => Raise e
  end.
#[global] Instance outcome_fmap : FMap outcome := fun _ _ f m =>
  match m with
  | Return a => Return (f a)
  | Raise e => Raise e
  end.

#[global] Instance exn_eq_dec : EqDecision exn.
Proof. solve_decision. Defined.

(** [assert b] *)
Definition assert (b : bool) : outcome unit :=
  if b then Return tt else Raise AssertionError.

(** [l[i]] for a non-negative index [i]. *)
Definition index {A} (l : list A) (i : nat) : outcome A :=
  match l !! i with
  | Some x => Return x
  | None => Raise IndexError
  end.

(** [enumerate(l)] *)
Definition enumerate {A} (l : list A) : list (nat * A) := imap pair l.

(** ** String builtins *)

(** Python strings are modelled as sequences of code points below 256. *)
Module Str.

(** [str.isspace] on one code point, which is [Py_UNICODE_ISSPACE]: the
    white space of ASCII, with the separators 28 to 31, and of the code
    points from 128 on the next line 133 and the no-break space 160. *)
Definition isspace (c : ascii) : bool :=
  let n := nat_of_ascii c in
  ((9 <=? n) && (n <=? 13)) || ((28 <=? n) && (n <=? 32)) || (n =? 133) || (n =? 160).

Fixpoint lstrip (s : string) : string :=
  match s with
  | String c s' => if isspace c then lstrip s' else s
  | EmptyString => EmptyString
  end.

Definition rstrip (s : string) : string := String.rev (lstrip (String.rev s)).

(** [s.strip()] *)
Definition strip (s : string) : string := rstrip (lstrip s).

(** Scan for the leftmost occurrences of [sep], which do not overlap: after
    a match the next [skip] characters belong to the matched separator.
    The result is the first piece and the pieces after it. *)
Fixpoint split_pieces (sep : string) (skip : nat) (s : string) : string * list string :=
  match s with
  | EmptyString => (EmptyString, [])
  | String c s' =>
      match skip with
      | S k => split_pieces sep k s'
      | O =>
          if String.prefix sep s
          then let '(h, t) := split_pieces sep (String.length sep - 1) s' in (EmptyString, h :: t)
          else let '(h, t) := split_pieces sep 0 s' in (String c h, t)
      end
  end.

(** [s.split(sep=sep)] for a string [sep]: an empty separator is a
    [ValueError]. *)
Definition split (s sep : string) : outcome (list string) :=
  match sep with
  | EmptyString => Raise ValueError
  | _ => let '(h, t) := split_pieces sep 0 s in Return (h :: t)
  end.

(** [new.join(pieces)] *)
Fixpoint join (new : string) (pieces : list string) : string :=
  match pieces with
  | [] => EmptyString
  | [p] => p
  | p :: rest => p +:+ new +:+ join new rest
  end.

(** [s.replace(old, new)] for a non-empty [old]: every leftmost,
    non-overlapping occurrence of [old] becomes [new]. *)
Definition replace (s old new : string) : string :=
  let '(h, t) := split_pieces old 0 s in join new (h :: t).

End Str.


(** ** The builtin [float] on strings *)

(** Floats are IEEE 754 binary64 values, as specified by [SpecFloat] with
    precision 53 and maximal exponent 1024. *)
Module PyFloat.
Import Floats.SpecFloat.

Definition prec : Z := 53.
Definition emax : Z := 1024.

(** The binary64 value nearest to [m * 10^e] (ties to even), with sign
    [neg]; [m] is not negative. *)
Definition decimal_to_double (neg : bool) (m e : Z) : spec_float :=
  match m with
  | Zpos p =>
      if (0 <=? e)%Z
      then binary_normalize prec emax (if neg then Zneg p * 10 ^ e else Zpos p * 10 ^ e)%Z 0 neg
      else SFdiv prec emax (S754_finite neg p 0) (S754_finite false (Z.to_pos (10 ^ (- e))) 0)
  | _ => S754_zero neg
  end.

(** [Py_ISSPACE] *)
Definition Py_ISSPACE (c : ascii) : bool := Ascii.is_space c.

(** [PyUnicode_IS_ASCII] *)
Definition IS_ASCII (s : list ascii) : bool :=
  forallb (fun c => nat_of_ascii c <? 128) s.

(** The loop of [_PyUnicode_TransformDecimalAndSpaceToASCII]: a code point
    below 127 is kept, white space from 127 on becomes a space, and the
    first other code point from 127 on becomes a question mark, which ends
    the result; no code point from 127 to 255 is a decimal digit. *)
Fixpoint transform (s : list ascii) : list ascii :=
  match s with
  | [] => []
  | ch :: s' =>
      if nat_of_ascii ch <? 127 then ch :: transform s'
      else if Str.isspace ch then " "%char :: transform s'
      else ["?"%char]
  end.

(** [_PyUnicode_TransformDecimalAndSpaceToASCII], which [float] and [int]
    apply to a string first: an ASCII string is returned as it is. *)
Definition TransformDecimalAndSpaceToASCII (s : list ascii) : list ascii :=
  if IS_ASCII s then s else transform s.

Definition digit (c : ascii) : option Z :=
  Z.of_nat <$> Ascii.is_nat c.

Definition isdigit (c : ascii) : bool := bool_decide (is_Some (digit c)).

(** The longest prefix of decimal digits, and what follows it. *)
Fixpoint scan_digits (s : list ascii) : list Z * list ascii :=
  match s with
  | c :: s' =>
      match digit c with
      | Some d => let '(ds, rest) := scan_digits s' in (d :: ds, rest)
      | None => ([], s)
      end
  | [] => ([], [])
  end.

Definition number_of_digits (ds : list Z) : Z :=
  foldl (fun acc d => 10 * acc + d)%Z 0%Z ds.

Definition scan_sign (s : list ascii) : bool * list ascii :=
  match s with
  | "-"%char :: s' => (true, s')
  | "+"%char :: s' => (false, s')
  | _ => (false, s)
  end.

(** An exponent part needs at least one digit; otherwise nothing of it is
    consumed. *)
Definition scan_exponent (s : list ascii) : Z * list ascii :=
  match s with
  | ("e" | "E")%char :: s1 =>
      let '(esign, s2) := scan_sign s1 in
      match scan_digits s2 with
      | ([], _) => (0%Z, s)
      | (ds, s3) => ((if esign then - number_of_digits ds else number_of_digits ds)%Z, s3)
      end
  | _ => (0%Z, s)
  end.

(** [_Py_dg_strtod]: an optional sign, digits with an optional point (at
    least one digit in all) and an optional exponent.  The result is the
    value and the unread rest, or nothing when no number starts here. *)
Definition strtod (s : list ascii) : option (spec_float * list ascii) :=
  let '(sign, s1) := scan_sign s in
  let '(int_part, s2) := scan_digits s1 in
  let '(frac_part, s3) :=
    match s2 with
    | "."%char :: s' => scan_digits s'
    | _ => ([], s2)
    end in
  match int_part ++ frac_part with
  | [] => None
  | ds =>
      let '(e, s4) := scan_exponent s3 in
      Some (decimal_to_double sign (number_of_digits ds) (e - Z.of_nat (length frac_part)), s4)
  end.

Definition lower (c : ascii) : ascii :=
  let n := nat_of_ascii c in
  if (65 <=? n) && (n <=? 90) then ascii_of_nat (n + 32) else c.

(** [case_insensitive_match]: the rest of [s] after the lower-case word
    [w], when [s] starts with [w] in any case. *)
Fixpoint case_insensitive_match (s : list ascii) (w : list ascii) : option (list ascii) :=
  match w, s with
  | [], _ => Some s
  | cw :: w', c :: s' =>
      if decide (lower c = cw) then case_insensitive_match s' w' else None
  | _ :: _, [] => None
  end.

(** [_Py_parse_inf_or_nan] *)
Definition parse_inf_or_nan (s : list ascii) : option (spec_float * list ascii) :=
  let '(negate, s1) := scan_sign s in
  match case_insensitive_match s1 (String.list_ascii_of_string "inf") with
  | Some s2 =>
      match case_insensitive_match s2 (String.list_ascii_of_string "inity") with
      | Some s3 => Some (S754_infinity negate, s3)
      | None => Some (S754_infinity negate, s2)
      end
  | None =>
      match case_insensitive_match s1 (String.list_ascii_of_string "nan") with
      | Some s2 => Some (S754_nan, s2)
      | None => None
      end
  end.

(** [_PyOS_ascii_strtod]: a number, else an infinity or a NaN. *)
Definition ascii_strtod (s : list ascii) : option (spec_float * list ascii) :=
  match strtod s with
  | Some r => Some r
  | None => parse_inf_or_nan s
  end.

Fixpoint skip_spaces (s : list ascii) : list ascii :=
  match s with
  | c :: s' => if Py_ISSPACE c then skip_spaces s' else s
  | [] => []
  end.

(** [float_from_string_inner]: white space around the literal is dropped,
    and the literal must be read to its end. *)
Definition float_from_string_inner (s : list ascii) : outcome spec_float :=
  match skip_spaces s with
  | [] => Raise ValueError
  | s1 =>
      match ascii_strtod (reverse (skip_spaces (reverse s1))) with
      | Some (x, []) => Return x
      | _ => Raise ValueError
      end
  end.

(** [_Py_string_to_number_with_underscores]: an underscore is dropped when
    it stands between two digits and refused elsewhere; [prev] is the
    character before [s]. *)
Fixpoint remove_underscores (prev : option ascii) (s : list ascii) : option (list ascii) :=
  match s with
  | [] => if decide (prev = Some "_"%char) then None else Some []
  | c :: s' =>
      if decide (c = "_"%char)
      then if from_option isdigit false prev then remove_underscores (Some c) s' else None
      else if bool_decide (prev = Some "_"%char) && negb (isdigit c) then None
           else (c ::.) <$> remove_underscores (Some c) s'
  end.

(** [float(s)] for a string [s]. *)
Definition float (s : string) : outcome spec_float :=
  match remove_underscores None
          (TransformDecimalAndSpaceToASCII (String.list_ascii_of_string s)) with
  | Some dup => float_from_string_inner dup
  | None => Raise ValueError
  end.

End PyFloat.

(** ** The class [CSV] *)

(** The attributes of an instance. *)
Record CSV : Type := {
  _sep : string;
  rows : list (list string);
  length_of_rows : nat;
  cols : list (list string);
  length_of_cols : nat;
  _row_titles : bool;
  _col_titles : bool
}.

(** The loop of [all_are_the_same_length]; [length] is the local variable of
    that name, [None] until the first item is seen. *)
Fixpoint all_are_the_same_length_loop {A} (length : option nat) (iterable : list (list A)) : bool :=
  match iterable with
  | [] => true
  | item :: rest =>
      let length := match length with None => List.length item | Some n => n end in
      if negb (List.length item =? length) then false
      else all_are_the_same_length_loop (Some length) rest
  end.

Definition all_are_the_same_length {A} (iterable : list (list A)) : bool :=
  all_are_the_same_length_loop None iterable.

(** [[row[idx] for row in rows]] *)
Definition column {A} (rows : list (list A)) (idx : nat) : outcome (list A) :=
  mapM (fun row => index row idx) rows.

(** The loop that fills [self.cols], over [range(length_of_rows)]. *)
Definition columns {A} (rows : list (list A)) (length_of_rows : nat) : outcome (list (list A)) :=
  mapM (column rows) (seq 0 length_of_rows).

(** The transposition [__init__] performs: the width is read from the first
    row, then the columns are collected. *)
Definition transpose {A} (rows : list (list A)) : outcome (list (list A)) :=
  row0 ← index rows 0;
  columns rows (length row0).

(** The loop that fills [self.rows] from the lines of the file. *)
Definition read_rows (lines : list string) (seperator : string) : outcome (list (list string)) :=
  mapM (fun line => Str.split (Str.strip line) seperator) lines.

(** [__init__] from the point where [self.rows] is filled: the two
    assertions, the derived columns and the attributes. *)
Definition init_grid (grid : list (list string)) (seperator : string)
    (has_row_titles has_col_titles : bool) : outcome CSV :=
  _ ← assert (all_are_the_same_length grid);
  row0 ← index grid 0;
  let length_of_rows := length row0 in
  cols ← columns grid length_of_rows;
  _ ← assert (all_are_the_same_length cols);
  col0 ← index cols 0;
  let length_of_cols := length col0 in
  mret {| _sep := seperator;
          rows := grid;
          length_of_rows := length_of_rows;
          cols := cols;
          length_of_cols := length_of_cols;
          _row_titles := has_row_titles;
          _col_titles := has_col_titles |}.

(** [CSV(path, seperator, has_row_titles, has_col_titles)], given the lines
    the file yields. *)
Definition __init__ (lines : list string) (seperator : string)
    (has_row_titles has_col_titles : bool) : outcome CSV :=
  grid ← read_rows lines seperator;
  init_grid grid seperator has_row_titles has_col_titles.

(** *** Methods *)

(** A method runs on an instance and yields a result or an exception,
    together with the instance as the call leaves it.  The lists a method
    appends to are the fresh ones it creates; what it returns may be, in
    Python, the very list an attribute holds. *)
Definition method (A : Type) : Type := CSV → outcome A * CSV.

#[global] Instance method_ret : MRet method := fun _ a self => (Return a, self).
#[global] Instance method_bind : MBind method := fun _ _ f m self =>
  match m self with
  | (Return a, self') => f a self'
  | (Raise e, self') => (Raise e, self')
  end.

(** Reading an attribute of [self]. *)
Definition attr {A} (field : CSV → A) : method A :=
  fun self => (Return (field self), self).

(** A computation on local values only. *)
Definition local {A} (m : outcome A) : method A :=
  fun self => (m, self).

Definition result {A} (m : method A) (self : CSV) : outcome A := (m self).1.
Definition instance_after {A} (m : method A) (self : CSV) : CSV := (m self).2.

Definition get_row_titles : method (option (list string)) :=
  row_titles ← attr _row_titles;
  if row_titles : bool then
    col_titles ← attr _col_titles;
    if col_titles : bool then
      self_rows ← attr rows;
      titles ← local (mapM (fun ir => index ir.2 0)
                           (filter (fun ir => ir.1 ≠ 0) (enumerate self_rows)));
      mret (Some titles)
    else
      self_rows ← attr rows;
      titles ← local (mapM (fun row => index row 0) self_rows);
      mret (Some titles)
  else mret None.

Definition get_col_titles : method (option (list string)) :=
  col_titles ← attr _col_titles;
  if col_titles : bool then
    row_titles ← attr _row_titles;
    if row_titles : bool then
      self_cols ← attr cols;
      titles ← local (mapM (fun ic => index ic.2 0)
                           (filter (fun ic => ic.1 ≠ 0) (enumerate self_cols)));
      mret (Some titles)
    else
      self_cols ← attr cols;
      titles ← local (mapM (fun col => index col 0)
                           (filter (fun col => col ≠ []) self_cols));
      mret (Some titles)
  else mret None.

(** The loops of the data views append to a fresh local list.

    [for i, x in enumerate(l): if i == 0: continue; relevant.append(item x)] *)
Definition for_enumerate_skipping_first {A B} (item : A → B) (l : list A) : list B :=
  foldl (fun relevant ix =>
           if bool_decide (ix.1 = 0) then relevant else relevant ++ [item ix.2])
        [] (enumerate l).

(** [for x in l: relevant.append(item x)] *)
Definition for_each {A B} (item : A → B) (l : list A) : list B :=
  foldl (fun relevant x => relevant ++ [item x]) [] l.

Definition get_data_per_row_without_titles : method (list (list string)) :=
  row_titles ← attr _row_titles;
  col_titles ← attr _col_titles;
  if row_titles && col_titles then
    self_rows ← attr rows;
    mret (for_enumerate_skipping_first (drop 1) self_rows)
  else if col_titles : bool then
    self_rows ← attr rows;
    mret (for_enumerate_skipping_first id self_rows)
  else if row_titles : bool then
    self_rows ← attr rows;
    mret (for_each (drop 1) self_rows)
  else
    attr rows.

Definition get_data_per_col_without_titles : method (list (list string)) :=
  row_titles ← attr _row_titles;
  col_titles ← attr _col_titles;
  if row_titles && col_titles then
    self_cols ← attr cols;
    mret (for_enumerate_skipping_first (drop 1) self_cols)
  else if row_titles : bool then
    self_cols ← attr cols;
    mret (for_enumerate_skipping_first id self_cols)
  else if col_titles : bool then
    self_cols ← attr cols;
    mret (for_each (drop 1) self_cols)
  else
    attr cols.

Definition parse_data (list_of_list_with_numerical_data_as_strings : list (list string))
    : method (list (list Floats.SpecFloat.spec_float)) :=
  local (mapM (fun nested_list =>
                 mapM (fun val => PyFloat.float (Str.replace val "," ".")) nested_list)
              list_of_list_with_numerical_data_as_strings).

(** What [to_df] hands to [pd.DataFrame]: the data, the index and the
    column labels. *)
Record DataFrame : Type := {
  df_data : list (list Floats.SpecFloat.spec_float);
  df_index : option (list string);
  df_columns : option (list string)
}.

Definition to_df : method DataFrame :=
  row_titles ← get_row_titles;
  col_titles ← get_col_titles;
  data ← get_data_per_row_without_titles;
  data ← parse_data data;
  mret {| df_data := data; df_index := row_titles; df_columns := col_titles |}.

(** * Vocabulary of the properties *)

(** Some item differs in length from the first one. *)
Definition ragged {A} (l : list (list A)) : Prop :=
  ∃ first item, head l = Some first ∧ item ∈ l ∧ length item ≠ length first.

Definition columns_of {A} (g : list (list A)) (n : nat) (cs : list (list A)) : Prop :=
  length cs = n ∧
  ∀ j col, cs !! j = Some col → Forall2 (fun row x => row !! j = Some x) g col.

Record well_formed (self : CSV) : Prop := {
  wf_height : 0 < length (rows self);
  wf_width : 0 < length_of_rows self;
  wf_rows : Forall (fun row => length row = length_of_rows self) (rows self);
  wf_transpose : transpose (rows self) = Return (cols self);
  wf_cols_length : length (cols self) = length_of_rows self;
  wf_cols : Forall (fun col => length col = length (rows self)) (cols self);
  wf_length_of_cols : length_of_cols self = length (rows self)
}.

(** The stripping rule of the specification, for the rows: with both kinds
    of titles, drop row 0 and cell 0 of each remaining row; with column
    titles only, drop row 0; with row titles only, drop cell 0 of each row;
    else keep everything. *)
Definition data_rows_rule {A} (has_row_titles has_col_titles : bool)
    (grid : list (list A)) : list (list A) :=
  match has_row_titles, has_col_titles with
  | true, true => drop 1 <$> drop 1 grid
  | false, true => drop 1 grid
  | true, false => drop 1 <$> grid
  | false, false => grid
  end.

(** The same rule for the columns: with both kinds of titles, drop column 0
    and the first element of each remaining column; row 0 is the first
    element of every column, and the cells 0 of the rows are column 0. *)
Definition data_cols_rule {A} (has_row_titles has_col_titles : bool)
    (columns : list (list A)) : list (list A) :=
  match has_row_titles, has_col_titles with
  | true, true => drop 1 <$> drop 1 columns
  | false, true => drop 1 <$> columns
  | true, false => drop 1 columns
  | false, false => columns
  end.

(** [g[i][j]], when there is such a cell. *)
Definition cell {A} (g : list (list A)) (i j : nat) : option A :=
  g !! i ≫= (.!! j).

Definition preserves_instance {A} (m : method A) : Prop :=
  ∀ self, instance_after m self = self.

(** The operations on a constructed instance. *)
Inductive operation : ∀ {A : Type}, method A → Prop :=
  | op_get_row_titles : operation get_row_titles
  | op_get_col_titles : operation get_col_titles
  | op_get_data_per_row_without_titles : operation get_data_per_row_without_titles
  | op_get_data_per_col_without_titles : operation get_data_per_col_without_titles
  | op_parse_data cells : operation (parse_data cells)
  | op_to_df : operation to_df.

(** [x] is finite and its value is [num / den], for a positive [den]. *)
Definition is_exactly (num den : Z) (x : Floats.SpecFloat.spec_float) : bool :=
  match x with
  | Floats.SpecFloat.S754_zero _ => (num =? 0)%Z
  | Floats.SpecFloat.S754_finite s m e =>
      let v := if s then Zneg m else Zpos m in
      if (0 <=? e)%Z then (v * 2 ^ e * den =? num)%Z
      else (v * den =? num * 2 ^ (- e))%Z
  | _ => false
  end.

(** [x] is a normal binary64 number below 2^53 in magnitude, and
    [num / den], for a positive [den], is at most half a unit in the last
    place away from it. *)
Definition is_nearest (num den : Z) (x : Floats.SpecFloat.spec_float) : bool :=
  match x with
  | Floats.SpecFloat.S754_finite s m e =>
      let v := if s then Zneg m else Zpos m in
      Floats.SpecFloat.valid_binary PyFloat.prec PyFloat.emax x
      && (Zpos (Floats.SpecFloat.digits2_pos m) =? PyFloat.prec)%Z
      && (e <? 0)%Z
      && (2 * Z.abs (v * den - num * 2 ^ (- e)) <=? den)%Z
  | _ => false
  end.

(** The character-wise effect of [val.replace(",", ".")]. *)
Definition comma_to_point (c : ascii) : ascii :=
  if decide (c = ","%char) then "."%char else c.

(** ** Numbers as the documentation of [float] writes them *)

(** The library reference gives the strings that [float] accepts by a
    grammar, after white space around them is removed:
<<
    sign          ::= "+" | "-"
    infinity      ::= "Infinity" | "inf"
    nan           ::= "nan"
    digit         ::= a decimal digit
    digitpart     ::= digit (["_"] digit)*
    number        ::= [digitpart] "." digitpart | digitpart ["."]
    exponent      ::= ("e" | "E") [sign] digitpart
    floatnumber   ::= number [exponent]
    absfloatvalue ::= floatnumber | infinity | nan
    floatvalue    ::= [sign] absfloatvalue
>>
    with the case of the letters of [infinity] and [nan] not significant.
    The productions below are these, each with what the text denotes. *)
Module Grammar.

(** What a literal denotes: the number [(-1)^neg * m * 10^e], an infinity
    or not a number. *)
Inductive denotation : Type :=
  | Finite (neg : bool) (m e : Z)
  | Infinite (neg : bool)
  | NotANumber.

(** [[x]] in a production: nothing, which denotes [none], or an [x]. *)
Inductive optional {A} (x : list ascii → A → Prop) (none : A) : list ascii → A → Prop :=
  | absent : optional x none [] none
  | present s a : x s a → optional x none s a.

Inductive sign : list ascii → bool → Prop :=
  | plus : sign ["+"%char] false
  | minus : sign ["-"%char] true.

(** Of the code points below 256 the decimal digits are ["0"] to ["9"]. *)
Definition digit (c : ascii) (d : Z) : Prop :=
  (0 ≤ d < 10)%Z ∧ nat_of_ascii c = 48 + Z.to_nat d.

(** A digit part and its digits. *)
Inductive digitpart : list ascii → list Z → Prop :=
  | digitpart_digit c d : digit c d → digitpart [c] [d]
  | digitpart_more c d s ds :
      digit c d → digitpart s ds → digitpart (c :: s) (d :: ds)
  | digitpart_underscore c d s ds :
      digit c d → digitpart s ds → digitpart (c :: "_"%char :: s) (d :: ds).

(** The number that decimal digits write. *)
Definition value (ds : list Z) : Z := foldl (fun n d => 10 * n + d)%Z 0%Z ds.

(** A number, with the digits before and after the point. *)
Inductive number : list ascii → list Z → list Z → Prop :=
  | number_fraction s1 ds1 s2 ds2 :
      optional digitpart [] s1 ds1 → digitpart s2 ds2 →
      number (s1 ++ "."%char :: s2) ds1 ds2
  | number_whole s ds :
      digitpart s ds → number s ds []
  | number_whole_point s ds :
      digitpart s ds → number (s ++ ["."%char]) ds [].

Inductive exponent : list ascii → Z → Prop :=
  | exponent_intro c s1 neg s2 ds :
      c = "e"%char ∨ c = "E"%char → optional sign false s1 neg → digitpart s2 ds →
      exponent (c :: s1 ++ s2) (if neg : bool then - value ds else value ds)%Z.

(** A float number [m * 10^e]: the digits of the number, read without the
    point, and the exponent less the number of digits after the point. *)
Inductive floatnumber : list ascii → Z → Z → Prop :=
  | floatnumber_intro s1 ds1 ds2 s2 e :
      number s1 ds1 ds2 → optional exponent 0%Z s2 e →
      floatnumber (s1 ++ s2) (value (ds1 ++ ds2)) (e - Z.of_nat (length ds2))%Z.

(** The word [w], which is written in small letters, in any case. *)
Definition word (w : string) (s : list ascii) : Prop :=
  Forall2 (fun c l => c = l ∨ nat_of_ascii c + 32 = nat_of_ascii l)
          s (String.list_ascii_of_string w).

Inductive absfloatvalue (neg : bool) : list ascii → denotation → Prop :=
  | absfloatvalue_floatnumber s m e :
      floatnumber s m e → absfloatvalue neg s (Finite neg m e)
  | absfloatvalue_infinity s :
      word "infinity" s ∨ word "inf" s → absfloatvalue neg s (Infinite neg)
  | absfloatvalue_nan s :
      word "nan" s → absfloatvalue neg s NotANumber.

Inductive floatvalue : list ascii → denotation → Prop :=
  | floatvalue_intro s1 neg s2 v :
      optional sign false s1 neg → absfloatvalue neg s2 v → floatvalue (s1 ++ s2) v.

(** The white space [float] removes: of the code points below 256 the tab,
    the line feed, the vertical tab, the form feed, the carriage return, the
    space, the next line and the no-break space. *)
Definition whitespace (c : ascii) : Prop :=
  nat_of_ascii c ∈ [9; 10; 11; 12; 13; 32; 133; 160].

(** The string [s] writes a number, which is [v]. *)
Definition valid_number (s : string) (v : denotation) : Prop :=
  ∃ ws1 lit ws2,
    String.list_ascii_of_string s = ws1 ++ lit ++ ws2 ∧
    Forall whitespace ws1 ∧ Forall whitespace ws2 ∧ floatvalue lit v.

(** The float of what a literal denotes: for a number the binary64 value
    nearest to it. *)
Definition to_float (v : denotation) : Floats.SpecFloat.spec_float :=
  match v with
  | Finite neg m e => PyFloat.decimal_to_double neg m e
  | Infinite neg => Floats.SpecFloat.S754_infinity neg
  | NotANumber => Floats.SpecFloat.S754_nan
  end.

End Grammar.

(** A cell is numeric when it writes a number once every [","] is a
    ["."]. *)
Definition numeric (val : string) : Prop :=
  ∃ v, Grammar.valid_number (Str.replace val "," ".") v.

(** *** The pieces of a float number *)

(** Decimal digits without underscores. *)
Definition plain_digits (text : list ascii) (ds : list Z) : Prop :=
  Forall2 (fun c d => PyFloat.digit c = Some d) text ds.

(** The text does not go on with a digit, respectively with a sign. *)
Definition nodigit_head (s : list ascii) : Prop :=
  match s with
  | c :: _ => PyFloat.isdigit c = false
  | [] => True
  end.

Definition nosign_head (s : list ascii) : Prop :=
  match s with
  | c :: _ => c ≠ "+"%char ∧ c ≠ "-"%char
  | [] => True
  end.

(** A character that is neither a digit nor an underscore. *)
Definition other (c : ascii) : Prop :=
  c ≠ "_"%char ∧ PyFloat.isdigit c = false.

(** The character before what is left to read, after [w] has been read. *)
Definition last_or (prev : option ascii) (w : list ascii) : option ascii :=
  match last w with
  | Some c => Some c
  | None => prev
  end.

(** A float number in pieces: the digits before the point, the point, the
    digits after it, the letter and the sign of the exponent and its
    digits; [digits] says how digits are written. *)
Definition number_pieces (digits : list ascii → list Z → Prop)
    (ip pt fp ew edp : list ascii) (m e : Z) : Prop :=
  ∃ ids fds eds en,
    digits ip ids ∧ digits fp fds ∧ digits edp eds ∧
    (pt = [] ∧ fds = [] ∨ pt = ["."%char]) ∧
    ids ++ fds ≠ [] ∧
    (ew = [] ∧ eds = [] ∧ en = false
     ∨ ∃ c esg, ew = c :: esg ∧ (c = "e"%char ∨ c = "E"%char) ∧
                Grammar.optional Grammar.sign false esg en ∧ eds ≠ []) ∧
    m = Grammar.value (ids ++ fds) ∧
    e = ((if en : bool then - Grammar.value eds else Grammar.value eds)
         - Z.of_nat (length fds))%Z.

(** [remove_underscores] reads [s] as [s'] and goes on. *)
Definition passes (s s' : list ascii) : Prop :=
  ∀ prev, prev ≠ Some "_"%char →
    ∃ prev', prev' ≠ Some "_"%char ∧
      ∀ k, PyFloat.remove_underscores prev (s ++ k)
           = (s' ++.) <$> PyFloat.remove_underscores prev' k.

(** [float] after the string is made ASCII. *)
Definition float_of_ascii (s : list ascii) : outcome Floats.SpecFloat.spec_float :=
  match PyFloat.remove_underscores None s with
  | Some dup => PyFloat.float_from_string_inner dup
  | None => Raise ValueError
  end.

(** A letter of ASCII. *)
Definition letter (c : ascii) : bool :=
  let n := nat_of_ascii c in
  ((65 <=? n) && (n <=? 90)) || ((97 <=? n) && (n <=? 122)).

(** A literal in pieces: a sign and a float number in pieces, or a sign and
    one of the words. *)
Definition literal (digits : list ascii → list Z → Prop)
    (lit : list ascii) (v : Grammar.denotation) : Prop :=
  ∃ sg neg,
    Grammar.optional Grammar.sign false sg neg ∧
    ((∃ ip pt fp ew edp m e,
        lit = sg ++ ip ++ pt ++ fp ++ ew ++ edp ∧
        number_pieces digits ip pt fp ew edp m e ∧
        v = Grammar.Finite neg m e)
     ∨ (∃ w, lit = sg ++ w ∧
             (v = Grammar.Infinite neg ∧ (Grammar.word "infinity" w ∨ Grammar.word "inf" w)
              ∨ v = Grammar.NotANumber ∧ Grammar.word "nan" w))).

(** ** The instances of the test suite *)

Module Tests.

Definition csv_default : list string :=
  ["col_titles,default1,default2,default3"; "col1,1,2,3"; "col2,4,5,6"; "col3,7,8,9"].

Definition default_rows : list (list string) :=
  [["col_titles"; "default1"; "default2"; "default3"];
   ["col1"; "1"; "2"; "3"];
   ["col2"; "4"; "5"; "6"];
   ["col3"; "7"; "8"; "9"]].

Definition default : CSV :=
  {| _sep := ",";
     rows := default_rows;
     length_of_rows := 4;
     cols := [["col_titles"; "col1"; "col2"; "col3"];
              ["default1"; "1"; "4"; "7"];
              ["default2"; "2"; "5"; "8"];
              ["default3"; "3"; "6"; "9"]];
     length_of_cols := 4;
     _row_titles := true;
     _col_titles := true |}.

Definition csv_no_titles : list string := ["1,2,3"; "4,5,6"; "7,8,9"].

Definition no_titles_rows : list (list string) :=
  [["1"; "2"; "3"]; ["4"; "5"; "6"]; ["7"; "8"; "9"]].

Definition no_titles : CSV :=
  {| _sep := ",";
     rows := no_titles_rows;
     length_of_rows := 3;
     cols := [["1"; "4"; "7"]; ["2"; "5"; "8"]; ["3"; "6"; "9"]];
     length_of_cols := 3;
     _row_titles := false;
     _col_titles := false |}.

Definition csv_only_col_titles : list string :=
  ["col_only1,col_only2,col_only3"; "1,2,3"; "4,5,6"; "7,8,9"].

Definition col_only_rows : list (list string) :=
  [["col_only1"; "col_only2"; "col_only3"];
   ["1"; "2"; "3"]; ["4"; "5"; "6"]; ["7"; "8"; "9"]].

Definition col_only : CSV :=
  {| _sep := ",";
     rows := col_only_rows;
     length_of_rows := 3;
     cols := [["col_only1"; "1"; "4"; "7"];
              ["col_only2"; "2"; "5"; "8"];
              ["col_only3"; "3"; "6"; "9"]];
     length_of_cols := 4;
     _row_titles := false;
     _col_titles := true |}.

Definition csv_only_row_titles : list string :=
  ["row_only1,1,2,3"; "row_only2,4,5,6"; "row_only3,7,8,9"].

Definition row_only_rows : list (list string) :=
  [["row_only1"; "1"; "2"; "3"];
   ["row_only2"; "4"; "5"; "6"];
   ["row_only3"; "7"; "8"; "9"]].

Definition row_only : CSV :=
  {| _sep := ",";
     rows := row_only_rows;
     length_of_rows := 4;
     cols := [["row_only1"; "row_only2"; "row_only3"];
              ["1"; "4"; "7"]; ["2"; "5"; "8"]; ["3"; "6"; "9"]];
     length_of_cols := 3;
     _row_titles := true;
     _col_titles := false |}.

(** A single line with column titles only. *)
Definition header_only : CSV :=
  {| _sep := ",";
     rows := [["a"; "b"]];
     length_of_rows := 2;
     cols := [["a"]; ["b"]];
     length_of_cols := 1;
     _row_titles := false;
     _col_titles := true |}.

(** A single line with one column title. *)
Definition header_only_narrow : CSV :=
  {| _sep := ",";
     rows := [["a"]];
     length_of_rows := 1;
     cols := [["a"]];
     length_of_cols := 1;
     _row_titles := false;
     _col_titles := true |}.

(** The float of a whole number that is not negative, such as [1.0]. *)
Definition whole (n : Z) : Floats.SpecFloat.spec_float :=
  Floats.SpecFloat.binary_normalize PyFloat.prec PyFloat.emax n 0 false.

(** The scenario of the specification with both kinds of titles. *)
Definition scenario_rows : list (list string) :=
  [["t"; "c1"; "c2"]; ["r1"; "1"; "2"]; ["r2"; "3"; "4"]].

End Tests.

(** * Vocabulary of the further properties *)

(** [s[n:]] *)
Fixpoint str_drop (n : nat) (s : string) : string :=
  match n, s with
  | S k, String _ s' => str_drop k s'
  | _, _ => s
  end.

(** The white space [str.strip] removes: of the code points below 256 those
    of [str.isspace], which are the tab, the line feed, the vertical tab,
    the form feed, the carriage return, the four separators 28 to 31, the
    space, the next line and the no-break space. *)
Definition white_space (c : ascii) : Prop :=
  nat_of_ascii c ∈ [9; 10; 11; 12; 13; 28; 29; 30; 31; 32; 133; 160].

Definition white (ws : string) : Prop :=
  Forall white_space (String.list_ascii_of_string ws).

(** The string neither begins nor ends with white space. *)
Definition trimmed (s : string) : Prop :=
  ∀ c, head (String.list_ascii_of_string s) = Some c
       ∨ last (String.list_ascii_of_string s) = Some c →
       ¬ white_space c.

(** [sep in cell]: the string [sep] occurs somewhere in [cell]. *)
Definition occurs (sep cell : string) : Prop :=
  ∃ u v, cell = u +:+ sep +:+ v.

(** The grid put together again from what the getters return: the title
    row, if any, with the corner cell in front when there are row titles
    too, and below it the data rows, each behind its title, if any. *)
Definition rebuild (corner : string) (row_titles col_titles : option (list string))
    (data_rows : list (list string)) : list (list string) :=
  match col_titles with
  | Some titles => [if row_titles is Some _ then corner :: titles else titles]
  | None => []
  end
  ++ match row_titles with
     | Some titles => zip_with cons titles data_rows
     | None => data_rows
     end.

(** The frame of the instance [default] of the test suite. *)
Definition default_frame : DataFrame :=
  {| df_data := map (map Tests.whole) [[1; 2; 3]; [4; 5; 6]; [7; 8; 9]]%Z;
     df_index := Some ["col1"; "col2"; "col3"];
     df_columns := Some ["default1"; "default2"; "default3"] |}.

(** Two cells that differ at most in having [","] where the other has
    ["."]. *)
Definition same_up_to_commas (a b : string) : Prop :=
  comma_to_point <$> String.list_ascii_of_string a
  = comma_to_point <$> String.list_ascii_of_string b.

(** A string of the white space [float] removes. *)
Definition blank (ws : string) : Prop :=
  Forall Grammar.whitespace (String.list_ascii_of_string ws).

(** The cell [b] is the cell [a] with white space around it. *)
Definition padded (a b : string) : Prop :=
  ∃ ws1 ws2, blank ws1 ∧ blank ws2 ∧ b = ws1 +:+ a +:+ ws2.

(** * The rest of the class [CSV] *)

(** ** [repr] of strings and [str] of lists *)

Module Repr.

Definition apostrophe : ascii := ascii_of_nat 39.
Definition double_quote : ascii := ascii_of_nat 34.
Definition backslash : ascii := ascii_of_nat 92.
Definition tab : ascii := ascii_of_nat 9.
Definition newline : ascii := ascii_of_nat 10.
Definition carriage_return : ascii := ascii_of_nat 13.

(** [c in s] for a character [c]. *)
Definition has (c : ascii) (s : string) : bool :=
  bool_decide (c ∈ String.list_ascii_of_string s).

(** The characters [repr] copies as they are: the printable ones. *)
Definition printable (c : ascii) : bool :=
  let n := nat_of_ascii c in
  ((32 <=? n) && (n <? 127)) || ((161 <=? n) && negb (n =? 173)).

Definition hexdigit (n : nat) : ascii :=
  ascii_of_nat (if n <? 10 then 48 + n else 87 + n).

(** How [repr] writes the character [c] between quotes [quote]. *)
Definition escape (quote c : ascii) : string :=
  if bool_decide (c = quote) || bool_decide (c = backslash)
  then String backslash (String c "")
  else if bool_decide (c = tab) then String backslash "t"
  else if bool_decide (c = newline) then String backslash "n"
  else if bool_decide (c = carriage_return) then String backslash "r"
  else if printable c then String c ""
  else String backslash
         (String "x" (String (hexdigit (nat_of_ascii c / 16))
                        (String (hexdigit (nat_of_ascii c mod 16)) ""))).

Fixpoint escape_all (quote : ascii) (s : string) : string :=
  match s with
  | EmptyString => EmptyString
  | String c s' => escape quote c +:+ escape_all quote s'
  end.

(** [repr(s)] for a string [s]: in apostrophes, or in double quotes when
    [s] has an apostrophe and no double quote. *)
Definition repr (s : string) : string :=
  let quote := if has apostrophe s && negb (has double_quote s)
               then double_quote else apostrophe in
  String quote (escape_all quote s +:+ String quote "").

(** [str(l)] for a list [l] of strings. *)
Definition str_of_list (l : list string) : string :=
  "[" +:+ Str.join ", " (repr <$> l) +:+ "]".

End Repr.

(** [CSV.__repr__]: the rows as lists, a line each. *)
Definition __repr__ : method string :=
  self_rows ← attr rows;
  mret (foldl (fun csv_as_str row =>
                 csv_as_str +:+ Repr.str_of_list row +:+ String Repr.newline "")
              "" self_rows).

(** * The callers of the class *)

(** ** The builtins [int] on strings and [str] on integers *)

(** Both are modelled without the limit on the number of digits that
    interpreters since 3.11 apply ([sys.set_int_max_str_digits]); the limit
    cannot be set below 640 digits. *)
Module PyInt.

(** [str(n)] *)
Definition str (n : Z) : string :=
  DecimalString.NilEmpty.string_of_int (Z.to_int n).

(** The digits of a literal, which single underscores may separate; [prev]
    is the character before [s].  The result is the digits and the unread
    rest, or nothing when an underscore is doubled or not followed by a
    digit. *)
Fixpoint scan_digits (prev : option ascii) (s : list ascii) : option (list Z * list ascii) :=
  match s with
  | c :: s' =>
      if decide (c = "_"%char)
      then if decide (prev = Some "_"%char) then None else scan_digits (Some c) s'
      else match PyFloat.digit c with
           | Some d =>
               match scan_digits (Some c) s' with
               | Some (ds, rest) => Some (d :: ds, rest)
               | None => None
               end
           | None => if decide (prev = Some "_"%char) then None else Some ([], s)
           end
  | [] => if decide (prev = Some "_"%char) then None else Some ([], [])
  end.

(** [int(s)] for a string [s], in base 10: white space, a sign, digits,
    white space. *)
Definition int (s : string) : outcome Z :=
  let '(negative, s1) :=
    PyFloat.scan_sign
      (PyFloat.skip_spaces
         (PyFloat.TransformDecimalAndSpaceToASCII (String.list_ascii_of_string s))) in
  match s1 with
  | "_"%char :: _ => Raise ValueError
  | _ =>
      match scan_digits None s1 with
      | Some (d :: ds, rest) =>
          match PyFloat.skip_spaces rest with
          | [] => let n := PyFloat.number_of_digits (d :: ds) in
                  Return (if negative then - n else n)%Z
          | _ => Raise ValueError
          end
      | _ => Raise ValueError
      end
  end.

End PyInt.

(** ** The dialog of [DrawGui.setting] *)

(** The dialog holds the text of its entry, [wrapper_var], until it is
    destroyed. *)
Record setting_dialog : Type := {
  wrapper_var : string;
  destroyed : bool
}.

(** [setting(var, label_text)]: the dialog opens on the value of [var],
    written by [str]. *)
Definition setting (var : Z) : setting_dialog :=
  {| wrapper_var := PyInt.str var; destroyed := false |}.

(** The inner [ok], bound to the button of the dialog: the outcome, the
    variable and the dialog after it. *)
Definition ok (dialog : setting_dialog) (var : Z) : outcome unit * Z * setting_dialog :=
  match PyInt.int (wrapper_var dialog) with
  | Return new_val =>
      (Return tt, new_val, {| wrapper_var := wrapper_var dialog; destroyed := true |})
  | Raise e => (Raise e, var, dialog)
  end.

(** The decimal digits of a number, first the most significant one. *)
Fixpoint digits_of (d : Decimal.uint) : list Z :=
  match d with
  | Decimal.Nil => []
  | Decimal.D0 d => 0%Z :: digits_of d
  | Decimal.D1 d => 1%Z :: digits_of d
  | Decimal.D2 d => 2%Z :: digits_of d
  | Decimal.D3 d => 3%Z :: digits_of d
  | Decimal.D4 d => 4%Z :: digits_of d
  | Decimal.D5 d => 5%Z :: digits_of d
  | Decimal.D6 d => 6%Z :: digits_of d
  | Decimal.D7 d => 7%Z :: digits_of d
  | Decimal.D8 d => 8%Z :: digits_of d
  | Decimal.D9 d => 9%Z :: digits_of d
  end.

(** ** The class [EntryWithPlaceholder] *)

(** The entry as the class sees it: the text it holds ([self.get()], which
    is also the value of its text variable), its option [fg] and the three
    attributes the class adds. *)
Record EntryWithPlaceholder : Type := {
  entry_text : string;
  fg : string;
  placeholder : string;
  placeholder_color : string;
  default_fg_color : string
}.

(** [self.insert(0, self.placeholder); self['fg'] = self.placeholder_color] *)
Definition put_placeholder (self : EntryWithPlaceholder) : EntryWithPlaceholder :=
  {| entry_text := placeholder self +:+ entry_text self;
     fg := placeholder_color self;
     placeholder := placeholder self;
     placeholder_color := placeholder_color self;
     default_fg_color := default_fg_color self |}.

(** [EntryWithPlaceholder(master, placeholder, textvariable, color)], for
    an entry that holds [text] and has the option [fg] when it is made. *)
Definition entry_init (text fg0 placeholder color : string) : EntryWithPlaceholder :=
  put_placeholder {| entry_text := text;
                     fg := fg0;
                     placeholder := placeholder;
                     placeholder_color := color;
                     default_fg_color := fg0 |}.

(** [foc_in], bound to [<FocusIn>]: [self.delete('0', 'end')] empties the
    entry. *)
Definition foc_in (self : EntryWithPlaceholder) : EntryWithPlaceholder :=
  if decide (fg self = placeholder_color self)
  then {| entry_text := "";
          fg := default_fg_color self;
          placeholder := placeholder self;
          placeholder_color := placeholder_color self;
          default_fg_color := default_fg_color self |}
  else self.

(** [foc_out], bound to [<FocusOut>] *)
Definition foc_out (self : EntryWithPlaceholder) : EntryWithPlaceholder :=
  if decide (entry_text self = "") then put_placeholder self else self.

(** The user edits the text of the entry, which has the focus. *)
Definition edit (text : string) (self : EntryWithPlaceholder) : EntryWithPlaceholder :=
  {| entry_text := text;
     fg := fg self;
     placeholder := placeholder self;
     placeholder_color := placeholder_color self;
     default_fg_color := default_fg_color self |}.

(** The states of an entry made empty, with the flag telling whether it has
    the focus: the focus comes and goes in turn, and the text is edited
    while the entry has it. *)
Inductive entry_state (fg0 placeholder color : string)
    : bool → EntryWithPlaceholder → Prop :=
  | entry_made :
      entry_state fg0 placeholder color false (entry_init "" fg0 placeholder color)
  | entry_focus_in self :
      entry_state fg0 placeholder color false self →
      entry_state fg0 placeholder color true (foc_in self)
  | entry_edited self text :
      entry_state fg0 placeholder color true self →
      entry_state fg0 placeholder color true (edit text self)
  | entry_focus_out self :
      entry_state fg0 placeholder color true self →
      entry_state fg0 placeholder color false (foc_out self).

(** ** [make_heatmap] and the class [DrawGui] *)

(** What a callback of the window can raise: an exception of the class
    [CSV], [OSError] from [open], [UnicodeDecodeError] from the reading of
    the file, [KeyError] from the dictionary of colours, [OverflowError]
    from the division of integers, and what the plotting libraries raise. *)
Inductive raised : Set :=
  | Exn (e : exn)
  | OSError
  | UnicodeDecodeError
  | KeyError
  | OverflowError
  | PlotError.

(** [n / 2] for an integer [n]: the nearest float, [OverflowError] when
    there is none. *)
Definition half (n : Z) : raised + Floats.SpecFloat.spec_float :=
  match n with
  | Z0 => inr (Floats.SpecFloat.S754_zero false)
  | Zpos p | Zneg p =>
      match Floats.SpecFloat.SFdiv PyFloat.prec PyFloat.emax
              (Floats.SpecFloat.S754_finite (bool_decide (n < 0)%Z) p 0)
              (Floats.SpecFloat.S754_finite false 2 0) with
      | Floats.SpecFloat.S754_infinity _ => inl OverflowError
      | x => inr x
      end
  end.

(** What [make_heatmap] asks the plotting libraries to draw and to save. *)
Record heatmap : Type := {
  hm_dataframe : DataFrame;
  hm_filename : string;
  hm_cmap : string;
  hm_annot : bool;
  hm_square : bool;
  hm_vmin : Z;
  hm_vmax : Z;
  hm_center : Floats.SpecFloat.spec_float;
  hm_dpi : Z;
  hm_title : option string;
  hm_cbar_label : string
}.

Section gui.

(** The plotting libraries, which draw and save a heat map or raise, and
    [os.path.basename]. *)
Variable draws : heatmap → bool.
Variable basename : string → string.

Definition make_heatmap (dataframe : DataFrame) (filename colormap : string)
    (show_values_in_cells cells_should_be_squared : bool)
    (lower_boundary upper_boundary dpi : Z) (title : option string)
    (center : option Floats.SpecFloat.spec_float) (cbar_label : string) : raised + bool :=
  match (match center with
         | None => half (lower_boundary + upper_boundary)
         | Some c => inr c
         end) with
  | inl r => inl r
  | inr center =>
      if draws {| hm_dataframe := dataframe;
                  hm_filename := filename;
                  hm_cmap := colormap;
                  hm_annot := show_values_in_cells;
                  hm_square := cells_should_be_squared;
                  hm_vmin := lower_boundary;
                  hm_vmax := upper_boundary;
                  hm_center := center;
                  hm_dpi := dpi;
                  hm_title := title;
                  hm_cbar_label := cbar_label |}
      then inr true
      else inl PlotError
  end.

(** The variables of the window and the data frame it holds. *)
Record DrawGui : Type := {
  heatmap_title : string;
  min_value : Z;
  max_value : Z;
  dpi : Z;
  notification_csv : string;
  notification_heatmap : string;
  ckey : string;
  show_annotation_in_cells : bool;
  show_cells_as_squares : bool;
  seperator_in_input_csv : string;
  dataframe : option DataFrame
}.

Definition legal_colors : gmap string string :=
  list_to_map [("Blue and Red (strong)", "seismic");
               ("Blue and Red (light)", "bwr");
               ("Blue with high values in green", "ocean_r");
               ("White to Blue", "Blues");
               ("Black and White", "binary");
               ("Color Blind Mode", "PuOr")].

(** The window once [DrawGui.__init__] is done: the defaults of
    [set_variables_to_default], and the placeholder that
    [register_widgets] has the title entry put into [heatmap_title]. *)
Definition started : DrawGui :=
  {| heatmap_title := "Heatmap Title";
     min_value := -4;
     max_value := 4;
     dpi := 600;
     notification_csv := "No data CSV defined yet. Click 'Read CSV' to proceed.";
     notification_heatmap := "";
     ckey := "Blue and Red (strong)";
     show_annotation_in_cells := true;
     show_cells_as_squares := true;
     seperator_in_input_csv := ";";
     dataframe := None |}.

Definition set_notification_heatmap (text : string) (self : DrawGui) : DrawGui :=
  {| heatmap_title := heatmap_title self;
     min_value := min_value self;
     max_value := max_value self;
     dpi := dpi self;
     notification_csv := notification_csv self;
     notification_heatmap := text;
     ckey := ckey self;
     show_annotation_in_cells := show_annotation_in_cells self;
     show_cells_as_squares := show_cells_as_squares self;
     seperator_in_input_csv := seperator_in_input_csv self;
     dataframe := dataframe self |}.

(** [define_dataframe], bound to the button "Read CSV": [csv_file] is the
    path the file dialog returns and [file] the lines that file yields, if
    it can be opened; with [decodes] it is read to its end, and without it
    the decoding of what follows these lines fails, after the loop of
    [CSV.__init__] has split them.  The result is what the callback raises,
    if anything, and the window after it. *)
Definition define_dataframe (csv_file : string) (file : option (list string))
    (decodes : bool) (self : DrawGui) : option raised * DrawGui :=
  match file with
  | None => (Some OSError, self)
  | Some lines =>
      if decodes then
        match __init__ lines (seperator_in_input_csv self) true true with
        | Raise e => (Some (Exn e), self)
        | Return csv =>
            match result to_df csv with
            | Raise e => (Some (Exn e), self)
            | Return df =>
                (None,
                 {| heatmap_title := heatmap_title self;
                    min_value := min_value self;
                    max_value := max_value self;
                    dpi := dpi self;
                    notification_csv := "Current active data CSV: " +:+ basename csv_file;
                    notification_heatmap := "";
                    ckey := ckey self;
                    show_annotation_in_cells := show_annotation_in_cells self;
                    show_cells_as_squares := show_cells_as_squares self;
                    seperator_in_input_csv := seperator_in_input_csv self;
                    dataframe := Some df |})
            end
        end
      else
        match read_rows lines (seperator_in_input_csv self) with
        | Raise e => (Some (Exn e), self)
        | Return _ => (Some UnicodeDecodeError, self)
        end
  end.

(** [call_make_heatmap], bound to the button "Save Heatmap": [save_to] is
    the path the file dialog returns. *)
Definition call_make_heatmap (save_to : string) (self : DrawGui) : option raised * DrawGui :=
  match dataframe self with
  | None =>
      (None,
       set_notification_heatmap
         "Could not make heatmap. Check if a CSV file has been read!" self)
  | Some df =>
      match legal_colors !! ckey self with
      | None => (Some KeyError, self)
      | Some colormap =>
          match make_heatmap df save_to colormap
                  (show_annotation_in_cells self) (show_cells_as_squares self)
                  (min_value self) (max_value self) (dpi self)
                  (Some (heatmap_title self)) None "log2 (fold change)" with
          | inl r => (Some r, self)
          | inr has_made_heatmap =>
              if has_made_heatmap
              then (None,
                    set_notification_heatmap
                      ("Created heatmap2 '" +:+ heatmap_title self +:+ "'") self)
              else (None,
                    set_notification_heatmap
                      "Could not make heatmap. Check if a CSV file has been read!" self)
          end
      end
  end.

(** What the user does in the window: the two buttons, the menu of colour
    maps, which offers the keys of [legal_colors], the two entries, the two
    pairs of radio buttons and the three dialogs of the settings menu,
    confirmed with a text in their entry.  The button "Read CSV" is pressed
    for a file that cannot be opened or is read to its end ([ReadCSV]), or
    for one that yields some lines and is not decoded further
    ([ReadBroken]). *)
Inductive event : Type :=
  | ReadCSV (csv_file : string) (file : option (list string))
  | ReadBroken (csv_file : string) (lines : list string)
  | SaveHeatmap (save_to : string)
  | ChooseColor (key : string)
  | EnterTitle (text : string)
  | EnterSeperator (text : string)
  | ShowValues (on : bool)
  | SquareCells (on : bool)
  | SetMaximum (text : string)
  | SetMinimum (text : string)
  | SetDpi (text : string).

Definition offered (ev : event) : Prop :=
  match ev with
  | ChooseColor key => is_Some (legal_colors !! key)
  | _ => True
  end.

(** The window after an event, whether its callback raises or not. *)
Definition handle (ev : event) (self : DrawGui) : DrawGui :=
  match ev with
  | ReadCSV csv_file file => (define_dataframe csv_file file true self).2
  | ReadBroken csv_file lines => (define_dataframe csv_file (Some lines) false self).2
  | SaveHeatmap save_to => (call_make_heatmap save_to self).2
  | ChooseColor key =>
      {| heatmap_title := heatmap_title self;
         min_value := min_value self;
         max_value := max_value self;
         dpi := dpi self;
         notification_csv := notification_csv self;
         notification_heatmap := notification_heatmap self;
         ckey := key;
         show_annotation_in_cells := show_annotation_in_cells self;
         show_cells_as_squares := show_cells_as_squares self;
         seperator_in_input_csv := seperator_in_input_csv self;
         dataframe := dataframe self |}
  | EnterTitle text =>
      {| heatmap_title := text;
         min_value := min_value self;
         max_value := max_value self;
         dpi := dpi self;
         notification_csv := notification_csv self;
         notification_heatmap := notification_heatmap self;
         ckey := ckey self;
         show_annotation_in_cells := show_annotation_in_cells self;
         show_cells_as_squares := show_cells_as_squares self;
         seperator_in_input_csv := seperator_in_input_csv self;
         dataframe := dataframe self |}
  | EnterSeperator text =>
      {| heatmap_title := heatmap_title self;
         min_value := min_value self;
         max_value := max_value self;
         dpi := dpi self;
         notification_csv := notification_csv self;
         notification_heatmap := notification_heatmap self;
         ckey := ckey self;
         show_annotation_in_cells := show_annotation_in_cells self;
         show_cells_as_squares := show_cells_as_squares self;
         seperator_in_input_csv := text;
         dataframe := dataframe self |}
  | ShowValues on =>
      {| heatmap_title := heatmap_title self;
         min_value := min_value self;
         max_value := max_value self;
         dpi := dpi self;
         notification_csv := notification_csv self;
         notification_heatmap := notification_heatmap self;
         ckey := ckey self;
         show_annotation_in_cells := on;
         show_cells_as_squares := show_cells_as_squares self;
         seperator_in_input_csv := seperator_in_input_csv self;
         dataframe := dataframe self |}
  | SquareCells on =>
      {| heatmap_title := heatmap_title self;
         min_value := min_value self;
         max_value := max_value self;
         dpi := dpi self;
         notification_csv := notification_csv self;
         notification_heatmap := notification_heatmap self;
         ckey := ckey self;
         show_annotation_in_cells := show_annotation_in_cells self;
         show_cells_as_squares := on;
         seperator_in_input_csv := seperator_in_input_csv self;
         dataframe := dataframe self |}
  | SetMaximum text =>
      {| heatmap_title := heatmap_title self;
         min_value := min_value self;
         max_value := (ok {| wrapper_var := text; destroyed := false |} (max_value self)).1.2;
         dpi := dpi self;
         notification_csv := notification_csv self;
         notification_heatmap := notification_heatmap self;
         ckey := ckey self;
         show_annotation_in_cells := show_annotation_in_cells self;
         show_cells_as_squares := show_cells_as_squares self;
         seperator_in_input_csv := seperator_in_input_csv self;
         dataframe := dataframe self |}
  | SetMinimum text =>
      {| heatmap_title := heatmap_title self;
         min_value := (ok {| wrapper_var := text; destroyed := false |} (min_value self)).1.2;
         max_value := max_value self;
         dpi := dpi self;
         notification_csv := notification_csv self;
         notification_heatmap := notification_heatmap self;
         ckey := ckey self;
         show_annotation_in_cells := show_annotation_in_cells self;
         show_cells_as_squares := show_cells_as_squares self;
         seperator_in_input_csv := seperator_in_input_csv self;
         dataframe := dataframe self |}
  | SetDpi text =>
      {| heatmap_title := heatmap_title self;
         min_value := min_value self;
         max_value := max_value self;
         dpi := (ok {| wrapper_var := text; destroyed := false |} (dpi self)).1.2;
         notification_csv := notification_csv self;
         notification_heatmap := notification_heatmap self;
         ckey := ckey self;
         show_annotation_in_cells := show_annotation_in_cells self;
         show_cells_as_squares := show_cells_as_squares self;
         seperator_in_input_csv := seperator_in_input_csv self;
         dataframe := dataframe self |}
  end.

(** The windows the user can bring about, with what they did for it, the
    latest event first. *)
Inductive reachable : list event → DrawGui → Prop :=
  | reachable_started : reachable [] started
  | reachable_handle ev history self :
      reachable history self → offered ev → reachable (ev :: history) (handle ev self).

(** What holds of the window all along. *)
Record coherent (history : list event) (self : DrawGui) : Prop := {
  coherent_color : is_Some (legal_colors !! ckey self);
  coherent_no_frame :
    dataframe self = None →
    notification_csv self = "No data CSV defined yet. Click 'Read CSV' to proceed.";
  coherent_frame df :
    dataframe self = Some df →
    notification_heatmap self
      ≠ "Could not make heatmap. Check if a CSV file has been read!" ∧
    ∃ csv_file lines sep csv,
      ReadCSV csv_file (Some lines) ∈ history ∧
      notification_csv self = "Current active data CSV: " +:+ basename csv_file ∧
      __init__ lines sep true true = Return csv ∧
      result to_df csv = Return df
}.

End gui.

(** What "Read CSV" needs of the lines of a file and of the separator: a
    line, rows of one length, and a number, as the grammar has them, in
    every cell outside row 0 and column 0. *)
Definition readable (lines : list string) (sep : string) : Prop :=
  lines ≠ [] ∧
  ∃ grid, read_rows lines sep = Return grid ∧ ¬ ragged grid ∧
    ∀ i j val, 0 < i → 0 < j → cell grid i j = Some val → numeric val.

(** A window in which the file of the first fixture of the tests has been
    read, with plotting libraries that draw whatever they are asked to. *)
Definition default_history : list event :=
  [ReadCSV "default.csv" (Some Tests.csv_default); EnterSeperator ","].

Definition default_window : DrawGui :=
  foldr (handle (fun _ => true) (fun path => path)) started default_history.

(** * Properties *)

(** ** Comprehensions that may raise *)

Section mapM.
Context {A B : Type} (f : A → outcome B).

Lemma mapM_cons x l :
  mapM f (x :: l) = y ← f x; k ← mapM f l; mret (y :: k).
Proof. reflexivity. Qed.

(** A comprehension returns a list exactly when every element is computed. *)
Lemma mapM_Return l k :
  mapM f l = Return k ↔ Forall2 (fun x y => f x = Return y) l k.
Proof.
  revert k. induction l as [|x l IH]; intros k.
  - split; [intros [= <-]; constructor | intros H; by inv H].
  - rewrite mapM_cons. split.
    + destruct (f x) as [y|e] eqn:Hx; [|done]. simpl.
      destruct (mapM f l) as [k'|e] eqn:Hl; [|done]. intros [= <-].
      constructor; [done | by apply IH].
    + intros H. inv H. rename select (f x = _) into Hx. rewrite Hx. simpl.
      rename select (Forall2 _ _ _) into Hl. apply IH in Hl. by rewrite Hl.
Qed.

(** It raises what its first failing element raises. *)
Lemma mapM_Raise l e :
  mapM f l = Raise e ↔
  ∃ l1 x l2, l = l1 ++ x :: l2 ∧ Forall (fun y => ∃ b, f y = Return b) l1 ∧ f x = Raise e.
Proof.
  induction l as [|x l IH].
  - split; [done | intros ([|??] & ? & ? & ? & _); done].
  - rewrite mapM_cons. split.
    + destruct (f x) as [y|e'] eqn:Hx; simpl.
      * destruct (mapM f l) as [k'|e'] eqn:Hl; simpl; [done|].
        intros [= ->]. destruct (proj1 IH eq_refl) as (l1 & x' & l2 & -> & Hall & Hx').
        exists (x :: l1), x', l2. split_and!; [done | constructor; eauto | done].
      * intros [= ->]. exists [], x, l. by split_and!.
    + intros (l1 & x' & l2 & Hl12 & Hall & Hx').
      destruct l1 as [|z l1]; simplify_eq/=.
      * by rewrite Hx'.
      * inv Hall. rename select (∃ b, _) into Hz. destruct Hz as [b ->]. simpl.
        assert (mapM f (l1 ++ x' :: l2) = Raise e) as ->; [|done].
        apply IH. eauto 10.
Qed.

Lemma mapM_total l : Forall (fun x => ∃ y, f x = Return y) l → ∃ k, mapM f l = Return k.
Proof.
  induction 1 as [|x l [y Hy] _ [k Hk]]; [by eexists|].
  exists (y :: k). by rewrite mapM_cons, Hy, Hk.
Qed.

End mapM.

(** ** Rectangular grids *)

Lemma all_are_the_same_length_loop_Some {A} n (l : list (list A)) :
  all_are_the_same_length_loop (Some n) l = true ↔ Forall (fun item => length item = n) l.
Proof.
  induction l as [|item l IH]; simpl; [by split|].
  destruct (Nat.eqb_spec (length item) n) as [Heq|Hne]; simpl.
  - rewrite IH. split; [by constructor | by inversion 1].
  - split; [done | by inversion 1].
Qed.

Lemma all_are_the_same_length_true {A} (l : list (list A)) :
  all_are_the_same_length l = true ↔
  ∀ first, head l = Some first → Forall (fun item => length item = length first) l.
Proof.
  unfold all_are_the_same_length. destruct l as [|first l]; simpl; [by split|].
  rewrite Nat.eqb_refl. simpl. rewrite all_are_the_same_length_loop_Some. split.
  - intros Hall ? [= <-]. by constructor.
  - intros Hall. specialize (Hall _ eq_refl). by apply Forall_cons_1 in Hall as [_ ?].
Qed.

Lemma all_are_the_same_length_false {A} (l : list (list A)) :
  all_are_the_same_length l = false ↔ ragged l.
Proof.
  rewrite <-not_true_iff_false, all_are_the_same_length_true. split.
  - intros Hn. destruct l as [|first l]; [by destruct Hn|].
    destruct (decide (Forall (fun item => length item = length first) (first :: l)))
      as [Hall|Hex].
    + destruct Hn. by intros ? [= <-].
    + apply not_Forall_Exists in Hex; [|apply _].
      apply Exists_exists in Hex as (item & Hin & Hlen). by exists first, item.
  - intros (first & item & Hhd & Hin & Hlen) Hall.
    specialize (Hall _ Hhd). rewrite Forall_forall in Hall. by apply Hlen, Hall.
Qed.

Lemma index_Return {A} (l : list A) i x : index l i = Return x ↔ l !! i = Some x.
Proof. unfold index. destruct (l !! i); split; congruence. Qed.

Lemma index_Raise {A} (l : list A) i e :
  index l i = Raise e ↔ e = IndexError ∧ length l ≤ i.
Proof.
  unfold index. destruct (l !! i) eqn:Hi.
  - apply lookup_lt_Some in Hi. split; [done | lia].
  - apply lookup_ge_None in Hi. split; [by intros [= <-] | by intros [-> _]].
Qed.

(** A column holds, row by row, the cell at its index. *)
Lemma column_Return {A} (g : list (list A)) j col :
  column g j = Return col ↔ Forall2 (fun row x => row !! j = Some x) g col.
Proof.
  unfold column. rewrite mapM_Return.
  split; intros H; eapply Forall2_impl; eauto; intros row x; apply index_Return.
Qed.

Lemma columns_Return {A} (g : list (list A)) n cs :
  columns g n = Return cs ↔ columns_of g n cs.
Proof.
  unfold columns, columns_of. rewrite mapM_Return, Forall2_same_length_lookup.
  rewrite length_seq. split.
  - intros [Hlen Hcol]. split; [done|]. intros j col Hj.
    apply column_Return, (Hcol j); [|done].
    apply lookup_seq. split; [done|]. apply lookup_lt_Some in Hj. lia.
  - intros [Hlen Hcol]. split; [done|]. intros i j col [-> _]%lookup_seq Hj.
    by apply column_Return, Hcol.
Qed.

Lemma transpose_Return {A} (g : list (list A)) cs :
  transpose g = Return cs ↔ ∃ row0, head g = Some row0 ∧ columns_of g (length row0) cs.
Proof.
  unfold transpose. rewrite head_lookup. destruct (index g 0) as [row0|e] eqn:H0; simpl.
  - apply index_Return in H0. rewrite columns_Return, H0.
    split; [by eauto | by intros (? & [= <-] & ?)].
  - apply index_Raise in H0 as [_ H0]. rewrite lookup_ge_None_2 by done.
    split; [done | by intros (? & ? & _)].
Qed.

(** The columns of a grid whose rows all have [n] cells exist, and each has
    one cell per row. *)
Lemma columns_total {A} (g : list (list A)) n :
  Forall (fun row => length row = n) g →
  ∃ cs, columns g n = Return cs ∧ Forall (fun col => length col = length g) cs.
Proof.
  intros Hg. destruct (mapM_total (column g) (seq 0 n)) as [cs Hcs].
  - apply Forall_forall. intros j [_ Hj]%elem_of_seq. apply mapM_total.
    apply (Forall_impl _ _ _ Hg). intros row <-.
    destruct (lookup_lt_is_Some_2 row j) as [x Hx]; [lia|].
    exists x. by apply index_Return.
  - exists cs. split; [done|]. apply columns_Return in Hcs as [_ Hcol].
    apply Forall_lookup. intros j col Hj. symmetry. by eapply Forall2_length, Hcol.
Qed.

(** ** What construction establishes *)

Lemma init_grid_Return grid sep rt ct self :
  init_grid grid sep rt ct = Return self →
  rows self = grid ∧ _sep self = sep ∧ _row_titles self = rt ∧ _col_titles self = ct ∧
  all_are_the_same_length (rows self) = true ∧
  all_are_the_same_length (cols self) = true ∧
  well_formed self.
Proof.
  unfold init_grid.
  destruct (all_are_the_same_length grid) eqn:Hrows; [|done]. simpl.
  destruct (index grid 0) as [row0|] eqn:Hrow0; [|done]. simpl.
  destruct (columns grid (length row0)) as [cs|] eqn:Hcs; [|done]. simpl.
  destruct (all_are_the_same_length cs) eqn:Hcols; [|done]. simpl.
  destruct (index cs 0) as [col0|] eqn:Hcol0; [|done]. simpl.
  intros [= <-]. simpl. split_and!; try done.
  apply index_Return in Hrow0, Hcol0. rewrite <-head_lookup in Hrow0, Hcol0.
  rewrite all_are_the_same_length_true in Hrows. specialize (Hrows _ Hrow0).
  pose proof Hcs as [Hlen Hcol]%columns_Return.
  assert (length col0 = length grid) as Hcol0len.
  { symmetry. eapply Forall2_length, (Hcol 0). by rewrite <-head_lookup. }
  split; simpl.
  - destruct grid; [done | simpl; lia].
  - rewrite <-Hlen. destruct cs; [done | simpl; lia].
  - done.
  - apply transpose_Return. exists row0. by rewrite <-columns_Return.
  - done.
  - apply Forall_lookup. intros j col Hj. symmetry. by eapply Forall2_length, Hcol.
  - done.
Qed.

(** Construction succeeds on every grid that has a row, a column and rows of
    one length. *)
Lemma init_grid_total grid sep rt ct row0 :
  head grid = Some row0 → 0 < length row0 →
  Forall (fun row => length row = length row0) grid →
  ∃ self, init_grid grid sep rt ct = Return self.
Proof.
  intros Hhd Hpos Hall. unfold init_grid.
  assert (all_are_the_same_length grid = true) as ->.
  { apply all_are_the_same_length_true. intros ? Hhd'. by simplify_eq. }
  assert (index grid 0 = Return row0) as ->.
  { apply index_Return. by rewrite <-head_lookup. }
  simpl. destruct (columns_total grid (length row0) Hall) as (cs & Hcs & Hlen).
  rewrite Hcs. simpl. apply columns_Return in Hcs as [Hn _].
  destruct cs as [|col0 cs]; [simpl in Hn; lia|].
  assert (all_are_the_same_length (col0 :: cs) = true) as ->.
  { apply all_are_the_same_length_true. intros ? [= <-].
    apply (Forall_impl _ _ _ Hlen). intros col ->. by inv Hlen. }
  simpl. by eexists.
Qed.

(** An instance built from lines is an instance built from the grid the
    lines split into. *)
Lemma __init___Return lines sep rt ct self :
  __init__ lines sep rt ct = Return self ↔
  ∃ grid, read_rows lines sep = Return grid ∧ init_grid grid sep rt ct = Return self.
Proof.
  unfold __init__. destruct (read_rows lines sep) as [grid|e]; simpl.
  - split; [by eauto | by intros (? & [= <-] & ?)].
  - split; [done | by intros (? & ? & _)].
Qed.

(** ** The loops of the methods *)

Section loops.
Context {A B : Type}.

(** Indexed items none of which has index 0 all pass [if i != 0]. *)
Lemma filter_nonzero_imap (h : nat → nat) (l : list A) :
  (∀ i, h i ≠ 0) →
  filter (fun ix : nat * A => ix.1 ≠ 0) (imap (fun i x => (h i, x)) l)
  = imap (fun i x => (h i, x)) l.
Proof.
  revert h. induction l as [|x l IH]; intros h Hh; [done|].
  rewrite imap_cons, filter_cons_True by apply Hh.
  f_equal. apply (IH (h ∘ S)). intros i. apply Hh.
Qed.

Lemma enumerate_cons (x : A) l :
  enumerate (x :: l) = (0, x) :: imap (fun i y => (S i, y)) l.
Proof. reflexivity. Qed.

Lemma filter_nonzero_enumerate (l : list A) :
  filter (fun ix : nat * A => ix.1 ≠ 0) (enumerate l)
  = imap (fun i x => (S i, x)) (drop 1 l).
Proof.
  destruct l as [|x l]; [done|].
  rewrite enumerate_cons, filter_cons_False by (simpl; lia).
  by apply filter_nonzero_imap.
Qed.

Lemma mapM_imap_snd (g : A → outcome B) (h : nat → nat) (l : list A) :
  mapM (fun ix : nat * A => g ix.2) (imap (fun i x => (h i, x)) l) = mapM g l.
Proof.
  revert h. induction l as [|x l IH]; intros h; [done|].
  rewrite imap_cons, !mapM_cons. simpl. destruct (g x); [|done]. simpl.
  by rewrite <-(IH (h ∘ S)).
Qed.

(** [[g(x) for i, x in enumerate(l) if i != 0]] skips exactly the first
    element. *)
Lemma comprehension_skipping_first (g : A → outcome B) (l : list A) :
  mapM (fun ix : nat * A => g ix.2) (filter (fun ix => ix.1 ≠ 0) (enumerate l))
  = mapM g (drop 1 l).
Proof. by rewrite filter_nonzero_enumerate, mapM_imap_snd. Qed.

Lemma foldl_append_imap (item : A → B) (h : nat → nat) (l : list A) acc :
  (∀ i, h i ≠ 0) →
  foldl (fun relevant (ix : nat * A) =>
           if bool_decide (ix.1 = 0) then relevant else relevant ++ [item ix.2])
        acc (imap (fun i x => (h i, x)) l)
  = acc ++ (item <$> l).
Proof.
  revert h acc. induction l as [|x l IH]; intros h acc Hh; simpl.
  - by rewrite app_nil_r.
  - rewrite bool_decide_eq_false_2 by apply Hh.
    rewrite (IH (h ∘ S)) by (intros i; apply Hh).
    by rewrite <-app_assoc.
Qed.

Lemma for_enumerate_skipping_first_spec (item : A → B) (l : list A) :
  for_enumerate_skipping_first item l = item <$> drop 1 l.
Proof.
  unfold for_enumerate_skipping_first. destruct l as [|x l]; [done|].
  rewrite enumerate_cons. simpl. by rewrite (foldl_append_imap item S).
Qed.

Lemma foldl_append (item : A → B) (l : list A) acc :
  foldl (fun relevant x => relevant ++ [item x]) acc l = acc ++ (item <$> l).
Proof.
  revert acc. induction l as [|x l IH]; intros acc; simpl.
  - by rewrite app_nil_r.
  - by rewrite IH, <-app_assoc.
Qed.

Lemma for_each_spec (item : A → B) (l : list A) : for_each item l = item <$> l.
Proof. apply foldl_append. Qed.

End loops.

(** [[x[0] for x in l]] returns the first cells when no item is empty. *)
Lemma first_cells_Return {A} (l : list (list A)) titles :
  mapM (fun item => index item 0) l = Return titles ↔
  Forall2 (fun item title => head item = Some title) l titles.
Proof.
  rewrite mapM_Return.
  split; intros H; eapply Forall2_impl; eauto; intros item title; simpl;
    rewrite head_lookup; apply index_Return.
Qed.

Lemma first_cells_total {A} (l : list (list A)) n :
  0 < n → Forall (fun item => length item = n) l →
  ∃ titles, mapM (fun item => index item 0) l = Return titles.
Proof.
  intros Hn Hl. apply mapM_total. apply (Forall_impl _ _ _ Hl).
  intros [|x item] Hlen; [simpl in Hlen; lia|]. by exists x.
Qed.

(** ** The methods, call by call *)

(** Each method is a function of the attributes it reads and hands the
    instance on as it found it. *)

Lemma get_row_titles_unfold self :
  get_row_titles self =
    (if _row_titles self
     then titles ← mapM (fun row => index row 0)
                        (if _col_titles self then drop 1 (rows self) else rows self);
          mret (Some titles)
     else Return None,
     self).
Proof.
  unfold get_row_titles, mbind, method_bind, attr, local. simpl.
  destruct (_row_titles self); [|done]. destruct (_col_titles self).
  - rewrite (comprehension_skipping_first (fun row => index row 0)).
    by destruct (mapM _ (drop 1 (rows self))).
  - by destruct (mapM _ (rows self)).
Qed.

Lemma get_col_titles_unfold self :
  get_col_titles self =
    (if _col_titles self
     then titles ← mapM (fun col => index col 0)
                        (if _row_titles self then drop 1 (cols self)
                         else filter (fun col => col ≠ []) (cols self));
          mret (Some titles)
     else Return None,
     self).
Proof.
  unfold get_col_titles, mbind, method_bind, attr, local. simpl.
  destruct (_col_titles self); [|done]. destruct (_row_titles self).
  - rewrite (comprehension_skipping_first (fun col => index col 0)).
    by destruct (mapM _ (drop 1 (cols self))).
  - by destruct (mapM _ (filter _ (cols self))).
Qed.

Lemma get_data_per_row_without_titles_unfold self :
  get_data_per_row_without_titles self =
    (Return (match _row_titles self, _col_titles self with
             | true, true => drop 1 <$> drop 1 (rows self)
             | false, true => drop 1 (rows self)
             | true, false => drop 1 <$> rows self
             | false, false => rows self
             end),
     self).
Proof.
  unfold get_data_per_row_without_titles, mbind, method_bind, attr, mret, method_ret.
  simpl. destruct (_row_titles self), (_col_titles self); simpl;
    by rewrite ?for_enumerate_skipping_first_spec, ?for_each_spec, ?list_fmap_id.
Qed.

Lemma get_data_per_col_without_titles_unfold self :
  get_data_per_col_without_titles self =
    (Return (match _row_titles self, _col_titles self with
             | true, true => drop 1 <$> drop 1 (cols self)
             | true, false => drop 1 (cols self)
             | false, true => drop 1 <$> cols self
             | false, false => cols self
             end),
     self).
Proof.
  unfold get_data_per_col_without_titles, mbind, method_bind, attr, mret, method_ret.
  simpl. destruct (_row_titles self), (_col_titles self); simpl;
    by rewrite ?for_enumerate_skipping_first_spec, ?for_each_spec, ?list_fmap_id.
Qed.

(** ** Construction *)

(** The derived columns are never ragged: the second assertion of
    [__init__] cannot fail once the first has passed. *)
Lemma transpose_not_ragged {A} (g : list (list A)) cs :
  transpose g = Return cs → ¬ ragged cs.
Proof.
  intros (row0 & _ & _ & Hcol)%transpose_Return (first & item & Hhd & Hin & Hlen).
  rewrite head_lookup in Hhd. apply list_elem_of_lookup in Hin as [j Hj].
  apply Hcol, Forall2_length in Hhd, Hj. congruence.
Qed.

(** C1: construction fails with [AssertionError] (MalformedGridError in the
    specification) if some row differs in length from the first row, or if
    some derived column differs in length from the first column.  A
    construction that succeeds has passed both checks, the one on the rows
    and the one on the columns derived from them.  This holds for a grid
    however it was obtained, in particular for one read by splitting lines
    on the separator; the rows ["a","b"] and ["c"] are refused. *)
Theorem init_raises_on_malformed_grid grid sep rt ct :
  (ragged grid ∨ (∃ cs, transpose grid = Return cs ∧ ragged cs) →
   init_grid grid sep rt ct = Raise AssertionError) ∧
  (∀ self, init_grid grid sep rt ct = Return self →
     all_are_the_same_length (rows self) = true ∧
     transpose grid = Return (cols self) ∧
     all_are_the_same_length (cols self) = true) ∧
  (∀ lines, read_rows lines sep = Return grid → ragged grid →
     __init__ lines sep rt ct = Raise AssertionError) ∧
  init_grid [["a"; "b"]; ["c"]] sep rt ct = Raise AssertionError ∧
  __init__ ["a,b"; "c"] "," rt ct = Raise AssertionError.
Proof.
  assert (ragged grid → init_grid grid sep rt ct = Raise AssertionError) as Hrows.
  { intros Hr%all_are_the_same_length_false. unfold init_grid. by rewrite Hr. }
  split_and!.
  - intros [Hr | (cs & Hcs & Hr)]; [by apply Hrows|].
    unfold init_grid. destruct (all_are_the_same_length grid); [simpl | done].
    unfold transpose in Hcs. destruct (index grid 0) as [row0|]; [simpl in * | done].
    rewrite Hcs. simpl. apply all_are_the_same_length_false in Hr. by rewrite Hr.
  - intros self (<- & _ & _ & _ & Hr & Hc & Hwf)%init_grid_Return.
    split_and!; [done | apply Hwf | done].
  - intros lines Hlines Hr. unfold __init__. rewrite Hlines. by apply Hrows.
  - done.
  - done.
Qed.

Lemma init_raises_on_malformed_grid_witness :
  init_grid [["a"; "b"]; ["c"]] "," true true = Raise AssertionError.
Proof.
  apply (proj1 (init_raises_on_malformed_grid [["a"; "b"]; ["c"]] "," true true)).
  left. exists ["a"; "b"], ["c"]. split_and!.
  - reflexivity.
  - apply list_elem_of_lookup. by exists 1.
  - simpl. lia.
Defined.

(** C9: on empty input (no rows) the rectangularity check returns [True],
    so construction does not raise [AssertionError]; it fails with
    [IndexError] when it reads the length of the first row. *)
Theorem init_empty_input sep rt ct :
  all_are_the_same_length (@nil (list string)) = true ∧
  read_rows [] sep = Return [] ∧
  init_grid [] sep rt ct = Raise IndexError ∧
  __init__ [] sep rt ct = Raise IndexError.
Proof. by split_and!. Qed.

(** ** Titles *)

Lemma first_cells_titles {A} (l : list (list A)) n :
  0 < n → Forall (fun item => length item = n) l →
  ∃ titles, (titles ← mapM (fun item => index item 0) l; mret (Some titles))
              = Return (Some titles) ∧
            Forall2 (fun item title => head item = Some title) l titles.
Proof.
  intros Hn Hl. destruct (first_cells_total l n Hn Hl) as [titles Ht].
  exists titles. rewrite Ht. split; [done|]. by apply first_cells_Return.
Qed.

Lemma filter_nonempty {A} (l : list (list A)) n :
  0 < n → Forall (fun item => length item = n) l →
  filter (fun item => item ≠ []) l = l.
Proof.
  intros Hn. induction 1 as [|item l Hlen _ IH]; [done|].
  rewrite filter_cons_True; [by rewrite IH|]. intros ->. simpl in Hlen. lia.
Qed.

Section titles.
Context (grid : list (list string)) (sep : string) (rt ct : bool) (self : CSV).
Hypothesis construction : init_grid grid sep rt ct = Return self.

Lemma row_titles_view :
  if rt
  then ∃ titles, result get_row_titles self = Return (Some titles) ∧
         Forall2 (fun row title => head row = Some title)
                 (if ct then drop 1 grid else grid) titles
  else result get_row_titles self = Return None.
Proof using construction.
  destruct (init_grid_Return _ _ _ _ _ construction)
    as (Hrows & _ & Hrt & Hct & _ & _ & Hwf).
  unfold result. rewrite get_row_titles_unfold, Hrt, Hct, Hrows. simpl.
  destruct rt; [|done].
  pose proof (wf_rows _ Hwf) as Hall. rewrite Hrows in Hall.
  apply (first_cells_titles _ _ (wf_width _ Hwf)).
  destruct ct; [by apply Forall_drop | done].
Qed.

Lemma col_titles_view :
  transpose grid = Return (cols self) ∧
  filter (fun col => col ≠ []) (cols self) = cols self ∧
  if ct
  then ∃ titles, result get_col_titles self = Return (Some titles) ∧
         Forall2 (fun col title => head col = Some title)
                 (if rt then drop 1 (cols self) else cols self) titles
  else result get_col_titles self = Return None.
Proof using construction.
  destruct (init_grid_Return _ _ _ _ _ construction)
    as (Hrows & _ & Hrt & Hct & _ & _ & Hwf).
  pose proof (wf_cols _ Hwf) as Hall.
  pose proof (filter_nonempty _ _ (wf_height _ Hwf) Hall) as Hne.
  split_and!; [rewrite <-Hrows; apply Hwf | done |].
  unfold result. rewrite get_col_titles_unfold, Hrt, Hct, Hne. simpl.
  destruct ct; [|done].
  apply (first_cells_titles _ _ (wf_height _ Hwf)).
  destruct rt; [by apply Forall_drop | done].
Qed.

(** C5: [get_row_titles] returns the first cell of every row but row 0 when
    there are row and column titles, the first cell of every row when there
    are row titles only, and [None] when there are no row titles. *)
Theorem get_row_titles_spec :
  match rt, ct with
  | true, true =>
      ∃ titles, result get_row_titles self = Return (Some titles) ∧
                Forall2 (fun row title => head row = Some title) (drop 1 grid) titles
  | true, false =>
      ∃ titles, result get_row_titles self = Return (Some titles) ∧
                Forall2 (fun row title => head row = Some title) grid titles
  | false, _ => result get_row_titles self = Return None
  end.
Proof using construction.
  pose proof row_titles_view as Hview. by destruct rt, ct.
Qed.

(** C6: [get_col_titles] returns the first cell of every column but column
    0 when there are column and row titles, the first cell of every column
    that is not empty when there are column titles only (no column of a
    constructed instance is empty), and [None] when there are no column
    titles.  The columns are the transposed grid. *)
Theorem get_col_titles_spec :
  ∃ cs, transpose grid = Return cs ∧
  match ct, rt with
  | true, true =>
      ∃ titles, result get_col_titles self = Return (Some titles) ∧
                Forall2 (fun col title => head col = Some title) (drop 1 cs) titles
  | true, false =>
      ∃ titles, result get_col_titles self = Return (Some titles) ∧
                Forall2 (fun col title => head col = Some title)
                        (filter (fun col => col ≠ []) cs) titles ∧
                filter (fun col => col ≠ []) cs = cs
  | false, _ => result get_col_titles self = Return None
  end.
Proof using construction.
  destruct col_titles_view as (Ht & Hne & Hview).
  exists (cols self). split; [done|].
  destruct ct, rt; try done.
  destruct Hview as (titles & ? & ?). exists titles. by rewrite Hne.
Qed.

End titles.

(** ** Data without titles *)

Lemma data_rows_rule_drop {A} rt ct (g : list (list A)) :
  data_rows_rule rt ct g = drop (Nat.b2n rt) <$> drop (Nat.b2n ct) g.
Proof. destruct rt, ct; simpl; by rewrite ?drop_0, ?list_fmap_id. Qed.

Lemma data_cols_rule_drop {A} rt ct (cs : list (list A)) :
  data_cols_rule rt ct cs = drop (Nat.b2n ct) <$> drop (Nat.b2n rt) cs.
Proof. destruct rt, ct; simpl; by rewrite ?drop_0, ?list_fmap_id. Qed.

Lemma cell_drop {A} (g : list (list A)) a b i j :
  cell (drop b <$> drop a g) i j = cell g (a + i) (b + j).
Proof.
  unfold cell. rewrite list_lookup_fmap, lookup_drop.
  destruct (g !! (a + i)) as [row|]; simpl; [apply lookup_drop | done].
Qed.

(** The columns hold the cells of the grid, with the indices exchanged. *)
Lemma columns_of_cell {A} (g : list (list A)) n cs i j :
  columns_of g n cs → Forall (fun row => length row = n) g →
  cell cs j i = cell g i j.
Proof.
  intros [Hlen Hcol] Hg. unfold cell.
  destruct (cs !! j) as [col|] eqn:Hj; simpl.
  - specialize (Hcol _ _ Hj). destruct (g !! i) as [row|] eqn:Hi; simpl.
    + destruct (Forall2_lookup_l _ _ _ _ _ Hcol Hi) as (x & -> & Hx). done.
    + apply lookup_ge_None. apply Forall2_length in Hcol.
      apply lookup_ge_None in Hi. lia.
  - destruct (g !! i) as [row|] eqn:Hi; simpl; [|done]. symmetry.
    apply lookup_ge_None. apply lookup_ge_None in Hj.
    rewrite Forall_lookup in Hg. rewrite (Hg _ _ Hi). lia.
Qed.

(** Dropping [a] leading rows and [b] leading cells of a grid drops [a]
    leading cells and [b] leading columns of its transpose, as long as a row
    is left. *)
Lemma transpose_drop {A} (g : list (list A)) cs a b :
  transpose g = Return cs → all_are_the_same_length g = true → a < length g →
  transpose (drop b <$> drop a g) = Return (drop a <$> drop b cs).
Proof.
  intros (row0 & Hhd & Hlen & Hcol)%transpose_Return Hg Ha.
  rewrite all_are_the_same_length_true in Hg. specialize (Hg _ Hhd).
  destruct (lookup_lt_is_Some_2 g a Ha) as [rowa Hrowa].
  apply transpose_Return. exists (drop b rowa). split; [|split].
  - rewrite head_lookup, list_lookup_fmap, lookup_drop, Nat.add_0_r, Hrowa. done.
  - rewrite length_fmap, !length_drop, Hlen. f_equal.
    rewrite Forall_lookup in Hg. by rewrite (Hg _ _ Hrowa).
  - intros j col'. rewrite list_lookup_fmap, lookup_drop.
    destruct (cs !! (b + j)) as [col|] eqn:Hj; [|done]. intros [= <-].
    apply Forall2_fmap_l, Forall2_drop.
    eapply Forall2_impl; [by apply Hcol|]. intros row x Hx. simpl.
    by rewrite lookup_drop.
Qed.

Section data.
Context (grid : list (list string)) (sep : string) (rt ct : bool) (self : CSV).
Hypothesis construction : init_grid grid sep rt ct = Return self.

Lemma data_views :
  result get_data_per_row_without_titles self = Return (data_rows_rule rt ct grid) ∧
  result get_data_per_col_without_titles self = Return (data_cols_rule rt ct (cols self)) ∧
  transpose grid = Return (cols self) ∧
  Forall (fun row => length row = length_of_rows self) grid ∧
  all_are_the_same_length grid = true ∧
  0 < length grid.
Proof using construction.
  destruct (init_grid_Return _ _ _ _ _ construction)
    as (Hrows & _ & Hrt & Hct & Hsame & _ & Hwf).
  unfold result.
  rewrite get_data_per_row_without_titles_unfold,
    get_data_per_col_without_titles_unfold, Hrt, Hct, Hrows. simpl.
  rewrite <-Hrows. split_and!; try apply Hwf; try done; by destruct rt, ct.
Qed.

(** C2: [get_data_per_row_without_titles] and
    [get_data_per_col_without_titles] strip the titles by the four-way rule
    on the two flags, applied to the rows and to the columns (the
    transposed grid) respectively, and the two views hold the same cells,
    one in row-major and the other in column-major order. *)
Theorem data_without_titles_rule :
  result get_data_per_row_without_titles self = Return (data_rows_rule rt ct grid) ∧
  ∃ cs, transpose grid = Return cs ∧
    result get_data_per_col_without_titles self = Return (data_cols_rule rt ct cs) ∧
    ∀ i j, cell (data_cols_rule rt ct cs) j i = cell (data_rows_rule rt ct grid) i j.
Proof using construction.
  destruct data_views as (Hdr & Hdc & Ht & Hall & _ & _).
  split; [done|]. exists (cols self). split_and!; [done..|]. intros i j.
  rewrite data_rows_rule_drop, data_cols_rule_drop, !cell_drop.
  apply transpose_Return in Ht as (row0 & Hhd & Hcs).
  apply (columns_of_cell _ (length row0)); [done|].
  rewrite head_lookup in Hhd.
  by rewrite (proj1 (Forall_lookup _ _) Hall _ _ Hhd).
Qed.

(** C3, amended: when a data row is left after stripping (the grid has at
    least two rows if it has column titles), the transpose of the result of
    [get_data_per_row_without_titles] is the result of
    [get_data_per_col_without_titles]. *)
Theorem data_rows_transposed :
  (ct = true → 2 ≤ length grid) →
  ∃ data_rows data_cols,
    result get_data_per_row_without_titles self = Return data_rows ∧
    result get_data_per_col_without_titles self = Return data_cols ∧
    transpose data_rows = Return data_cols.
Proof using construction.
  intros Hheight. destruct data_views as (Hdr & Hdc & Ht & _ & Hsame & Hpos).
  exists (data_rows_rule rt ct grid), (data_cols_rule rt ct (cols self)).
  split_and!; [done..|].
  rewrite data_rows_rule_drop, data_cols_rule_drop.
  apply transpose_drop; [done..|].
  destruct ct; simpl; [by apply Hheight | done].
Qed.

End data.

(** ** Titles and data side by side *)

(** C7, amended: on a constructed instance, when there are row titles
    [get_row_titles] has one title per data row, and when there are column
    titles [get_col_titles] has one title per data column; every data row
    has one cell per data column.  Without row (column) titles the titles
    are [None], whose length as an empty sequence is 0 whatever the data. *)
Theorem titles_count_data grid sep rt ct self :
  init_grid grid sep rt ct = Return self →
  ∃ row_titles col_titles data_rows data_cols,
    result get_row_titles self = Return row_titles ∧
    result get_col_titles self = Return col_titles ∧
    result get_data_per_row_without_titles self = Return data_rows ∧
    result get_data_per_col_without_titles self = Return data_cols ∧
    (if rt then length (default [] row_titles) = length data_rows
     else row_titles = None) ∧
    (if ct then length (default [] col_titles) = length data_cols
     else col_titles = None) ∧
    Forall (fun row => length row = length data_cols) data_rows.
Proof.
  intros construction.
  pose proof (row_titles_view _ _ _ _ _ construction) as Hrt.
  destruct (col_titles_view _ _ _ _ _ construction) as (Ht & _ & Hct).
  destruct (data_views _ _ _ _ _ construction) as (Hdr & Hdc & _ & Hall & _ & _).
  assert (∃ row_titles, result get_row_titles self = Return row_titles ∧
    if rt then length (default [] row_titles) = length (data_rows_rule rt ct grid)
    else row_titles = None) as (row_titles & Hrow & Hrowlen).
  { destruct rt; [|by exists None].
    destruct Hrt as (titles & Hres & Hlen%Forall2_length).
    exists (Some titles). split; [done|]. simpl.
    destruct ct; simpl; by rewrite ?length_fmap. }
  assert (∃ col_titles, result get_col_titles self = Return col_titles ∧
    if ct then length (default [] col_titles) = length (data_cols_rule rt ct (cols self))
    else col_titles = None) as (col_titles & Hcol & Hcollen).
  { destruct ct; [|by exists None].
    destruct Hct as (titles & Hres & Hlen%Forall2_length).
    exists (Some titles). split; [done|]. simpl.
    destruct rt; simpl; by rewrite ?length_fmap. }
  exists row_titles, col_titles, (data_rows_rule rt ct grid),
    (data_cols_rule rt ct (cols self)).
  split_and!; [done..|].
  destruct (init_grid_Return _ _ _ _ _ construction) as (_ & _ & _ & _ & _ & _ & Hwf).
  rewrite data_rows_rule_drop, data_cols_rule_drop, length_fmap, length_drop.
  apply Forall_fmap, Forall_drop. apply (Forall_impl _ _ _ Hall).
  intros row Hlen. simpl. by rewrite length_drop, Hlen, (wf_cols_length _ Hwf).
Qed.

(** ** The instance after a call *)

Lemma preserves_ret {A} (a : A) : preserves_instance (mret a).
Proof. by intros self. Qed.

Lemma preserves_attr {A} (field : CSV → A) : preserves_instance (attr field).
Proof. by intros self. Qed.

Lemma preserves_local {A} (m : outcome A) : preserves_instance (local m).
Proof. by intros self. Qed.

Lemma preserves_bind {A B} (m : method A) (f : A → method B) :
  preserves_instance m → (∀ a, preserves_instance (f a)) →
  preserves_instance (m ≫= f).
Proof.
  intros Hm Hf self. specialize (Hm self).
  unfold instance_after, mbind, method_bind in *.
  destruct (m self) as [[a|e] self']; simpl in *; subst; [apply Hf | done].
Qed.

Lemma preserves_if {A} (b : bool) (m1 m2 : method A) :
  preserves_instance m1 → preserves_instance m2 →
  preserves_instance (if b then m1 else m2).
Proof. by destruct b. Qed.

Create HintDb frame.
#[local] Hint Resolve preserves_ret preserves_attr preserves_local preserves_if : frame.
#[local] Hint Extern 2 (preserves_instance (_ ≫= _)) =>
  apply preserves_bind; [|intros ?] : frame.

Lemma get_row_titles_preserves : preserves_instance get_row_titles.
Proof. unfold get_row_titles. auto 10 with frame. Qed.

Lemma get_col_titles_preserves : preserves_instance get_col_titles.
Proof. unfold get_col_titles. auto 10 with frame. Qed.

Lemma get_data_per_row_without_titles_preserves :
  preserves_instance get_data_per_row_without_titles.
Proof. unfold get_data_per_row_without_titles. auto 10 with frame. Qed.

Lemma get_data_per_col_without_titles_preserves :
  preserves_instance get_data_per_col_without_titles.
Proof. unfold get_data_per_col_without_titles. auto 10 with frame. Qed.

Lemma parse_data_preserves cells : preserves_instance (parse_data cells).
Proof. unfold parse_data. auto with frame. Qed.

#[local] Hint Resolve get_row_titles_preserves get_col_titles_preserves
  get_data_per_row_without_titles_preserves parse_data_preserves : frame.

Lemma to_df_preserves : preserves_instance to_df.
Proof. unfold to_df. auto 10 with frame. Qed.

Lemma operation_preserves {A} (m : method A) : operation m → preserves_instance m.
Proof.
  destruct 1;
    auto using get_row_titles_preserves, get_col_titles_preserves,
      get_data_per_row_without_titles_preserves,
      get_data_per_col_without_titles_preserves, parse_data_preserves,
      to_df_preserves.
Qed.

(** C8: every operation leaves the instance as it found it, with its rows,
    its columns and its flags, whether it returns or raises; so a call
    gives the same result after any other operation, itself included, as
    before it. *)
Theorem operations_leave_instance {A} (m : method A) (self : CSV) :
  operation m →
  instance_after m self = self ∧
  (rows (instance_after m self) = rows self ∧
   cols (instance_after m self) = cols self ∧
   _row_titles (instance_after m self) = _row_titles self ∧
   _col_titles (instance_after m self) = _col_titles self ∧
   _sep (instance_after m self) = _sep self) ∧
  ∀ B (m' : method B), operation m' →
    result m (instance_after m' self) = result m self.
Proof.
  intros Hm. pose proof (operation_preserves m Hm self) as Hself.
  split_and!; try by rewrite Hself.
  intros B m' Hm'. by rewrite (operation_preserves m' Hm' self).
Qed.

(** ** Parsing numbers *)

Lemma float_Raise s e : PyFloat.float s = Raise e → e = ValueError.
Proof.
  unfold PyFloat.float, PyFloat.float_from_string_inner.
  repeat case_match; congruence.
Qed.

Lemma replace_comma (val : string) :
  String.list_ascii_of_string (Str.replace val "," ".")
  = comma_to_point <$> String.list_ascii_of_string val.
Proof.
  unfold Str.replace. induction val as [|c val IH]; [done|].
  cbn [Str.split_pieces].
  destruct (Str.split_pieces "," 0 val) as [h t] eqn:Hval.
  cbn [String.prefix String.length Nat.sub]. rewrite Hval.
  cbn [String.list_ascii_of_string fmap list_fmap]. rewrite <-IH.
  unfold comma_to_point. destruct (ascii_dec "," c) as [<-|Hne].
  - by destruct val.
  - rewrite decide_False by done. by destruct t.
Qed.

Lemma parse_data_unfold cells self :
  parse_data cells self =
    (mapM (mapM (fun val => PyFloat.float (Str.replace val "," "."))) cells, self).
Proof. reflexivity. Qed.

(** *** The characters of a number *)

Lemma nat_of_ascii_inj c1 c2 : nat_of_ascii c1 = nat_of_ascii c2 → c1 = c2.
Proof. intros H. by rewrite <-(ascii_nat_embedding c1), <-(ascii_nat_embedding c2), H. Qed.

Lemma digit_spec c d : PyFloat.digit c = Some d ↔ Grammar.digit c d.
Proof.
  split.
  - intros H. destruct c as [[] [] [] [] [] [] [] []]; vm_compute in H; try discriminate;
      injection H as <-; (split; [lia | reflexivity]).
  - intros [Hd Hc].
    assert (c = ascii_of_nat (48 + Z.to_nat d)) as ->.
    { apply nat_of_ascii_inj. rewrite nat_ascii_embedding; [done | lia]. }
    assert (d = 0 ∨ d = 1 ∨ d = 2 ∨ d = 3 ∨ d = 4 ∨ d = 5 ∨ d = 6 ∨ d = 7 ∨ d = 8 ∨ d = 9)%Z
      as Hcases by lia.
    by destruct Hcases as [->|[->|[->|[->|[->|[->|[->|[->|[->| ->]]]]]]]]].
Qed.

Lemma isdigit_true c : PyFloat.isdigit c = true ↔ ∃ d, PyFloat.digit c = Some d.
Proof. unfold PyFloat.isdigit. by rewrite bool_decide_eq_true. Qed.

Lemma isdigit_false c : PyFloat.isdigit c = false ↔ PyFloat.digit c = None.
Proof.
  unfold PyFloat.isdigit. rewrite bool_decide_eq_false, <-eq_None_not_Some. done.
Qed.

(** A digit is no other character of a number, and no white space. *)
Lemma digit_only c :
  PyFloat.isdigit c = true →
  c ≠ "_"%char ∧ c ≠ "."%char ∧ c ≠ "+"%char ∧ c ≠ "-"%char ∧ c ≠ "e"%char ∧
  c ≠ "E"%char ∧ PyFloat.Py_ISSPACE c = false ∧ nat_of_ascii c < 127 ∧ c ≠ "?"%char.
Proof.
  destruct c as [[] [] [] [] [] [] [] []]; intros H; vm_compute in H; try discriminate H;
    (split_and!; [done.. | vm_compute; lia | done]).
Qed.

(** *** The scanners of [strtod] *)

Section scanners.
Import PyFloat.
Implicit Types (s text rest : list ascii) (ds : list Z).

Lemma scan_digits_app text ds rest :
  plain_digits text ds → nodigit_head rest → scan_digits (text ++ rest) = (ds, rest).
Proof.
  intros Htext Hrest. induction Htext as [|c d text ds Hc _ IH]; simpl.
  - destruct rest as [|c rest]; [done|]. simpl in *.
    apply isdigit_false in Hrest. by rewrite Hrest.
  - by rewrite Hc, IH.
Qed.

Lemma scan_digits_inv s : ∀ ds rest,
  scan_digits s = (ds, rest) →
  ∃ text, s = text ++ rest ∧ plain_digits text ds ∧ nodigit_head rest.
Proof.
  induction s as [|c s IH]; intros ds rest; simpl.
  - intros [= <- <-]. exists []. by split_and!; [|constructor|].
  - destruct (digit c) as [d|] eqn:Hc.
    + destruct (scan_digits s) as [ds' rest'] eqn:Hs. intros [= <- <-].
      destruct (IH _ _ eq_refl) as (text & -> & Ht & Hr).
      exists (c :: text). by split_and!; [|constructor|].
    + intros [= <- <-]. exists []. split_and!; [done | constructor |].
      by apply isdigit_false.
Qed.

Lemma plain_digits_head text ds rest :
  plain_digits text ds → ds ≠ [] → nosign_head (text ++ rest) ∧ text ≠ [].
Proof.
  intros [|c d ? ? Hc _] Hne; [done|]. simpl.
  assert (isdigit c = true) as Hd by (apply isdigit_true; eauto).
  by destruct (digit_only c Hd) as (_ & _ & ? & ? & _).
Qed.

Lemma plain_digits_nil text : plain_digits text [] → text = [].
Proof. by inversion 1. Qed.

Lemma scan_sign_other c s : c ≠ "+"%char → c ≠ "-"%char → scan_sign (c :: s) = (false, c :: s).
Proof. intros. by destruct c as [[] [] [] [] [] [] [] []]. Qed.

Lemma scan_sign_app sg neg rest :
  Grammar.optional Grammar.sign false sg neg → (sg = [] → nosign_head rest) →
  scan_sign (sg ++ rest) = (neg, rest).
Proof.
  intros [|? ? []] Hrest; [|done..]. destruct rest as [|c rest]; [done|].
  destruct (Hrest eq_refl). by apply scan_sign_other.
Qed.

Lemma scan_sign_inv s neg s1 :
  scan_sign s = (neg, s1) → ∃ sg, s = sg ++ s1 ∧ Grammar.optional Grammar.sign false sg neg.
Proof.
  intros H. destruct s as [|c s].
  { injection H as <- <-. exists []. split; [done | constructor]. }
  destruct (decide (c = "+"%char)) as [->|Hp].
  { injection H as <- <-. exists ["+"%char]. split; [done | repeat constructor]. }
  destruct (decide (c = "-"%char)) as [->|Hm].
  { injection H as <- <-. exists ["-"%char]. split; [done | repeat constructor]. }
  rewrite scan_sign_other in H by done. injection H as <- <-.
  exists []. split; [done | constructor].
Qed.

Lemma scan_exponent_other c s :
  c ≠ "e"%char → c ≠ "E"%char → scan_exponent (c :: s) = (0%Z, c :: s).
Proof. intros. by destruct c as [[] [] [] [] [] [] [] []]. Qed.

Lemma scan_exponent_letter c s :
  c = "e"%char ∨ c = "E"%char →
  scan_exponent (c :: s) =
    let '(esign, s2) := scan_sign s in
    match scan_digits s2 with
    | ([], _) => (0%Z, c :: s)
    | (ds, s3) => ((if esign then - number_of_digits ds else number_of_digits ds)%Z, s3)
    end.
Proof. by intros [-> | ->]. Qed.

Lemma scan_exponent_app c esg en edp eds rest :
  c = "e"%char ∨ c = "E"%char → Grammar.optional Grammar.sign false esg en →
  plain_digits edp eds → eds ≠ [] → nodigit_head rest →
  scan_exponent (c :: esg ++ edp ++ rest)
  = ((if en then - Grammar.value eds else Grammar.value eds)%Z, rest).
Proof.
  intros Hc Hsg Hd Hne Hrest. rewrite scan_exponent_letter by done.
  rewrite (scan_sign_app esg en).
  - rewrite (scan_digits_app edp eds) by done. by destruct eds.
  - done.
  - intros _. by apply (plain_digits_head edp eds).
Qed.

Lemma scan_exponent_inv s e rest :
  scan_exponent s = (e, rest) →
  e = 0%Z ∧ rest = s ∨
  ∃ c esg en edp eds,
    s = c :: esg ++ edp ++ rest ∧ (c = "e"%char ∨ c = "E"%char) ∧
    Grammar.optional Grammar.sign false esg en ∧ plain_digits edp eds ∧ eds ≠ [] ∧
    e = (if en then - Grammar.value eds else Grammar.value eds)%Z.
Proof.
  intros H. destruct s as [|c s]; [injection H as <- <-; by left|].
  destruct (decide (c = "e"%char ∨ c = "E"%char)) as [Hc|Hc].
  - rewrite scan_exponent_letter in H by done.
    destruct (scan_sign s) as [en s2] eqn:Hs.
    destruct (scan_digits s2) as [eds s3] eqn:Hd.
    apply scan_sign_inv in Hs as (esg & -> & Hsg).
    apply scan_digits_inv in Hd as (edp & -> & Hdp & _).
    destruct eds as [|d eds]; injection H as <- <-; [by left|].
    right. by exists c, esg, en, edp, (d :: eds).
  - rewrite scan_exponent_other in H by tauto. injection H as <- <-. by left.
Qed.

Lemma fraction_other c s :
  c ≠ "."%char →
  match c :: s with
  | "."%char :: s' => scan_digits s'
  | _ => ([], c :: s)
  end = ([], c :: s).
Proof. intros. by destruct c as [[] [] [] [] [] [] [] []]. Qed.

End scanners.

(** *** [strtod] reads the numbers in pieces *)

Section strtod.
Import PyFloat.

Lemma exponent_nodigit ew edp eds en rest :
  plain_digits edp eds →
  (ew = [] ∧ eds = [] ∧ en = false
   ∨ ∃ c esg, ew = c :: esg ∧ (c = "e"%char ∨ c = "E"%char) ∧
              Grammar.optional Grammar.sign false esg en ∧ eds ≠ []) →
  nodigit_head rest → nodigit_head (ew ++ edp ++ rest).
Proof.
  intros Hd [(-> & -> & _) | (c & esg & -> & Hc & _)] Hrest.
  - by rewrite (plain_digits_nil _ Hd).
  - simpl. by destruct Hc as [-> | ->].
Qed.

Lemma point_nodigit pt fp fds rest :
  plain_digits fp fds → (pt = [] ∧ fds = [] ∨ pt = ["."%char]) →
  nodigit_head rest → nodigit_head (pt ++ fp ++ rest).
Proof.
  intros Hfp [[-> ->] | ->] Hrest; [|done]. by rewrite (plain_digits_nil _ Hfp).
Qed.

Lemma strtod_pieces sg neg ip pt fp ew edp m e :
  Grammar.optional Grammar.sign false sg neg →
  number_pieces plain_digits ip pt fp ew edp m e →
  strtod (sg ++ ip ++ pt ++ fp ++ ew ++ edp) = Some (decimal_to_double neg m e, []).
Proof.
  intros Hsg (ids & fds & eds & en & Hip & Hfp & Hedp & Hpt & Hne & Hew & -> & ->).
  assert (nodigit_head (ew ++ edp)) as Htail.
  { rewrite <-(app_nil_r edp). by eapply exponent_nodigit. }
  assert (scan_exponent (ew ++ edp)
          = ((if en then - Grammar.value eds else Grammar.value eds)%Z, [])) as Hexp.
  { destruct Hew as [(-> & -> & ->) | (c & esg & -> & Hc & Hesg & Hene)].
    - by rewrite (plain_digits_nil _ Hedp).
    - rewrite <-(app_nil_r edp), <-app_comm_cons. by apply scan_exponent_app. }
  assert (match pt ++ fp ++ ew ++ edp with
          | "."%char :: s' => scan_digits s'
          | _ => ([], pt ++ fp ++ ew ++ edp)
          end = (fds, ew ++ edp)) as Hfrac.
  { destruct Hpt as [[-> ->] | ->].
    - rewrite (plain_digits_nil _ Hfp). simpl.
      destruct Hew as [(-> & -> & ->) | (c & esg & -> & Hc & _)].
      + by rewrite (plain_digits_nil _ Hedp).
      + rewrite <-app_comm_cons. apply fraction_other. by destruct Hc as [-> | ->].
    - simpl. by apply scan_digits_app. }
  assert (sg = [] → nosign_head (ip ++ pt ++ fp ++ ew ++ edp)) as Hhead.
  { intros _. destruct ids as [|d ids].
    - rewrite (plain_digits_nil _ Hip). simpl.
      destruct Hpt as [[-> ->] | ->]; [done|]. by simpl.
    - by apply (plain_digits_head ip (d :: ids)). }
  unfold strtod. rewrite (scan_sign_app sg neg) by done.
  rewrite (scan_digits_app ip ids); [|done|by apply (point_nodigit pt fp fds)].
  rewrite Hfrac. destruct (ids ++ fds) eqn:Hds; [done|]. by rewrite Hexp.
Qed.

Lemma strtod_exponent neg ids fds s3 x :
  match ids ++ fds with
  | [] => None
  | ds =>
      let '(e, s4) := scan_exponent s3 in
      Some (decimal_to_double neg (number_of_digits ds) (e - Z.of_nat (length fds)), s4)
  end = Some (x, []) →
  ids ++ fds ≠ [] ∧
  ∃ ew edp eds en,
    s3 = ew ++ edp ∧ plain_digits edp eds ∧
    (ew = [] ∧ eds = [] ∧ en = false
     ∨ ∃ c esg, ew = c :: esg ∧ (c = "e"%char ∨ c = "E"%char) ∧
                Grammar.optional Grammar.sign false esg en ∧ eds ≠ []) ∧
    x = decimal_to_double neg (Grammar.value (ids ++ fds))
          ((if en then - Grammar.value eds else Grammar.value eds) - Z.of_nat (length fds)).
Proof.
  destruct (ids ++ fds) as [|d ds] eqn:Hds; [done|].
  destruct (scan_exponent s3) as [e s4] eqn:He. intros [= <- ->]. split; [done|].
  apply scan_exponent_inv in He as [[-> <-] | (c & esg & en & edp & eds & -> & ? & ? & ? & ? & ->)].
  - exists [], [], [], false. split_and!; [done | constructor | by left | done].
  - exists (c :: esg), edp, eds, en. rewrite app_nil_r.
    split_and!; [done | done | right; by exists c, esg | done].
Qed.

Lemma strtod_pieces_inv s x :
  strtod s = Some (x, []) →
  ∃ sg neg ip pt fp ew edp m e,
    s = sg ++ ip ++ pt ++ fp ++ ew ++ edp ∧
    Grammar.optional Grammar.sign false sg neg ∧
    number_pieces plain_digits ip pt fp ew edp m e ∧
    x = decimal_to_double neg m e.
Proof.
  unfold strtod. intros H.
  destruct (scan_sign s) as [neg s1] eqn:Hs. apply scan_sign_inv in Hs as (sg & -> & Hsg).
  destruct (scan_digits s1) as [ids s2] eqn:Hi.
  apply scan_digits_inv in Hi as (ip & -> & Hip & _).
  assert (∃ pt fp fds s3,
    s2 = pt ++ fp ++ s3 ∧ plain_digits fp fds ∧ (pt = [] ∧ fds = [] ∨ pt = ["."%char]) ∧
    match s2 with
    | "."%char :: s' => scan_digits s'
    | _ => ([], s2)
    end = (fds, s3)) as (pt & fp & fds & s3 & -> & Hfp & Hpt & Hfrac).
  { destruct s2 as [|c s2].
    { exists [], [], [], []. split_and!; [done | constructor | by left | done]. }
    destruct (decide (c = "."%char)) as [->|Hc].
    - destruct (scan_digits s2) as [fds s3] eqn:Hf.
      pose proof Hf as (fp & -> & Hfp & _)%scan_digits_inv.
      exists ["."%char], fp, fds, s3. split_and!; [done | done | by right | done].
    - exists [], [], [], (c :: s2).
      split_and!; [done | constructor | by left | by apply fraction_other]. }
  rewrite Hfrac in H.
  apply strtod_exponent in H as (Hne & ew & edp & eds & en & -> & Hedp & Hew & ->).
  exists sg, neg, ip, pt, fp, ew, edp. eexists _, _. split_and!; [done | done | | done].
  by exists ids, fds, eds, en.
Qed.

(** The words *)

Lemma lower_spec c l :
  97 ≤ nat_of_ascii l ≤ 122 →
  lower c = l ↔ c = l ∨ nat_of_ascii c + 32 = nat_of_ascii l.
Proof.
  intros Hl. unfold lower.
  destruct ((65 <=? nat_of_ascii c) && (nat_of_ascii c <=? 90)) eqn:Hu.
  - apply andb_true_iff in Hu as [H1%Nat.leb_le H2%Nat.leb_le]. split.
    + intros <-. right. rewrite nat_ascii_embedding; lia.
    + intros [-> | H]; [lia|]. apply nat_of_ascii_inj. rewrite nat_ascii_embedding; lia.
  - split; [intros ->; by left|]. intros [-> | H]; [done|].
    apply andb_false_iff in Hu as [Hu%Nat.leb_gt | Hu%Nat.leb_gt]; lia.
Qed.

Lemma word_lower (w : string) s :
  Forall (fun l => 97 ≤ nat_of_ascii l ≤ 122) (String.list_ascii_of_string w) →
  Grammar.word w s ↔ Forall2 (fun c l => lower c = l) s (String.list_ascii_of_string w).
Proof.
  unfold Grammar.word. generalize (String.list_ascii_of_string w). clear w. intros w Hw.
  revert s. induction Hw as [|l w Hl _ IH]; intros s.
  - split; inversion 1; constructor.
  - split; inversion 1 as [|c ? s' ? Hc Hs']; subst; constructor;
      (by apply lower_spec) || by apply IH.
Qed.

Lemma case_insensitive_match_spec w : ∀ s rest,
  case_insensitive_match s w = Some rest ↔
  ∃ pre, s = pre ++ rest ∧ Forall2 (fun c l => lower c = l) pre w.
Proof.
  induction w as [|l w IH]; intros s rest.
  - destruct s; simpl.
    + split.
      * intros [= <-]. exists []. split; [done | constructor].
      * intros (pre & Hs & Hpre). inversion Hpre; subst. by rewrite Hs.
    + split.
      * intros [= <-]. exists []. split; [done | constructor].
      * intros (pre & Hs & Hpre). inversion Hpre; subst. by rewrite Hs.
  - destruct s as [|c s]; simpl.
    + split; [done|]. intros (pre & Hs & Hpre). inversion Hpre; by subst.
    + destruct (decide (lower c = l)) as [Hc|Hc].
      * rewrite IH. split.
        -- intros (pre & -> & Hpre). exists (c :: pre). split; [done | by constructor].
        -- intros (pre & Hs & Hpre). inversion Hpre as [|? ? pre' ? ? Hpre']; subst.
           injection Hs as -> ->. by exists pre'.
      * split; [done|]. intros (pre & Hs & Hpre). inversion Hpre; subst.
        by injection Hs as -> ->.
Qed.

End strtod.

Section words.
Import PyFloat Floats.SpecFloat.

Local Abbreviation small := (fun l => 97 ≤ nat_of_ascii l ≤ 122).

Lemma letter_only c :
  letter c = true →
  other c ∧ c ≠ "."%char ∧ c ≠ "+"%char ∧ c ≠ "-"%char ∧
  Py_ISSPACE c = false ∧ nat_of_ascii c < 127 ∧ c ≠ "?"%char.
Proof.
  destruct c as [[] [] [] [] [] [] [] []]; intros H; vm_compute in H; try discriminate H;
    (split_and!; [done.. | vm_compute; lia | done]).
Qed.

Lemma word_letters (w : string) s :
  Forall small (String.list_ascii_of_string w) → Grammar.word w s →
  Forall (fun c => letter c = true) s.
Proof.
  unfold Grammar.word. generalize (String.list_ascii_of_string w). clear w.
  intros w Hw Hs. induction Hs as [|c l s w Hc _ IH]; [constructor|].
  inversion Hw as [|? ? Hl Hw']; subst. constructor; [|by apply IH].
  unfold letter. apply orb_true_iff.
  destruct Hc as [-> | Hc]; [right | left]; apply andb_true_iff; split; apply Nat.leb_le; lia.
Qed.

Lemma small_inf : Forall small (String.list_ascii_of_string "inf").
Proof. repeat constructor; vm_compute; lia. Qed.

Lemma small_inity : Forall small (String.list_ascii_of_string "inity").
Proof. repeat constructor; vm_compute; lia. Qed.

Lemma small_infinity : Forall small (String.list_ascii_of_string "infinity").
Proof. repeat constructor; vm_compute; lia. Qed.

Lemma small_nan : Forall small (String.list_ascii_of_string "nan").
Proof. repeat constructor; vm_compute; lia. Qed.

Lemma word_infinity w :
  Grammar.word "infinity" w ↔ ∃ w1 w2, w = w1 ++ w2 ∧ Grammar.word "inf" w1 ∧ Grammar.word "inity" w2.
Proof.
  unfold Grammar.word.
  change (String.list_ascii_of_string "infinity")
    with (String.list_ascii_of_string "inf" ++ String.list_ascii_of_string "inity").
  split.
  - intros (w1 & w2 & ? & ? & ->)%Forall2_app_inv_r. by exists w1, w2.
  - intros (w1 & w2 & -> & ? & ?). by apply Forall2_app.
Qed.

Lemma parse_inf_or_nan_inv s x :
  parse_inf_or_nan s = Some (x, []) →
  ∃ sg neg w,
    s = sg ++ w ∧ Grammar.optional Grammar.sign false sg neg ∧
    (x = S754_infinity neg ∧ (Grammar.word "infinity" w ∨ Grammar.word "inf" w)
     ∨ x = S754_nan ∧ Grammar.word "nan" w).
Proof.
  unfold parse_inf_or_nan. destruct (scan_sign s) as [neg s1] eqn:Hs.
  apply scan_sign_inv in Hs as (sg & -> & Hsg).
  destruct (case_insensitive_match s1 (String.list_ascii_of_string "inf"))
    as [s2|] eqn:Hinf.
  - apply case_insensitive_match_spec in Hinf as (w1 & -> & Hw1).
    apply (word_lower "inf" _ small_inf) in Hw1.
    destruct (case_insensitive_match s2 (String.list_ascii_of_string "inity"))
      as [s3|] eqn:Hinity.
    + apply case_insensitive_match_spec in Hinity as (w2 & -> & Hw2).
      apply (word_lower "inity" _ small_inity) in Hw2.
      intros [= <- ->]. exists sg, neg, (w1 ++ w2 ++ []). split_and!; [done..|].
      left. split; [done|]. left. rewrite app_nil_r. apply word_infinity. by exists w1, w2.
    + intros [= <- ->]. exists sg, neg, (w1 ++ []). split_and!; [done..|].
      left. split; [done|]. right. by rewrite app_nil_r.
  - destruct (case_insensitive_match s1 (String.list_ascii_of_string "nan"))
      as [s2|] eqn:Hnan; [|done].
    apply case_insensitive_match_spec in Hnan as (w & -> & Hw).
    apply (word_lower "nan" _ small_nan) in Hw.
    intros [= <- ->]. exists sg, neg, (w ++ []). split_and!; [done..|].
    right. by rewrite app_nil_r.
Qed.

Lemma match_word (w : string) s :
  Forall small (String.list_ascii_of_string w) → Grammar.word w s → ∀ rest,
  case_insensitive_match (s ++ rest) (String.list_ascii_of_string w) = Some rest.
Proof.
  intros Hw Hs rest. apply case_insensitive_match_spec. exists s. split; [done|].
  by apply word_lower.
Qed.

Lemma letters_nosign s rest :
  Forall (fun c => letter c = true) s → s ≠ [] → nosign_head (s ++ rest).
Proof.
  intros [|c ? Hc _] ?; [done|]. simpl.
  by destruct (letter_only c Hc) as (_ & _ & ? & ? & _).
Qed.

Lemma word_nonempty (w : string) s :
  w ≠ "" → Grammar.word w s → s ≠ [].
Proof. destruct w; [done|]. intros _. by inversion 1. Qed.

Lemma parse_inf_or_nan_words sg neg w :
  Grammar.optional Grammar.sign false sg neg →
  (Grammar.word "infinity" w ∨ Grammar.word "inf" w →
   parse_inf_or_nan (sg ++ w) = Some (S754_infinity neg, [])) ∧
  (Grammar.word "nan" w → parse_inf_or_nan (sg ++ w) = Some (S754_nan, [])).
Proof.
  intros Hsg. unfold parse_inf_or_nan. split.
  - intros [(w1 & w2 & -> & Hw1 & Hw2)%word_infinity | Hw].
    + rewrite (scan_sign_app sg neg); [|done|].
      * rewrite (match_word "inf" w1 small_inf Hw1).
        rewrite <-(app_nil_r w2). by rewrite (match_word "inity" w2 small_inity Hw2).
      * intros _. apply letters_nosign; [by eapply word_letters, Hw1; apply small_inf|].
        eapply word_nonempty; [|eassumption]; done.
    + rewrite (scan_sign_app sg neg); [|done|].
      * rewrite <-(app_nil_r w). by rewrite (match_word "inf" w small_inf Hw).
      * intros _. rewrite <-(app_nil_r w).
        apply letters_nosign; [by eapply word_letters, Hw; apply small_inf|].
        eapply word_nonempty; [|eassumption]; done.
  - intros Hw. rewrite (scan_sign_app sg neg); [|done|].
    + assert (case_insensitive_match w (String.list_ascii_of_string "inf") = None) as ->.
      { apply (word_lower "nan" _ small_nan) in Hw.
        inversion Hw as [|c ? ? ? Hc _]; subst. simpl. by rewrite Hc. }
      rewrite <-(app_nil_r w). by rewrite (match_word "nan" w small_nan Hw).
    + intros _. rewrite <-(app_nil_r w).
      apply letters_nosign; [by eapply word_letters, Hw; apply small_nan|].
      eapply word_nonempty; [|eassumption]; done.
Qed.

Lemma strtod_letters sg neg w :
  Grammar.optional Grammar.sign false sg neg →
  Forall (fun c => letter c = true) w → w ≠ [] → strtod (sg ++ w) = None.
Proof.
  intros Hsg Hw Hne. unfold strtod.
  rewrite (scan_sign_app sg neg); [|done|].
  - destruct Hw as [|c w Hc _]; [done|].
    destruct (letter_only c Hc) as ([_ Hd%isdigit_false] & Hp & _).
    simpl scan_digits. rewrite Hd. by rewrite fraction_other.
  - intros _. rewrite <-(app_nil_r w). by apply letters_nosign.
Qed.

(** [ascii_strtod] reads to its end just the literals without underscores. *)
Lemma ascii_strtod_literal lit x :
  ascii_strtod lit = Some (x, []) ↔
  ∃ v, literal plain_digits lit v ∧ x = Grammar.to_float v.
Proof.
  unfold ascii_strtod. split.
  - destruct (strtod lit) as [[x' rest]|] eqn:Hs.
    + intros [= -> ->].
      apply strtod_pieces_inv in Hs
        as (sg & neg & ip & pt & fp & ew & edp & m & e & -> & Hsg & Hp & ->).
      exists (Grammar.Finite neg m e). split; [|done].
      exists sg, neg. split; [done|]. left. by exists ip, pt, fp, ew, edp, m, e.
    + intros (sg & neg & w & -> & Hsg & [[-> Hw] | [-> Hw]])%parse_inf_or_nan_inv.
      * exists (Grammar.Infinite neg). split; [|done].
        exists sg, neg. split; [done|]. right. exists w. split; [done|]. by left.
      * exists Grammar.NotANumber. split; [|done].
        exists sg, neg. split; [done|]. right. exists w. split; [done|]. by right.
  - intros (v & (sg & neg & Hsg & [Hnum | Hword]) & ->).
    + destruct Hnum as (ip & pt & fp & ew & edp & m & e & -> & Hp & ->).
      by rewrite (strtod_pieces sg neg ip pt fp ew edp m e).
    + destruct Hword as (w & -> & Hw).
      destruct (parse_inf_or_nan_words sg neg w Hsg) as [Hinf Hnan].
      assert (Forall (fun c => letter c = true) w ∧ w ≠ []) as [Hl Hne].
      { destruct Hw as [[_ [Hw | Hw]] | [_ Hw]].
        - split; [by eapply word_letters, Hw; apply small_infinity | eapply word_nonempty; [|eassumption]; done].
        - split; [by eapply word_letters, Hw; apply small_inf | eapply word_nonempty; [|eassumption]; done].
        - split; [by eapply word_letters, Hw; apply small_nan | eapply word_nonempty; [|eassumption]; done]. }
      rewrite (strtod_letters sg neg) by done.
      destruct Hw as [[-> Hw] | [-> Hw]]; [by apply Hinf | by apply Hnan].
Qed.

End words.

(** *** The grammar in pieces *)

Section grammar.
Import Grammar.

Local Abbreviation dp0 := (optional digitpart []).

Lemma digitpart_nonempty s ds : digitpart s ds → ds ≠ [] ∧ s ≠ [].
Proof. by destruct 1. Qed.

Lemma dp0_nil s : dp0 s [] → s = [].
Proof. inversion 1 as [|? ? Hd]; [done|]. by destruct (digitpart_nonempty _ _ Hd). Qed.

Lemma dp0_cons s ds : ds ≠ [] → dp0 s ds → digitpart s ds.
Proof. by inversion 2. Qed.

Lemma floatnumber_pieces s m e :
  floatnumber s m e ↔
  ∃ ip pt fp ew edp, s = ip ++ pt ++ fp ++ ew ++ edp ∧ number_pieces dp0 ip pt fp ew edp m e.
Proof.
  split.
  - intros [s1 ds1 ds2 s2 e' Hnum Hexp].
    assert (∃ ip pt fp, s1 = ip ++ pt ++ fp ∧ dp0 ip ds1 ∧ dp0 fp ds2 ∧
      (pt = [] ∧ ds2 = [] ∨ pt = ["."%char]) ∧ ds1 ++ ds2 ≠ [])
      as (ip & pt & fp & -> & Hip & Hfp & Hpt & Hne).
    { destruct Hnum as [s1 ds1 s2' ds2 H1 H2 | s1 ds1 H1 | s1 ds1 H1].
      - exists s1, ["."%char], s2'. split_and!; [done | done | by constructor | by right |].
        destruct (digitpart_nonempty _ _ H2) as [? _]. by destruct ds1.
      - exists s1, [], []. rewrite !app_nil_r.
        split_and!; [done | by constructor | constructor | by left |].
        by destruct (digitpart_nonempty _ _ H1).
      - exists s1, ["."%char], []. rewrite !app_nil_r.
        split_and!; [done | by constructor | constructor | by right |].
        by destruct (digitpart_nonempty _ _ H1). }
    destruct Hexp as [|s2 e' [c sg neg edp eds Hc Hsg Hd]].
    + exists ip, pt, fp, [], []. split; [by rewrite <-?app_assoc, ?app_nil_r|].
      exists ds1, ds2, [], false. split_and!; [done | done | constructor | done | done | | done | done].
      by left.
    + exists ip, pt, fp, (c :: sg), edp. split; [by rewrite <-?app_assoc|].
      exists ds1, ds2, eds, neg.
      split_and!; [done | done | by constructor | done | done | | done | done].
      right. exists c, sg. split_and!; [done..|]. by destruct (digitpart_nonempty _ _ Hd).
  - intros (ip & pt & fp & ew & edp & -> &
            ids & fds & eds & en & Hip & Hfp & Hedp & Hpt & Hne & Hew & -> & ->).
    assert (number (ip ++ pt ++ fp) ids fds) as Hnum.
    { destruct fds as [|d fds].
      - apply dp0_nil in Hfp as ->. rewrite !app_nil_r in *.
        apply dp0_cons in Hip; [|done].
        destruct Hpt as [[-> _] | ->]; [rewrite app_nil_r|]; by constructor.
      - destruct Hpt as [[_ ?] | ->]; [done|]. apply dp0_cons in Hfp; [|done].
        by constructor. }
    replace (ip ++ pt ++ fp ++ ew ++ edp) with ((ip ++ pt ++ fp) ++ ew ++ edp)
      by by rewrite <-!app_assoc.
    destruct Hew as [(-> & -> & ->) | (c & esg & -> & Hc & Hsg & Hene)].
    + apply dp0_nil in Hedp as ->. apply (floatnumber_intro _ _ _ [] 0%Z Hnum). constructor.
    + apply dp0_cons in Hedp; [|done]. apply (floatnumber_intro _ _ _ _ _ Hnum).
      constructor. rewrite <-app_comm_cons. by constructor.
Qed.

Lemma floatvalue_literal lit v : floatvalue lit v ↔ literal dp0 lit v.
Proof.
  split.
  - intros [sg neg s v' Hsg Habs]. exists sg, neg. split; [done|].
    destruct Habs as [s m e Hnum | s Hw | s Hw].
    + left. apply floatnumber_pieces in Hnum as (ip & pt & fp & ew & edp & -> & Hp).
      by exists ip, pt, fp, ew, edp, m, e.
    + right. exists s. split; [done|]. by left.
    + right. exists s. split; [done|]. by right.
  - intros (sg & neg & Hsg & [Hnum | Hword]).
    + destruct Hnum as (ip & pt & fp & ew & edp & m & e & -> & Hp & ->).
      apply (floatvalue_intro sg neg); [done|]. constructor. apply floatnumber_pieces.
      by exists ip, pt, fp, ew, edp.
    + destruct Hword as (w & -> & [[-> Hw] | [-> Hw]]);
        (apply (floatvalue_intro sg neg); [done|]).
      * by apply absfloatvalue_infinity.
      * by apply absfloatvalue_nan.
Qed.

End grammar.

(** *** Underscores *)

Section underscores.
Import PyFloat Grammar.
Implicit Types (s w k : list ascii) (prev : option ascii).

Local Abbreviation dp0 := (optional digitpart []).
Local Abbreviation U := remove_underscores.
Local Abbreviation nd prev := (from_option isdigit false prev = false).

Lemma U_nil prev : U prev [] = if decide (prev = Some "_"%char) then None else Some [].
Proof. done. Qed.

Lemma U_digit prev c s : isdigit c = true → U prev (c :: s) = (c ::.) <$> U (Some c) s.
Proof.
  intros Hc. destruct (digit_only c Hc) as [Hu _]. simpl.
  rewrite decide_False by done. by rewrite Hc, andb_false_r.
Qed.

Lemma U_other prev c s :
  other c →
  U prev (c :: s) = if decide (prev = Some "_"%char) then None else (c ::.) <$> U (Some c) s.
Proof.
  intros [Hu Hc]. simpl. rewrite decide_False by done. rewrite Hc.
  destruct (decide (prev = Some "_"%char)) as [->|Hp].
  - by rewrite bool_decide_eq_true_2.
  - by rewrite bool_decide_eq_false_2.
Qed.

Lemma U_underscore prev s :
  U prev ("_"%char :: s) = if from_option isdigit false prev then U (Some "_"%char) s else None.
Proof. done. Qed.

Lemma U_after_underscore s :
  U (Some "_"%char) s =
    match s with
    | c :: s' => if isdigit c then (c ::.) <$> U (Some c) s' else None
    | [] => None
    end.
Proof.
  destruct s as [|c s]; [done|]. destruct (isdigit c) eqn:Hc.
  - by apply U_digit.
  - destruct (decide (c = "_"%char)) as [->|Hu]; [done|].
    rewrite U_other by done. by rewrite decide_True.
Qed.

Lemma U_nil_inv prev s : U prev s = Some [] → s = [].
Proof.
  destruct s as [|c s]; [done|]. destruct (decide (c = "_"%char)) as [->|Hu].
  - rewrite U_underscore, U_after_underscore.
    destruct (from_option isdigit false prev); [|done].
    destruct s as [|c s]; [done|]. destruct (isdigit c); [|done].
    by destruct (U (Some c) s).
  - destruct (isdigit c) eqn:Hc.
    + rewrite U_digit by done. by destruct (U (Some c) s).
    + rewrite U_other by done. destruct (decide _); [done|]. by destruct (U (Some c) s).
Qed.

(** Forwards: what [remove_underscores] makes of a text. *)

Lemma passes_nil : passes [] [].
Proof. intros prev Hprev. exists prev. split; [done|]. intros k. simpl. by destruct (U prev k). Qed.

Lemma passes_app s s' t t' : passes s s' → passes t t' → passes (s ++ t) (s' ++ t').
Proof.
  intros Hs Ht prev Hprev. destruct (Hs prev Hprev) as (prev1 & Hprev1 & Hs1).
  destruct (Ht prev1 Hprev1) as (prev2 & Hprev2 & Ht2). exists prev2. split; [done|].
  intros k. rewrite <-app_assoc, Hs1, Ht2. destruct (U prev2 k); simpl; [|done].
  by rewrite <-app_assoc.
Qed.

Lemma passes_char c : c ≠ "_"%char → passes [c] [c].
Proof.
  intros Hu prev Hprev. exists (Some c). split; [congruence|]. intros k.
  destruct (isdigit c) eqn:Hc.
  - by rewrite <-app_comm_cons, U_digit.
  - rewrite <-app_comm_cons, U_other by done. by rewrite decide_False.
Qed.

Lemma passes_plain w : Forall (fun c => c ≠ "_"%char) w → passes w w.
Proof.
  induction 1 as [|c w Hc _ IH]; [apply passes_nil|].
  apply (passes_app [c] [c] w w); [by apply passes_char | done].
Qed.

Lemma passes_digitpart s ds :
  digitpart s ds → ∃ plain, plain_digits plain ds ∧ passes s plain.
Proof.
  intros Hs.
  assert (∃ plain c, plain_digits plain ds ∧ isdigit c = true ∧
            ∀ prev k, U prev (s ++ k) = (plain ++.) <$> U (Some c) k)
    as (plain & c & Hplain & Hc & HU).
  { induction Hs as [c d Hd | c d s ds Hd _ IH | c d s ds Hd _ IH];
      apply digit_spec in Hd; assert (isdigit c = true) as Hc by (apply isdigit_true; eauto).
    - exists [c], c. split_and!; [by repeat constructor | done |].
      intros prev k. by rewrite <-app_comm_cons, U_digit.
    - destruct IH as (plain & c' & Hplain & Hc' & HU).
      exists (c :: plain), c'. split_and!; [by constructor | done |].
      intros prev k. rewrite <-app_comm_cons, U_digit, HU by done.
      by destruct (U (Some c') k).
    - destruct IH as (plain & c' & Hplain & Hc' & HU).
      exists (c :: plain), c'. split_and!; [by constructor | done |].
      intros prev k. rewrite <-!app_comm_cons, U_digit, U_underscore by done.
      simpl. rewrite Hc, HU. by destruct (U (Some c') k). }
  exists plain. split; [done|]. intros prev _. exists (Some c). split; [|done].
  intros [= ->]. by destruct (digit_only _ Hc).
Qed.

Lemma passes_dp0 s ds : dp0 s ds → ∃ plain, plain_digits plain ds ∧ passes s plain.
Proof.
  intros [|? ? Hs]; [|by apply passes_digitpart].
  exists []. split; [constructor | apply passes_nil].
Qed.

Lemma passes_end s s' : passes s s' → U None s = Some s'.
Proof.
  intros Hs. destruct (Hs None) as (prev & Hprev & HU); [done|].
  specialize (HU []). rewrite app_nil_r, U_nil, decide_False in HU by done.
  simpl in HU. by rewrite app_nil_r in HU.
Qed.

(** Backwards: the texts [remove_underscores] makes a given text of. *)

Lemma last_or_cons prev c w : last_or prev (c :: w) = last_or (Some c) w.
Proof. unfold last_or. rewrite last_cons. by destruct (last w). Qed.

Lemma last_or_other prev w : Forall other w → (w = [] → nd prev) → nd (last_or prev w).
Proof.
  intros Hw. revert prev. induction Hw as [|c w [_ Hc] _ IH]; intros prev Hprev.
  - by apply Hprev.
  - rewrite last_or_cons. by apply IH.
Qed.

Lemma U_plain_inv w : Forall other w → ∀ prev s k,
  U prev s = Some (w ++ k) → ∃ sb, s = w ++ sb ∧ U (last_or prev w) sb = Some k.
Proof.
  induction 1 as [|c w Hc _ IH]; intros prev s k Hs; [by exists s|].
  destruct s as [|c1 s]; [simpl in Hs; by destruct (decide _)|].
  assert (c1 = c ∧ U (Some c) s = Some (w ++ k)) as [-> Hs'].
  { destruct Hc as [Hu Hd]. destruct (decide (c1 = "_"%char)) as [->|Hu1].
    - rewrite U_underscore, U_after_underscore in Hs.
      destruct (from_option isdigit false prev); [|done].
      destruct s as [|c2 s]; [done|]. destruct (isdigit c2) eqn:Hc2; [|done].
      destruct (U (Some c2) s); [|done]. injection Hs as -> _. congruence.
    - destruct (isdigit c1) eqn:Hc1.
      + rewrite U_digit in Hs by done. destruct (U (Some c1) s); [|done].
        injection Hs as -> _. congruence.
      + rewrite U_other in Hs by done. destruct (decide _); [done|].
        destruct (U (Some c1) s) as [r|] eqn:Hr; [|done]. by injection Hs as -> ->. }
  destruct (IH _ _ _ Hs') as (sb & -> & Hsb). exists sb. by rewrite last_or_cons.
Qed.

Lemma U_digit_tail plain ds : plain_digits plain ds → ∀ c0 d0 s k,
  digit c0 d0 → U (Some c0) s = Some (plain ++ k) →
  ∃ sa sb prev', s = sa ++ sb ∧ digitpart (c0 :: sa) (d0 :: ds) ∧ U prev' sb = Some k.
Proof.
  induction 1 as [|c d plain ds Hc _ IH]; intros c0 d0 s k Hc0 Hs.
  { exists [], s, (Some c0). split_and!; [done | by constructor | done]. }
  assert (isdigit c = true) as Hd by (apply isdigit_true; eauto).
  apply digit_spec in Hc.
  destruct s as [|c1 s]; [simpl in Hs; by destruct (decide _)|].
  destruct (decide (c1 = "_"%char)) as [->|Hu1].
  - rewrite U_underscore, U_after_underscore in Hs.
    destruct (from_option isdigit false (Some c0)); [|done].
    destruct s as [|c2 s]; [done|]. destruct (isdigit c2) eqn:Hc2; [|done].
    destruct (U (Some c2) s) as [r|] eqn:Hr; [|done]. injection Hs as -> ->.
    destruct (IH _ _ _ _ Hc Hr) as (sa & sb & prev' & -> & Hsa & Hsb).
    exists ("_"%char :: c :: sa), sb, prev'. split_and!; [done | | done].
    by apply digitpart_underscore.
  - destruct (isdigit c1) eqn:Hc1.
    + rewrite U_digit in Hs by done. destruct (U (Some c1) s) as [r|] eqn:Hr; [|done].
      injection Hs as -> ->.
      destruct (IH _ _ _ _ Hc Hr) as (sa & sb & prev' & -> & Hsa & Hsb).
      exists (c :: sa), sb, prev'. split_and!; [done | | done].
      by apply digitpart_more.
    + rewrite U_other in Hs by done. destruct (decide _); [done|].
      destruct (U (Some c1) s); [|done]. injection Hs as -> _. congruence.
Qed.

Lemma U_digits_inv plain ds prev s k :
  plain_digits plain ds → (ds ≠ [] → nd prev) → U prev s = Some (plain ++ k) →
  ∃ sa sb prev', s = sa ++ sb ∧ dp0 sa ds ∧ U prev' sb = Some k.
Proof.
  intros [|c d plain' ds' Hc Hplain] Hprev Hs.
  { exists [], s, prev. split_and!; [done | constructor | done]. }
  assert (isdigit c = true) as Hd by (apply isdigit_true; eauto).
  apply digit_spec in Hc. specialize (Hprev ltac:(done)).
  destruct s as [|c1 s]; [simpl in Hs; by destruct (decide _)|].
  destruct (decide (c1 = "_"%char)) as [->|Hu1].
  { rewrite U_underscore in Hs. by rewrite Hprev in Hs. }
  destruct (isdigit c1) eqn:Hc1.
  - rewrite U_digit in Hs by done. destruct (U (Some c1) s) as [r|] eqn:Hr; [|done].
    injection Hs as -> ->.
    destruct (U_digit_tail _ _ Hplain _ _ _ _ Hc Hr) as (sa & sb & prev' & -> & Hsa & Hsb).
    exists (c :: sa), sb, prev'. split_and!; [done | by constructor | done].
  - rewrite U_other in Hs by done. destruct (decide _); [done|].
    destruct (U (Some c1) s); [|done]. injection Hs as -> _. congruence.
Qed.

End underscores.

(** *** Literals with and without underscores *)

Section literals.
Import PyFloat Grammar.
Implicit Types (s w k lit : list ascii) (prev : option ascii).

Local Abbreviation dp0 := (optional digitpart []).
Local Abbreviation U := remove_underscores.
Local Abbreviation spaces := (Forall (fun c => Py_ISSPACE c = true)).
Local Abbreviation inner c :=
  (Py_ISSPACE c%char = false ∧ nat_of_ascii c%char < 127 ∧ c%char ≠ "?"%char).
Local Abbreviation mark c := (other c ∧ inner c).

Local Ltac solve_mark := split_and?; try done; vm_compute; lia.

Lemma space_other c : Py_ISSPACE c = true → other c.
Proof. by destruct c as [[] [] [] [] [] [] [] []]. Qed.

Lemma sign_mark sg neg : optional sign false sg neg → Forall (fun c => mark c) sg.
Proof. intros [|? ? []]; repeat constructor; solve_mark. Qed.

Lemma point_mark pt (fds : list Z) :
  pt = [] ∧ fds = [] ∨ pt = ["."%char] → Forall (fun c => mark c) pt.
Proof. intros [[-> _] | ->]; repeat constructor; solve_mark. Qed.

Lemma exponent_mark ew (eds : list Z) en :
  (ew = [] ∧ eds = [] ∧ en = false
   ∨ ∃ c esg, ew = c :: esg ∧ (c = "e"%char ∨ c = "E"%char) ∧
              optional sign false esg en ∧ eds ≠ []) →
  Forall (fun c => mark c) ew.
Proof.
  intros [(-> & _) | (c & esg & -> & Hc & Hsg & _)]; [constructor|].
  constructor; [|by eapply sign_mark]. destruct Hc as [-> | ->]; solve_mark.
Qed.

Lemma letters_mark w : Forall (fun c => letter c = true) w → Forall (fun c => mark c) w.
Proof.
  intros Hw. eapply Forall_impl; [done|].
  intros c Hc. by destruct (letter_only c Hc) as (? & _ & _ & _ & ? & ? & ?).
Qed.

Lemma plain_digits_inner text ds :
  plain_digits text ds → Forall (fun c => c ≠ "_"%char ∧ inner c) text.
Proof.
  induction 1 as [|c d text ds Hc _ IH]; constructor; [|done].
  assert (isdigit c = true) as Hd by (apply isdigit_true; eauto).
  by destruct (digit_only c Hd) as (? & _ & _ & _ & _ & _ & ? & ? & ?).
Qed.

Lemma digitpart_inner s ds : digitpart s ds → Forall (fun c => inner c) s.
Proof.
  induction 1 as [c d Hd | c d s ds Hd _ IH | c d s ds Hd _ IH];
    apply digit_spec in Hd; assert (isdigit c = true) as Hc by (apply isdigit_true; eauto);
    destruct (digit_only c Hc) as (_ & _ & _ & _ & _ & _ & ? & ? & ?).
  - constructor; [done | constructor].
  - by constructor.
  - constructor; [done|]. constructor; [|done]. split_and!; [done | vm_compute; lia | done].
Qed.

Lemma dp0_inner s ds : dp0 s ds → Forall (fun c => inner c) s.
Proof. intros [|? ? Hs]; [constructor | by eapply digitpart_inner]. Qed.

Lemma word_mark w :
  word "infinity" w ∨ word "inf" w ∨ word "nan" w → Forall (fun c => mark c) w ∧ w ≠ [].
Proof.
  intros [Hw | [Hw | Hw]]; (split; [apply letters_mark | by eapply word_nonempty; [|done]]).
  - by eapply word_letters, Hw; apply small_infinity.
  - by eapply word_letters, Hw; apply small_inf.
  - by eapply word_letters, Hw; apply small_nan.
Qed.

(** The characters of a literal are ASCII and no white space, and a literal
    is not empty. *)
Lemma literal_inner digits lit v :
  (∀ s ds, digits s ds → Forall (fun c => inner c) s) →
  (∀ s ds, digits s ds → ds ≠ [] → s ≠ []) →
  literal digits lit v → Forall (fun c => inner c) lit ∧ lit ≠ [].
Proof.
  intros Hdigits Hne (sg & neg & Hsg%sign_mark & [Hnum | Hword]).
  - destruct Hnum as (ip & pt & fp & ew & edp & m & e & -> &
      (ids & fds & eds & en & Hip & Hfp & Hedp & Hpt & Hn & Hew & _) & _).
    split.
    + rewrite !Forall_app. split_and!; eauto.
      * eapply Forall_impl; [done|]. by intros ? [_ ?].
      * eapply Forall_impl; [by eapply point_mark|]. by intros ? [_ ?].
      * eapply Forall_impl; [by eapply exponent_mark|]. by intros ? [_ ?].
    + destruct ids as [|d ids].
      * destruct Hpt as [[_ ->] | ->]; [done|]. by destruct sg, ip.
      * specialize (Hne _ _ Hip ltac:(done)). by destruct sg, ip.
  - destruct Hword as (w & -> & Hw).
    assert (Forall (fun c => mark c) w ∧ w ≠ []) as [Hm Hw'] by (apply word_mark; tauto).
    split; [|by destruct sg, w]. rewrite Forall_app. split.
    + eapply Forall_impl; [done|]. by intros ? [_ ?].
    + eapply Forall_impl; [done|]. by intros ? [_ ?].
Qed.

Lemma plain_literal_inner lit v :
  literal plain_digits lit v → Forall (fun c => inner c) lit ∧ lit ≠ [].
Proof.
  apply literal_inner.
  - intros s ds Hs%plain_digits_inner. eapply Forall_impl; [done|]. by intros ? [_ ?].
  - intros s ds [|] ?; done.
Qed.

Lemma grammar_literal_inner lit v :
  literal dp0 lit v → Forall (fun c => inner c) lit ∧ lit ≠ [].
Proof.
  apply literal_inner.
  - apply dp0_inner.
  - intros s ds [|? ? Hs] ?; [done|]. by destruct (digitpart_nonempty _ _ Hs).
Qed.

Lemma pieces_lower ip pt fp ew edp m e :
  number_pieces dp0 ip pt fp ew edp m e →
  ∃ ip' fp' edp',
    number_pieces plain_digits ip' pt fp' ew edp' m e ∧
    passes ip ip' ∧ passes fp fp' ∧ passes edp edp'.
Proof.
  intros (ids & fds & eds & en & Hip & Hfp & Hedp & Hrest).
  apply passes_dp0 in Hip as (ip' & Hip' & ?).
  apply passes_dp0 in Hfp as (fp' & Hfp' & ?).
  apply passes_dp0 in Hedp as (edp' & Hedp' & ?).
  exists ip', fp', edp'. split_and!; [|done..]. by exists ids, fds, eds, en.
Qed.

Lemma passes_mark w : Forall (fun c => mark c) w → passes w w.
Proof. intros Hw. apply passes_plain. eapply Forall_impl; [done|]. by intros ? [[? _] _]. Qed.

Lemma passes_spaces w : spaces w → passes w w.
Proof.
  intros Hw. apply passes_plain. eapply Forall_impl; [done|].
  intros c Hc. by destruct (space_other c Hc).
Qed.

Lemma literal_lower ws1 ws2 lit v :
  spaces ws1 → spaces ws2 → literal dp0 lit v →
  ∃ lit', literal plain_digits lit' v ∧ U None (ws1 ++ lit ++ ws2) = Some (ws1 ++ lit' ++ ws2).
Proof.
  intros Hws1%passes_spaces Hws2%passes_spaces (sg & neg & Hsg & [Hnum | Hword]).
  - destruct Hnum as (ip & pt & fp & ew & edp & m & e & -> & Hp & ->).
    destruct (pieces_lower _ _ _ _ _ _ _ Hp) as (ip' & fp' & edp' & Hp' & Hip & Hfp & Hedp).
    exists (sg ++ ip' ++ pt ++ fp' ++ ew ++ edp'). split.
    + exists sg, neg. split; [done|]. left. by exists ip', pt, fp', ew, edp', m, e.
    + apply passes_end. destruct Hp as (ids & fds & eds & en & _ & _ & _ & Hpt & _ & Hew & _).
      apply point_mark, passes_mark in Hpt. apply exponent_mark, passes_mark in Hew.
      apply sign_mark, passes_mark in Hsg.
      by repeat apply passes_app.
  - destruct Hword as (w & -> & Hw). exists (sg ++ w). split.
    + exists sg, neg. split; [done|]. right. by exists w.
    + apply passes_end.
      assert (Forall (fun c => mark c) w ∧ w ≠ []) as [Hm%passes_mark _]
        by (apply word_mark; tauto).
      apply sign_mark, passes_mark in Hsg.
      by repeat apply passes_app.
Qed.

Lemma literal_lift s ws1 lit' ws2 v :
  spaces ws1 → spaces ws2 → literal plain_digits lit' v →
  U None s = Some (ws1 ++ lit' ++ ws2) →
  ∃ lit, s = ws1 ++ lit ++ ws2 ∧ literal dp0 lit v.
Proof.
  intros Hws1 Hws2 (sg & neg & Hsg & [Hnum | Hword]) Hs.
  assert (Forall other ws1) as Ho1 by (eapply Forall_impl; [done | apply space_other]).
  assert (Forall other ws2) as Ho2 by (eapply Forall_impl; [done | apply space_other]).
  assert (Forall other sg) as Hosg.
  { eapply Forall_impl; [by eapply sign_mark|]. by intros ? [? _]. }
  - destruct Hnum as (ip' & pt & fp' & ew & edp' & m & e & -> & Hp & ->).
    destruct Hp as (ids & fds & eds & en & Hip & Hfp & Hedp & Hpt & Hne & Hew & -> & ->).
    assert (Forall other pt) as Hopt.
    { eapply Forall_impl; [by eapply point_mark|]. by intros ? [? _]. }
    assert (Forall other ew) as Hoew.
    { eapply Forall_impl; [by eapply exponent_mark|]. by intros ? [? _]. }
    replace (ws1 ++ (sg ++ ip' ++ pt ++ fp' ++ ew ++ edp') ++ ws2)
      with ((ws1 ++ sg) ++ ip' ++ pt ++ fp' ++ ew ++ edp' ++ ws2) in Hs
      by (by rewrite <-!app_assoc).
    apply U_plain_inv in Hs as (s1 & -> & Hs); [|by apply Forall_app].
    apply (U_digits_inv ip' ids) in Hs as (ip & s2 & p2 & -> & Hip2 & Hs); [|done|].
    2:{ intros _. apply last_or_other; [by apply Forall_app | done]. }
    apply U_plain_inv in Hs as (s3 & -> & Hs); [|done].
    apply (U_digits_inv fp' fds) in Hs as (fp & s4 & p4 & -> & Hfp2 & Hs); [|done|].
    2:{ intros Hf. destruct Hpt as [[_ ?] | ->]; done. }
    apply U_plain_inv in Hs as (s5 & -> & Hs); [|done].
    apply (U_digits_inv edp' eds) in Hs as (edp & s6 & p6 & -> & Hedp2 & Hs); [|done|].
    2:{ intros He. apply last_or_other; [done|].
        destruct Hew as [(_ & ? & _) | (? & ? & -> & _)]; done. }
    rewrite <-(app_nil_r ws2) in Hs.
    apply U_plain_inv in Hs as (s7 & -> & Hs%U_nil_inv); [|done]. subst s7.
    exists (sg ++ ip ++ pt ++ fp ++ ew ++ edp). split.
    + by rewrite app_nil_r, <-!app_assoc.
    + exists sg, neg. split; [done|]. left. exists ip, pt, fp, ew, edp. eexists _, _.
      split_and!; [done | | done]. by exists ids, fds, eds, en.
  - destruct Hword as (w & -> & Hw).
    assert (Forall (fun c => mark c) w ∧ w ≠ []) as [Hm _] by (apply word_mark; tauto).
    assert (Forall other ws1) as Ho1 by (eapply Forall_impl; [done | apply space_other]).
    assert (Forall other ws2) as Ho2 by (eapply Forall_impl; [done | apply space_other]).
    assert (Forall other sg) as Hosg.
    { eapply Forall_impl; [by eapply sign_mark|]. by intros ? [? _]. }
    assert (Forall other w) as How.
    { eapply Forall_impl; [done|]. by intros ? [? _]. }
    rewrite <-(app_nil_r (ws1 ++ (sg ++ w) ++ ws2)) in Hs.
    apply U_plain_inv in Hs as (s1 & -> & Hs%U_nil_inv); [|by rewrite !Forall_app].
    subst s1. exists (sg ++ w). split; [by rewrite app_nil_r|].
    exists sg, neg. split; [done|]. right. by exists w.
Qed.

End literals.

(** *** White space and the strings that are not ASCII *)

Section spaces.
Import PyFloat Grammar.
Implicit Types (s w lit : list ascii).

Local Abbreviation dp0 := (optional digitpart []).
Local Abbreviation spaces := (Forall (fun c => Py_ISSPACE c = true)).
Local Abbreviation inner c :=
  (Py_ISSPACE c%char = false ∧ nat_of_ascii c%char < 127 ∧ c%char ≠ "?"%char).

Lemma skip_spaces_app_l w x : spaces w → skip_spaces (w ++ x) = skip_spaces x.
Proof. induction 1 as [|c w Hc _ IH]; [done|]. simpl. by rewrite Hc. Qed.

Lemma skip_spaces_app_r x w :
  spaces w →
  skip_spaces (x ++ w) = if skip_spaces x is [] then [] else skip_spaces x ++ w.
Proof.
  intros Hw. induction x as [|c x IH]; simpl.
  - rewrite <-(app_nil_r w) at 1. by rewrite skip_spaces_app_l.
  - by destruct (Py_ISSPACE c).
Qed.

Lemma float_from_string_inner_spaces w1 x w2 :
  spaces w1 → spaces w2 →
  float_from_string_inner (w1 ++ x ++ w2) = float_from_string_inner x.
Proof.
  intros Hw1 Hw2. unfold float_from_string_inner.
  rewrite skip_spaces_app_l, skip_spaces_app_r by done.
  destruct (skip_spaces x) as [|c y] eqn:Hx; [done|].
  assert (skip_spaces (reverse ((c :: y) ++ w2)) = skip_spaces (reverse (c :: y)))
    as Hrev.
  { rewrite reverse_app, skip_spaces_app_l; [done | by apply Forall_reverse]. }
  cbn [app] in Hrev |- *. by rewrite Hrev.
Qed.

Lemma skip_spaces_split s : ∃ w, s = w ++ skip_spaces s ∧ spaces w.
Proof.
  induction s as [|c s (w & Hs & Hw)]; [by exists []|]. simpl.
  destruct (Py_ISSPACE c) eqn:Hc.
  - exists (c :: w). split; [by rewrite <-app_comm_cons, <-Hs | by constructor].
  - by exists [].
Qed.

Lemma skip_spaces_inner s :
  Forall (fun c => Py_ISSPACE c = false) s → skip_spaces s = s.
Proof. intros [|c ? Hc _]; [done|]. simpl. by rewrite Hc. Qed.

Lemma float_from_string_inner_trimmed lit :
  lit ≠ [] → Forall (fun c => Py_ISSPACE c = false) lit →
  float_from_string_inner lit =
    match ascii_strtod lit with
    | Some (x, []) => Return x
    | _ => Raise ValueError
    end.
Proof.
  intros Hne Hlit. unfold float_from_string_inner.
  rewrite (skip_spaces_inner lit) by done. destruct lit as [|c l] eqn:Heq; [done|].
  rewrite <-Heq in *.
  rewrite (skip_spaces_inner (reverse lit)), reverse_involutive; [|by apply Forall_reverse].
  done.
Qed.

Lemma float_from_string_inner_inv s x :
  float_from_string_inner s = Return x →
  ∃ w1 lit w2, s = w1 ++ lit ++ w2 ∧ spaces w1 ∧ spaces w2 ∧ ascii_strtod lit = Some (x, []).
Proof.
  unfold float_from_string_inner.
  destruct (skip_spaces_split s) as (w1 & Hs & Hw1).
  destruct (skip_spaces s) as [|c s1]; [done|].
  destruct (skip_spaces_split (reverse (c :: s1))) as (w2 & Hr & Hw2).
  destruct (ascii_strtod _) as [[x' [|]]|] eqn:Hlit; [|done..]. intros [= ->].
  exists w1, (reverse (skip_spaces (reverse (c :: s1)))), (reverse w2).
  split_and!; [|done|by apply Forall_reverse|done].
  rewrite Hs. f_equal. by rewrite <-reverse_app, <-Hr, reverse_involutive.
Qed.

(** An ASCII string is a float exactly when it is a literal of the grammar
    between ASCII white space. *)
Lemma float_of_ascii_valid s x :
  float_of_ascii s = Return x ↔
  ∃ w1 lit w2 v,
    s = w1 ++ lit ++ w2 ∧ spaces w1 ∧ spaces w2 ∧ floatvalue lit v ∧ x = to_float v.
Proof.
  unfold float_of_ascii. split.
  - destruct (remove_underscores None s) as [dup|] eqn:Hdup; [|done].
    intros (w1 & lit' & w2 & -> & Hw1 & Hw2 & (v & Hlit' & ->)%ascii_strtod_literal)
      %float_from_string_inner_inv.
    destruct (literal_lift _ _ _ _ _ Hw1 Hw2 Hlit' Hdup) as (lit & -> & Hlit).
    exists w1, lit, w2, v. split_and!; [done..| |done]. by apply floatvalue_literal.
  - intros (w1 & lit & w2 & v & -> & Hw1 & Hw2 & Hlit%floatvalue_literal & ->).
    destruct (literal_lower _ _ _ _ Hw1 Hw2 Hlit) as (lit' & Hlit' & ->).
    rewrite float_from_string_inner_spaces by done.
    destruct (plain_literal_inner _ _ Hlit') as [Hin Hne].
    rewrite float_from_string_inner_trimmed; [|done|].
    + assert (ascii_strtod lit' = Some (to_float v, [])) as ->; [|done].
      apply ascii_strtod_literal. by exists v.
    + eapply Forall_impl; [done|]. by intros ? [? _].
Qed.

Local Abbreviation norm :=
  (fun c : ascii => if nat_of_ascii c <? 127 then c else " "%char).
Local Abbreviation good c := (nat_of_ascii c < 127 ∨ Str.isspace c = true).
Local Abbreviation nojunk c := (c%char ≠ "?"%char ∧ nat_of_ascii c%char ≠ 127).

Lemma whitespace_spec c :
  whitespace c ↔ good c ∧ Py_ISSPACE (norm c) = true.
Proof.
  assert (bool_decide (whitespace c)
          = bool_decide (good c) && Py_ISSPACE (norm c)) as H.
  { by destruct c as [[] [] [] [] [] [] [] []]. }
  by rewrite <-(bool_decide_eq_true (whitespace c)), H, andb_true_iff, bool_decide_eq_true.
Qed.

Lemma space_nojunk c : Py_ISSPACE c = true → nojunk c ∧ nat_of_ascii c < 127.
Proof.
  destruct c as [[] [] [] [] [] [] [] []]; intros H; vm_compute in H; try discriminate H;
    (split_and!; [done | vm_compute; lia..]).
Qed.

Lemma transform_good s : Forall (fun c => good c) s → transform s = norm <$> s.
Proof.
  induction 1 as [|c s Hc _ IH]; [done|]. simpl.
  destruct (nat_of_ascii c <? 127) eqn:Hn; [by rewrite IH|].
  apply Nat.ltb_ge in Hn. destruct Hc as [?|Hc]; [lia|]. by rewrite Hc, IH.
Qed.

Lemma transform_nojunk s :
  Forall (fun c => nojunk c) (transform s) → Forall (fun c => good c) s.
Proof.
  induction s as [|c s IH]; [done|]. simpl.
  destruct (nat_of_ascii c <? 127) eqn:Hn.
  - intros [_ ?]%Forall_cons. apply Nat.ltb_lt in Hn. constructor; [by left | by apply IH].
  - destruct (Str.isspace c) eqn:Hc.
    + intros [_ ?]%Forall_cons. constructor; [by right | by apply IH].
    + by intros [[? _] _]%Forall_cons.
Qed.

Lemma ascii_nojunk s :
  IS_ASCII s = true → Forall (fun c => nojunk c) s →
  Forall (fun c => good c) s ∧ s = norm <$> s.
Proof.
  unfold IS_ASCII. intros Ha Hs. induction Hs as [|c s [_ Hc] _ IH]; [done|].
  simpl in Ha. apply andb_true_iff in Ha as [Hn%Nat.ltb_lt Ha].
  destruct (IH Ha) as [Hg Hs]. split; [constructor; [left; lia | done]|].
  rewrite fmap_cons, <-Hs. by rewrite (proj2 (Nat.ltb_lt _ _)) by lia.
Qed.

Lemma ascii_good s :
  IS_ASCII s = true → Forall (fun c => good c) s → s = norm <$> s.
Proof.
  unfold IS_ASCII. intros Ha Hs. induction Hs as [|c s Hc _ IH]; [done|].
  simpl in Ha. apply andb_true_iff in Ha as [Hn%Nat.ltb_lt Ha].
  rewrite fmap_cons, <-(IH Ha). destruct (nat_of_ascii c <? 127) eqn:Hc'; [done|].
  apply Nat.ltb_ge in Hc'. destruct Hc as [?|Hc]; [lia|].
  assert (nat_of_ascii c = 127) as Hdel by lia.
  apply (f_equal ascii_of_nat) in Hdel. rewrite ascii_nat_embedding in Hdel. by subst c.
Qed.

(** What [float] and [int] make of a string before they read it. *)
Lemma Transform_good s :
  Forall (fun c => good c) s → TransformDecimalAndSpaceToASCII s = norm <$> s.
Proof.
  intros Hs. unfold TransformDecimalAndSpaceToASCII.
  destruct (IS_ASCII s) eqn:Ha; [by apply ascii_good | by apply transform_good].
Qed.

Lemma Transform_nojunk s :
  Forall (fun c => nojunk c) (TransformDecimalAndSpaceToASCII s) →
  Forall (fun c => good c) s.
Proof.
  unfold TransformDecimalAndSpaceToASCII. destruct (IS_ASCII s) eqn:Ha.
  - intros Hs. by apply ascii_nojunk.
  - apply transform_nojunk.
Qed.

Lemma norm_inner s :
  Forall (fun c => Py_ISSPACE (norm c) = false) s → norm <$> s = s.
Proof.
  induction 1 as [|c s Hc _ IH]; [done|]. rewrite fmap_cons, IH. f_equal.
  by destruct (nat_of_ascii c <? 127).
Qed.

(** [float] accepts exactly the strings that write a number, and returns
    the float of the number. *)
Lemma float_valid (s : string) x :
  PyFloat.float s = Return x ↔ ∃ v, valid_number s v ∧ x = to_float v.
Proof.
  change (PyFloat.float s)
    with (float_of_ascii (TransformDecimalAndSpaceToASCII (String.list_ascii_of_string s))).
  unfold valid_number. generalize (String.list_ascii_of_string s). clear s. intros s.
  rewrite float_of_ascii_valid. split.
  - intros (w1 & lit & w2 & v & Hs & Hw1 & Hw2 & Hlit & ->).
    destruct (grammar_literal_inner lit v) as [Hin _]; [by apply floatvalue_literal|].
    assert (Forall (fun c => good c) s) as Hgood.
    { apply Transform_nojunk. rewrite Hs, !Forall_app. split_and!.
      - eapply Forall_impl; [done|]. intros c Hc. by destruct (space_nojunk c Hc).
      - eapply Forall_impl; [done|]. intros c (_ & ? & ?). split; [done | lia].
      - eapply Forall_impl; [done|]. intros c Hc. by destruct (space_nojunk c Hc). }
    rewrite Transform_good in Hs by done.
    apply fmap_app_inv in Hs as (a & bc & -> & Hbc & ->).
    symmetry in Hbc. apply fmap_app_inv in Hbc as (b & c & Hb & -> & ->).
    apply Forall_app in Hgood as [Hga [Hgb Hgc]%Forall_app].
    assert (b = lit) as ->.
    { rewrite Hb. symmetry. apply norm_inner.
      assert (Forall (fun c => Py_ISSPACE c = false) (norm <$> b)) as Hb'.
      { rewrite <-Hb. eapply Forall_impl; [done|]. by intros ? [? _]. }
      by apply Forall_fmap in Hb'. }
    exists v. split; [|done]. exists a, lit, c. split_and!; [done| | |done].
    + apply Forall_fmap in Hw1. apply Forall_lookup. intros i c0 Hi.
      apply whitespace_spec. split.
      * by apply (proj1 (Forall_lookup _ _) Hga i).
      * by apply (proj1 (Forall_lookup _ _) Hw1 i).
    + apply Forall_fmap in Hw2. apply Forall_lookup. intros i c0 Hi.
      apply whitespace_spec. split.
      * by apply (proj1 (Forall_lookup _ _) Hgc i).
      * by apply (proj1 (Forall_lookup _ _) Hw2 i).
  - intros (v & (w1 & lit & w2 & -> & Hw1 & Hw2 & Hlit) & ->).
    destruct (grammar_literal_inner lit v) as [Hin _]; [by apply floatvalue_literal|].
    rewrite Transform_good.
    + rewrite !fmap_app. exists (norm <$> w1), lit, (norm <$> w2), v.
      split_and!; [| | |done..].
      * do 2 f_equal. apply norm_inner. eapply Forall_impl; [done|].
        intros c (Hc & Hn & _). by rewrite (proj2 (Nat.ltb_lt _ _) Hn).
      * apply Forall_fmap. eapply Forall_impl; [done|]. by intros c [_ ?]%whitespace_spec.
      * apply Forall_fmap. eapply Forall_impl; [done|]. by intros c [_ ?]%whitespace_spec.
    + rewrite !Forall_app. split_and!.
      * eapply Forall_impl; [done|]. by intros c [? _]%whitespace_spec.
      * eapply Forall_impl; [done|]. intros c (_ & ? & _). by left.
      * eapply Forall_impl; [done|]. by intros c [? _]%whitespace_spec.
Qed.

(** No character of a literal is white space. *)
Lemma floatvalue_no_whitespace lit v :
  floatvalue lit v → Forall (fun c => ¬ whitespace c) lit ∧ lit ≠ [].
Proof.
  intros Hlit%floatvalue_literal. destruct (grammar_literal_inner _ _ Hlit) as [Hin Hne].
  split; [|done]. eapply Forall_impl; [done|].
  intros c (Hc & Hn & _) [_ Hw]%whitespace_spec.
  rewrite (proj2 (Nat.ltb_lt _ _) Hn) in Hw. congruence.
Qed.

End spaces.

(** *** The cells [parse_data] accepts *)

Lemma float_outcome (s : string) :
  match PyFloat.float s with
  | Return x => ∃ v, Grammar.valid_number s v ∧ x = Grammar.to_float v
  | Raise e => e = ValueError ∧ ¬ ∃ v, Grammar.valid_number s v
  end.
Proof.
  destruct (PyFloat.float s) as [x|e] eqn:Hs.
  - by apply float_valid.
  - split; [by eapply float_Raise|]. intros [v Hv].
    assert (PyFloat.float s = Return (Grammar.to_float v)) as Hs'
      by (apply float_valid; eauto).
    congruence.
Qed.

Lemma float_numeric (val : string) :
  (∃ x, PyFloat.float (Str.replace val "," ".") = Return x) ↔ numeric val.
Proof.
  unfold numeric. pose proof (float_outcome (Str.replace val "," ".")) as H.
  destruct (PyFloat.float _) as [x|e].
  - destruct H as (v & Hv & _). split; eauto.
  - destruct H as [_ H]. split; [by intros [? ?] | done].
Qed.

Lemma float_refuses (val : string) :
  PyFloat.float (Str.replace val "," ".") = Raise ValueError ↔ ¬ numeric val.
Proof.
  rewrite <-float_numeric. destruct (PyFloat.float _) as [x|e] eqn:Hs.
  - split; [done|]. intros []. eauto.
  - rewrite (float_Raise _ _ Hs). split; [by intros _ [? ?] | done].
Qed.

(** C4: [parse_data] returns, cell by cell, the float of the number the
    cell writes once every [","] of it is a ["."], and raises [ValueError]
    (the specification's NumberFormatError) exactly when some cell does not
    write a number then, where the numbers are those of the grammar of the
    library reference.  The cells ["1,5"] and ["1.5"] give the same float,
    whose value is 3/2, and ["3,14"] gives the double nearest to 314/100;
    a whole number, an exponent, an underscore between digits and white
    space around the number are read as the grammar says. *)
Theorem parse_data_spec (cells : list (list string)) (self : CSV) :
  (∀ floats, result (parse_data cells) self = Return floats ↔
     Forall2 (Forall2 (fun val x =>
                ∃ v, Grammar.valid_number (Str.replace val "," ".") v ∧
                     x = Grammar.to_float v))
             cells floats) ∧
  (∀ e, result (parse_data cells) self = Raise e ↔
     e = ValueError ∧ ∃ row val, row ∈ cells ∧ val ∈ row ∧ ¬ numeric val) ∧
  (∀ val, String.list_ascii_of_string (Str.replace val "," ".")
          = comma_to_point <$> String.list_ascii_of_string val) ∧
  (∃ x, result (parse_data [["1,5"; "1.5"]]) self = Return [[x; x]] ∧
        is_exactly 3 2 x = true) ∧
  (∃ x, result (parse_data [["3,14"]]) self = Return [[x]] ∧
        is_nearest 314 100 x = true) ∧
  (∃ x, result (parse_data [["1000"; "1e3"; " 1_000 "; "+1000,0"]]) self
        = Return [[x; x; x; x]] ∧
        is_exactly 1000 1 x = true) ∧
  (∃ x, result (parse_data [["-2,5E-1"]]) self = Return [[x]] ∧
        is_exactly (-1) 4 x = true).
Proof.
  unfold result. rewrite !parse_data_unfold. simpl.
  set (f := fun val => PyFloat.float (Str.replace val "," ".")).
  assert (∀ e, mapM (mapM f) cells = Raise e →
    e = ValueError ∧ ∃ row val, row ∈ cells ∧ val ∈ row ∧ f val = Raise ValueError)
    as Hraise.
  { intros e (l1 & row & l2 & -> & _ & Hrow)%mapM_Raise.
    apply mapM_Raise in Hrow as (r1 & val & r2 & -> & _ & Hval).
    pose proof (float_Raise _ _ Hval) as ->. split; [done|].
    exists (r1 ++ val :: r2), val.
    split_and!; [apply elem_of_app; right; by left.. | done]. }
  split_and!.
  - intros floats. rewrite mapM_Return.
    split; intros H; eapply Forall2_impl; eauto; intros row r.
    + intros Hr%mapM_Return. eapply Forall2_impl; [done|].
      intros val x. apply float_valid.
    + intros Hr. apply mapM_Return. eapply Forall2_impl; [done|].
      intros val x. apply float_valid.
  - intros e. split.
    + intros (-> & row & val & ? & ? & Hval%float_refuses)%Hraise. eauto 10.
    + intros (-> & row & val & [i Hi]%list_elem_of_lookup & [j Hj]%list_elem_of_lookup
              & Hval%float_refuses).
      destruct (mapM (mapM f) cells) as [floats|e] eqn:Hcells.
      * apply mapM_Return in Hcells.
        destruct (Forall2_lookup_l _ _ _ _ _ Hcells Hi) as (r & _ & Hr%mapM_Return).
        destruct (Forall2_lookup_l _ _ _ _ _ Hr Hj) as (x & _ & Hx).
        subst f. simpl in Hx. congruence.
      * by destruct (Hraise _ eq_refl) as [-> _].
  - apply replace_comma.
  - eexists. split; [vm_compute; reflexivity | by vm_compute].
  - eexists. split; [vm_compute; reflexivity | by vm_compute].
  - eexists. split; [vm_compute; reflexivity | by vm_compute].
  - eexists. split; [vm_compute; reflexivity | by vm_compute].
Qed.

(** C10: [parse_data] replaces every [","] of a cell, so a comma used as a
    thousands separator becomes a decimal point: ["1,000"] parses to the
    float 1.0, not to one thousand, and ["1,000,5"], which has two points
    after the replacement, is refused. *)
Theorem parse_data_replaces_every_comma (self : CSV) :
  (∀ val, String.list_ascii_of_string (Str.replace val "," ".")
          = comma_to_point <$> String.list_ascii_of_string val) ∧
  (∃ x, result (parse_data [["1,000"]]) self = Return [[x]] ∧
        is_exactly 1 1 x = true ∧ is_exactly 1000 1 x = false) ∧
  Str.replace "1,000,5" "," "." = "1.000.5" ∧
  result (parse_data [["1,000,5"]]) self = Raise ValueError.
Proof.
  split_and!.
  - apply replace_comma.
  - eexists. split_and!; [vm_compute; reflexivity | by vm_compute..].
  - reflexivity.
  - by vm_compute.
Qed.

(** ** The test suite *)

Module TestSuite.
Import Tests.

Example test_basic_default :
  __init__ csv_default "," true true = Return default ∧
  result get_row_titles default = Return (Some ["col1"; "col2"; "col3"]) ∧
  result get_col_titles default = Return (Some ["default1"; "default2"; "default3"]) ∧
  result get_data_per_row_without_titles default
    = Return [["1"; "2"; "3"]; ["4"; "5"; "6"]; ["7"; "8"; "9"]] ∧
  result get_data_per_col_without_titles default
    = Return [["1"; "4"; "7"]; ["2"; "5"; "8"]; ["3"; "6"; "9"]].
Proof. by split_and!. Qed.

Example test_basic_no_titles :
  __init__ csv_no_titles "," false false = Return no_titles ∧
  result get_row_titles no_titles = Return None ∧
  result get_col_titles no_titles = Return None ∧
  result get_data_per_row_without_titles no_titles
    = Return [["1"; "2"; "3"]; ["4"; "5"; "6"]; ["7"; "8"; "9"]] ∧
  result get_data_per_col_without_titles no_titles
    = Return [["1"; "4"; "7"]; ["2"; "5"; "8"]; ["3"; "6"; "9"]].
Proof. by split_and!. Qed.

Example test_basic_col_titles :
  __init__ csv_only_col_titles "," false true = Return col_only ∧
  result get_row_titles col_only = Return None ∧
  result get_col_titles col_only = Return (Some ["col_only1"; "col_only2"; "col_only3"]) ∧
  result get_data_per_row_without_titles col_only
    = Return [["1"; "2"; "3"]; ["4"; "5"; "6"]; ["7"; "8"; "9"]] ∧
  result get_data_per_col_without_titles col_only
    = Return [["1"; "4"; "7"]; ["2"; "5"; "8"]; ["3"; "6"; "9"]].
Proof. by split_and!. Qed.

Example test_basic_row_titles :
  __init__ csv_only_row_titles "," true false = Return row_only ∧
  result get_row_titles row_only = Return (Some ["row_only1"; "row_only2"; "row_only3"]) ∧
  result get_col_titles row_only = Return None ∧
  result get_data_per_row_without_titles row_only
    = Return [["1"; "2"; "3"]; ["4"; "5"; "6"]; ["7"; "8"; "9"]] ∧
  result get_data_per_col_without_titles row_only
    = Return [["1"; "4"; "7"]; ["2"; "5"; "8"]; ["3"; "6"; "9"]].
Proof. by split_and!. Qed.

Example test_all_are_the_same_length :
  all_are_the_same_length [[1; 1; 1; 1]; [2; 2; 2; 2]; [3; 3; 3; 3]] = true ∧
  all_are_the_same_length [[1; 1; 1]; [2; 2; 2; 2]; [3; 3; 3; 3]] = false ∧
  all_are_the_same_length [[1; 1; 1; 1]; [2; 2; 2]; [3; 3; 3; 3]] = false ∧
  all_are_the_same_length [[1; 1; 1; 1]; [2; 2; 2; 2]; [3; 3; 3; 3; 3]] = false.
Proof. by split_and!. Qed.

Example test_parse_data :
  result (parse_data [["1"; "2"; "3"]; ["4"; "5"; "6"]; ["7"; "8"; "9"]]) default
  = Return (map (map whole)
              [[1; 2; 3]; [4; 5; 6]; [7; 8; 9]]%Z).
Proof. by vm_compute. Qed.

Example test_to_df_with_default :
  result to_df default
  = Return {| df_data := map (map whole)
                           [[1; 2; 3]; [4; 5; 6]; [7; 8; 9]]%Z;
              df_index := Some ["col1"; "col2"; "col3"];
              df_columns := Some ["default1"; "default2"; "default3"] |}.
Proof. by vm_compute. Qed.

Example scenario_both_titles :
  ∃ self, init_grid scenario_rows "," true true = Return self ∧
    result to_df self
    = Return {| df_data := map (map whole)
                             [[1; 2]; [3; 4]]%Z;
                df_index := Some ["r1"; "r2"];
                df_columns := Some ["c1"; "c2"] |}.
Proof. eexists. split; [reflexivity | by vm_compute]. Qed.

End TestSuite.

(** ** The claims at the instances of the test suite *)

Lemma data_without_titles_rule_witness :
  result get_data_per_row_without_titles Tests.default
  = Return [["1"; "2"; "3"]; ["4"; "5"; "6"]; ["7"; "8"; "9"]].
Proof.
  apply (data_without_titles_rule Tests.default_rows "," true true Tests.default).
  reflexivity.
Defined.

Lemma data_rows_transposed_witness :
  ∃ data_rows data_cols,
    result get_data_per_row_without_titles Tests.default = Return data_rows ∧
    result get_data_per_col_without_titles Tests.default = Return data_cols ∧
    transpose data_rows = Return data_cols.
Proof.
  apply (data_rows_transposed Tests.default_rows "," true true Tests.default).
  - reflexivity.
  - intros _. simpl. lia.
Defined.

(** C3 as stated fails on a grid of a single row that has column titles: no
    data row is left, and an empty grid has no transpose, whereas the
    column view still has one (empty) column per cell of the title row.
    The column view is not a function of the row view there: a title row
    of one cell has the same row view and another column view. *)
Lemma data_rows_transposed_counterexample :
  __init__ ["a,b"] "," false true = Return Tests.header_only ∧
  init_grid [["a"; "b"]] "," false true = Return Tests.header_only ∧
  result get_data_per_row_without_titles Tests.header_only = Return [] ∧
  result get_data_per_col_without_titles Tests.header_only = Return [[]; []] ∧
  transpose (@nil (list string)) ≠ Return [[]; []] ∧
  init_grid [["a"]] "," false true = Return Tests.header_only_narrow ∧
  result get_data_per_row_without_titles Tests.header_only_narrow = Return [] ∧
  result get_data_per_col_without_titles Tests.header_only_narrow = Return [[]].
Proof. by split_and!. Qed.

Lemma get_row_titles_spec_witness :
  ∃ titles, result get_row_titles Tests.default = Return (Some titles) ∧
    Forall2 (fun row title => head row = Some title) (drop 1 Tests.default_rows) titles.
Proof.
  apply (get_row_titles_spec Tests.default_rows "," true true Tests.default).
  reflexivity.
Defined.

Lemma get_col_titles_spec_witness :
  ∃ cs, transpose Tests.col_only_rows = Return cs ∧
  ∃ titles, result get_col_titles Tests.col_only = Return (Some titles) ∧
    Forall2 (fun col title => head col = Some title)
            (filter (fun col => col ≠ []) cs) titles ∧
    filter (fun col => col ≠ []) cs = cs.
Proof.
  apply (get_col_titles_spec Tests.col_only_rows "," false true Tests.col_only).
  reflexivity.
Defined.

Lemma titles_count_data_witness :
  ∃ row_titles col_titles data_rows data_cols,
    result get_row_titles Tests.default = Return row_titles ∧
    result get_col_titles Tests.default = Return col_titles ∧
    result get_data_per_row_without_titles Tests.default = Return data_rows ∧
    result get_data_per_col_without_titles Tests.default = Return data_cols ∧
    length (default [] row_titles) = length data_rows ∧
    length (default [] col_titles) = length data_cols ∧
    Forall (fun row => length row = length data_cols) data_rows.
Proof.
  apply (titles_count_data Tests.default_rows "," true true Tests.default).
  reflexivity.
Defined.

(** C7 as stated fails on the grid without titles of the test suite: the
    titles are [None], of length 0 as an empty sequence, and there are
    three data rows and three data columns. *)
Lemma titles_count_data_counterexample :
  init_grid Tests.no_titles_rows "," false false = Return Tests.no_titles ∧
  ∃ row_titles col_titles data_rows data_cols,
    result get_row_titles Tests.no_titles = Return row_titles ∧
    result get_col_titles Tests.no_titles = Return col_titles ∧
    result get_data_per_row_without_titles Tests.no_titles = Return data_rows ∧
    result get_data_per_col_without_titles Tests.no_titles = Return data_cols ∧
    length (default [] row_titles) ≠ length data_rows ∧
    length (default [] col_titles) ≠ length data_cols.
Proof.
  split; [done|]. eexists _, _, _, _. split_and!; [reflexivity.. | |]; simpl; lia.
Qed.

Lemma operations_leave_instance_witness :
  instance_after to_df Tests.default = Tests.default ∧
  result to_df (instance_after get_row_titles Tests.default)
  = result to_df Tests.default.
Proof.
  destruct (operations_leave_instance to_df Tests.default op_to_df)
    as (Hself & _ & Hresult).
  split; [exact Hself | exact (Hresult _ get_row_titles op_get_row_titles)].
Defined.

(** * Further properties *)

(** ** Strings *)

Lemma str_app_cons c (s1 s2 : string) : String c s1 +:+ s2 = String c (s1 +:+ s2).
Proof. done. Qed.

Lemma str_app_nil_l (s : string) : "" +:+ s = s.
Proof. done. Qed.

Lemma str_app_nil_r (s : string) : s +:+ "" = s.
Proof. induction s as [|c s IH]; [done|]. by rewrite str_app_cons, IH. Qed.

Lemma str_app_assoc (s1 s2 s3 : string) : (s1 +:+ s2) +:+ s3 = s1 +:+ s2 +:+ s3.
Proof. induction s1 as [|c s1 IH]; [done|]. by rewrite !str_app_cons, IH. Qed.

Lemma str_length_app (s1 s2 : string) :
  String.length (s1 +:+ s2) = String.length s1 + String.length s2.
Proof. induction s1 as [|c s1 IH]; [done|]. rewrite str_app_cons. simpl. by rewrite IH. Qed.

Lemma prefix_app (p s : string) : String.prefix p s = true ↔ ∃ r, s = p +:+ r.
Proof.
  revert p. induction s as [|c s IH]; intros [|a p]; simpl.
  - split; [by exists "" | done].
  - split; [done | by intros [r ?]].
  - split; [by eexists | done].
  - destruct (ascii_dec a c) as [->|Hne].
    + rewrite IH. split; intros [r Hr]; exists r.
      * by rewrite str_app_cons, <-Hr.
      * rewrite str_app_cons in Hr. congruence.
    + split; [done|]. intros [r Hr]. rewrite str_app_cons in Hr. congruence.
Qed.

Lemma str_drop_app (p r : string) : str_drop (String.length p) (p +:+ r) = r.
Proof. induction p as [|c p IH]; [by destruct r|]. by rewrite str_app_cons. Qed.

(** ** Splitting a line *)

Lemma join_cons_cons sep p q rest :
  Str.join sep (p :: q :: rest) = p +:+ sep +:+ Str.join sep (q :: rest).
Proof. done. Qed.

Lemma join_head_cons sep c h t :
  Str.join sep (String c h :: t) = String c (Str.join sep (h :: t)).
Proof. by destruct t. Qed.

(** The first piece starts the pieces joined. *)
Lemma join_head sep h t : ∃ w, Str.join sep (h :: t) = h +:+ w.
Proof.
  destruct t as [|q rest]; [exists ""; by rewrite str_app_nil_r|].
  eexists. apply join_cons_cons.
Qed.

(** Joining the pieces with the separator gives back what was split. *)
Lemma split_pieces_join sep skip s h t :
  sep ≠ "" → Str.split_pieces sep skip s = (h, t) →
  Str.join sep (h :: t) = str_drop skip s.
Proof.
  intros Hsep. revert skip h t.
  induction s as [|c s IH]; intros skip h t; cbn [Str.split_pieces].
  - intros [= <- <-]. by destruct skip.
  - destruct skip as [|k]; [|by apply IH].
    destruct (String.prefix sep (String c s)) eqn:Hpre.
    + destruct (Str.split_pieces sep (String.length sep - 1) s) as [h2 t2] eqn:Hs.
      intros [= <- <-]. rewrite join_cons_cons, str_app_nil_l, (IH _ _ _ Hs).
      apply prefix_app in Hpre as [r Hr]. destruct sep as [|a sep']; [done|].
      rewrite str_app_cons in Hr. injection Hr as -> ->.
      simpl. by rewrite Nat.sub_0_r, str_drop_app.
    + destruct (Str.split_pieces sep 0 s) as [h2 t2] eqn:Hs.
      intros [= <- <-]. by rewrite join_head_cons, (IH _ _ _ Hs).
Qed.

Lemma occurs_nil sep : sep ≠ "" → ¬ occurs sep "".
Proof.
  intros Hsep (u & v & Huv). apply (f_equal String.length) in Huv.
  rewrite !str_length_app in Huv. destruct sep; [done | simpl in Huv; lia].
Qed.

(** No piece holds the separator. *)
Lemma split_pieces_no_sep sep skip s h t :
  sep ≠ "" → Str.split_pieces sep skip s = (h, t) →
  Forall (fun piece => ¬ occurs sep piece) (h :: t).
Proof.
  intros Hsep. revert skip h t.
  induction s as [|c s IH]; intros skip h t; cbn [Str.split_pieces].
  - intros [= <- <-]. constructor; [by apply occurs_nil | done].
  - destruct skip as [|k]; [|by apply IH].
    destruct (String.prefix sep (String c s)) eqn:Hpre.
    + destruct (Str.split_pieces sep (String.length sep - 1) s) as [h2 t2] eqn:Hs.
      intros [= <- <-]. constructor; [by apply occurs_nil | by eapply IH].
    + destruct (Str.split_pieces sep 0 s) as [h2 t2] eqn:Hs.
      intros [= <- <-]. pose proof (IH _ _ _ Hs) as Hall.
      apply Forall_cons_1 in Hall as [Hh2 Ht2]. constructor; [|done].
      intros ([|a u] & v & Huv).
      * rewrite str_app_nil_l in Huv.
        destruct (join_head sep h2 t2) as [w Hw].
        rewrite (split_pieces_join _ _ _ _ _ Hsep Hs) in Hw. simpl in Hw.
        assert (String.prefix sep (String c s) = true) as Hpre'; [|congruence].
        apply prefix_app. exists (v +:+ w).
        by rewrite Hw, <-str_app_cons, Huv, str_app_assoc.
      * rewrite str_app_cons in Huv. injection Huv as -> Huv.
        apply Hh2. by exists u, v.
Qed.

Lemma split_Return s sep row :
  Str.split s sep = Return row ↔
  sep ≠ "" ∧ ∃ h t, row = h :: t ∧ Str.split_pieces sep 0 s = (h, t).
Proof.
  unfold Str.split. destruct sep as [|a sep'].
  - split; [done | by intros [? _]].
  - destruct (Str.split_pieces (String a sep') 0 s) as [h t]. split.
    + intros [= <-]. split; [done|]. by exists h, t.
    + by intros (_ & h' & t' & -> & [= <- <-]).
Qed.

Lemma split_Raise s sep e : Str.split s sep = Raise e ↔ e = ValueError ∧ sep = "".
Proof.
  unfold Str.split. destruct sep as [|a sep'].
  - split; [by intros [= <-] | by intros [-> _]].
  - destruct (Str.split_pieces (String a sep') 0 s). split; [done | by intros [_ ?]].
Qed.

(** ** Construction from the lines of a file *)

Lemma read_rows_Return lines sep grid :
  read_rows lines sep = Return grid ↔
  Forall2 (fun line row => Str.split (Str.strip line) sep = Return row) lines grid.
Proof. apply mapM_Return. Qed.

(** With a separator every line splits, into at least one cell. *)
Lemma read_rows_total lines sep :
  sep ≠ "" →
  ∃ grid, read_rows lines sep = Return grid ∧ Forall (fun row => row ≠ []) grid.
Proof.
  intros Hsep.
  assert (∀ line, ∃ h t, Str.split (Str.strip line) sep = Return (h :: t)) as Hsplit.
  { intros line. destruct (Str.split_pieces sep 0 (Str.strip line)) as [h t] eqn:Hp.
    exists h, t. apply split_Return. split; [done|]. by exists h, t. }
  destruct (mapM_total (fun line => Str.split (Str.strip line) sep) lines) as [grid Hgrid].
  { apply Forall_forall. intros line _. destruct (Hsplit line) as (h & t & ->). by eexists. }
  exists grid. split; [done|]. apply read_rows_Return in Hgrid.
  apply (Forall2_Forall_r _ _ _ _ Hgrid), Forall_forall.
  intros line _ row Hrow. destruct (Hsplit line) as (h & t & Hht). congruence.
Qed.

(** Without one the first line already fails. *)
Lemma read_rows_no_separator lines :
  read_rows lines "" = if lines is [] then Return [] else Raise ValueError.
Proof. by destruct lines. Qed.

(** What [__init__] does once the rows are there. *)
Lemma init_grid_cases grid sep rt ct :
  match init_grid grid sep rt ct with
  | Return self => rows self = grid ∧ grid ≠ [] ∧ ¬ ragged grid
  | Raise AssertionError => ragged grid
  | Raise IndexError => grid = [] ∨ head grid = Some []
  | Raise ValueError => False
  end.
Proof.
  destruct (all_are_the_same_length grid) eqn:Hsame.
  - destruct grid as [|row0 grid'] eqn:Hgrid; [by left|].
    destruct row0 as [|cell0 row0'] eqn:Hrow0.
    + unfold init_grid. rewrite Hsame. simpl. by right.
    + rewrite <-Hrow0, <-Hgrid in *.
      destruct (init_grid_total grid sep rt ct row0) as [self Hself].
      * by rewrite Hgrid.
      * rewrite Hrow0. simpl. lia.
      * apply all_are_the_same_length_true; [done | by rewrite Hgrid].
      * rewrite Hself. apply init_grid_Return in Hself as (? & _).
        split_and!; [done | by rewrite Hgrid |].
        by rewrite <-all_are_the_same_length_false, Hsame.
  - unfold init_grid. rewrite Hsame. simpl. by apply all_are_the_same_length_false.
Qed.

Lemma ragged_nil {A} : ¬ ragged (@nil (list A)).
Proof. by intros (? & ? & ? & _). Qed.

Lemma init_cases lines sep rt ct :
  match __init__ lines sep rt ct with
  | Return self =>
      lines ≠ [] ∧ read_rows lines sep = Return (rows self) ∧ ¬ ragged (rows self)
  | Raise IndexError => lines = []
  | Raise ValueError => lines ≠ [] ∧ sep = ""
  | Raise AssertionError => ∃ grid, read_rows lines sep = Return grid ∧ ragged grid
  end.
Proof.
  unfold __init__. destruct (decide (sep = "")) as [->|Hsep].
  { rewrite read_rows_no_separator. by destruct lines. }
  destruct (read_rows_total lines sep Hsep) as (grid & Hgrid & Hne).
  rewrite Hgrid. simpl. pose proof (init_grid_cases grid sep rt ct) as Hcases.
  pose proof (Forall2_length _ _ _ (proj1 (read_rows_Return _ _ _) Hgrid)) as Hlen.
  destruct (init_grid grid sep rt ct) as [self|[]].
  - destruct Hcases as (-> & Hnil & Hrag). split_and!; [|done..].
    intros ->. by apply Hnil, nil_length_inv.
  - by exists grid.
  - destruct Hcases as [-> | Hhd].
    + by apply nil_length_inv.
    + rewrite head_lookup in Hhd. by destruct (proj1 (Forall_lookup _ _) Hne _ _ Hhd).
  - done.
Qed.

(** X1: how construction from the lines of a file ends.  It raises
    [IndexError] exactly for a file without lines, [ValueError] exactly for
    an empty separator and a file with a line, and [AssertionError] exactly
    when the lines split into rows of differing numbers of cells; in every
    other case it returns an instance, whose rows are the split lines. *)
Theorem init_outcome lines sep rt ct :
  (__init__ lines sep rt ct = Raise IndexError ↔ lines = []) ∧
  (__init__ lines sep rt ct = Raise ValueError ↔ lines ≠ [] ∧ sep = "") ∧
  (__init__ lines sep rt ct = Raise AssertionError ↔
     ∃ grid, read_rows lines sep = Return grid ∧ ragged grid) ∧
  ((∃ self, __init__ lines sep rt ct = Return self) ↔
     lines ≠ [] ∧ ∃ grid, read_rows lines sep = Return grid ∧ ¬ ragged grid) ∧
  (∀ self, __init__ lines sep rt ct = Return self →
     read_rows lines sep = Return (rows self)).
Proof.
  pose proof (init_cases lines sep rt ct) as Hcases.
  assert (lines = [] → read_rows lines sep = Return []) as Hnil by (by intros ->).
  assert (lines ≠ [] → sep = "" → read_rows lines sep = Raise ValueError) as Hval.
  { intros Hl ->. rewrite read_rows_no_separator. by destruct lines. }
  destruct (__init__ lines sep rt ct) as [self|[]].
  - destruct Hcases as (Hl & Hread & Hrag). split_and!.
    + split; [done | by intros ->].
    + split; [done|]. intros [_ ->]. by rewrite Hval in Hread.
    + split; [done|]. intros (g & Hg & ?). congruence.
    + split; [by eauto | by eauto].
    + by intros ? [= <-].
  - destruct Hcases as (g & Hg & Hrag). split_and!.
    + split; [done|]. intros Hl. rewrite (Hnil Hl) in Hg. injection Hg as <-.
      by destruct (ragged_nil Hrag).
    + split; [done|]. intros [Hl ->]. by rewrite (Hval Hl) in Hg.
    + split; [by eauto | done].
    + split; [by intros [? ?]|]. intros (_ & g' & Hg' & ?). congruence.
    + done.
  - split_and!.
    + done.
    + split; [done | by intros [? _]].
    + split; [done|]. intros (g & Hg & Hrag). rewrite (Hnil Hcases) in Hg.
      injection Hg as <-. by destruct (ragged_nil Hrag).
    + split; [by intros [? ?] | by intros [? _]].
    + done.
  - destruct Hcases as [Hl ->]. split_and!.
    + split; [done | by intros ->].
    + done.
    + split; [done|]. intros (g & Hg & _). by rewrite (Hval Hl) in Hg.
    + split; [by intros [? ?]|]. intros (_ & g & Hg & _). by rewrite (Hval Hl) in Hg.
    + done.
Qed.

Lemma chars_inj (s1 s2 : string) :
  String.list_ascii_of_string s1 = String.list_ascii_of_string s2 → s1 = s2.
Proof.
  intros Heq. by rewrite <-(String.string_of_list_ascii_of_string s1), Heq,
    String.string_of_list_ascii_of_string.
Qed.

Lemma chars_app (s1 s2 : string) :
  String.list_ascii_of_string (s1 +:+ s2)
  = String.list_ascii_of_string s1 ++ String.list_ascii_of_string s2.
Proof. induction s1 as [|c s1 IH]; [done|]. rewrite str_app_cons. simpl. by rewrite IH. Qed.

(** *** White space around a line *)

Lemma chars_rev_app (s1 s2 : string) :
  String.list_ascii_of_string (String.rev_app s1 s2)
  = reverse (String.list_ascii_of_string s1) ++ String.list_ascii_of_string s2.
Proof.
  revert s2. induction s1 as [|c s1 IH]; intros s2; simpl; [done|].
  rewrite IH. simpl. by rewrite reverse_cons, <-app_assoc.
Qed.

Lemma chars_rev (s : string) :
  String.list_ascii_of_string (String.rev s) = reverse (String.list_ascii_of_string s).
Proof. unfold String.rev. by rewrite chars_rev_app, app_nil_r. Qed.

Lemma white_space_spec c : white_space c ↔ Str.isspace c = true.
Proof.
  assert (bool_decide (white_space c) = Str.isspace c) as H
    by (by destruct c as [[] [] [] [] [] [] [] []]).
  by rewrite <-H, bool_decide_eq_true.
Qed.

Lemma lstrip_chars (s : string) :
  ∃ w, String.list_ascii_of_string s = w ++ String.list_ascii_of_string (Str.lstrip s) ∧
       Forall white_space w ∧
       ∀ c, head (String.list_ascii_of_string (Str.lstrip s)) = Some c → ¬ white_space c.
Proof.
  induction s as [|c s (w & Hs & Hw & Hhead)]; simpl.
  - exists []. by split_and!; [|constructor|].
  - destruct (Str.isspace c) eqn:Hc.
    + exists (c :: w). split_and!; [by rewrite Hs | | done].
      constructor; [by apply white_space_spec | done].
    + exists []. split_and!; [done | constructor |]. simpl.
      intros ? [= <-] Hws%white_space_spec. congruence.
Qed.

(** [strip] removes white space from both ends, and all of it. *)
Lemma strip_chars (line : string) :
  ∃ w1 w2,
    String.list_ascii_of_string line
    = w1 ++ String.list_ascii_of_string (Str.strip line) ++ w2 ∧
    Forall white_space w1 ∧ Forall white_space w2 ∧ trimmed (Str.strip line).
Proof.
  unfold Str.strip, Str.rstrip, trimmed.
  destruct (lstrip_chars line) as (w1 & H1 & Hw1 & Hh1).
  destruct (lstrip_chars (String.rev (Str.lstrip line))) as (w2 & H2 & Hw2 & Hh2).
  rewrite chars_rev in H2. rewrite chars_rev.
  set (core := String.list_ascii_of_string (Str.lstrip (String.rev (Str.lstrip line)))) in *.
  assert (String.list_ascii_of_string (Str.lstrip line) = reverse core ++ reverse w2) as Ht.
  { by rewrite <-reverse_app, <-H2, reverse_involutive. }
  exists w1, (reverse w2). split_and!.
  - by rewrite H1, Ht.
  - done.
  - by apply Forall_reverse.
  - intros c [Hc | Hc].
    + apply Hh1. rewrite Ht. by destruct (reverse core).
    + apply Hh2. by rewrite last_reverse in Hc.
Qed.

(** X2: reading loses nothing but the white space around the lines: every
    line is the cells of its row, joined with the separator, with white
    space before and after it, and the joined cells neither begin nor end
    with white space. *)
Theorem rows_join_to_lines lines sep rt ct self :
  __init__ lines sep rt ct = Return self →
  Forall2 (fun line row =>
             ∃ ws1 ws2, line = ws1 +:+ Str.join sep row +:+ ws2 ∧
                        white ws1 ∧ white ws2 ∧ trimmed (Str.join sep row))
          lines (rows self).
Proof.
  intros Hinit. apply __init___Return in Hinit as (grid & Hread & Hinit).
  apply init_grid_Return in Hinit as (<- & _).
  apply read_rows_Return in Hread. eapply Forall2_impl; [done|].
  intros line row (Hsep & h & t & -> & Hp)%split_Return.
  rewrite (split_pieces_join _ _ _ _ _ Hsep Hp).
  destruct (strip_chars line) as (w1 & w2 & Hline & Hw1 & Hw2 & Htrim).
  exists (String.string_of_list_ascii w1), (String.string_of_list_ascii w2).
  unfold white. rewrite !String.list_ascii_of_string_of_list_ascii.
  split_and!; [|done..]. apply chars_inj.
  by rewrite !chars_app, !String.list_ascii_of_string_of_list_ascii.
Qed.

Lemma rows_join_to_lines_witness :
  Forall2 (fun line row =>
             ∃ ws1 ws2, line = ws1 +:+ Str.join "," row +:+ ws2 ∧
                        white ws1 ∧ white ws2 ∧ trimmed (Str.join "," row))
          Tests.csv_default (rows Tests.default).
Proof.
  apply (rows_join_to_lines Tests.csv_default "," true true Tests.default).
  reflexivity.
Defined.

(** X3: no cell of a constructed instance holds the separator. *)
Theorem cells_hold_no_separator lines sep rt ct self :
  __init__ lines sep rt ct = Return self →
  Forall (Forall (fun cell => ¬ occurs sep cell)) (rows self).
Proof.
  intros Hinit. apply __init___Return in Hinit as (grid & Hread & Hinit).
  apply init_grid_Return in Hinit as (<- & _).
  apply read_rows_Return in Hread.
  apply (Forall2_Forall_r _ _ _ _ Hread), Forall_forall.
  intros line _ row (Hsep & h & t & -> & Hp)%split_Return.
  by eapply split_pieces_no_sep.
Qed.

Lemma cells_hold_no_separator_witness :
  Forall (Forall (fun cell => ¬ occurs "," cell)) (rows Tests.default).
Proof.
  apply (cells_hold_no_separator Tests.csv_default "," true true Tests.default).
  reflexivity.
Defined.

(** ** Rows and columns of an instance *)

(** The rows are, cell by cell, what the columns hold at their index. *)
Lemma columns_of_rows {A} (g : list (list A)) n cs i row :
  columns_of g n cs → Forall (fun r => length r = n) g →
  g !! i = Some row → Forall2 (fun col x => col !! i = Some x) cs row.
Proof.
  intros [Hlen Hcol] Hg Hi. apply Forall2_same_length_lookup. split.
  - by rewrite Hlen, (proj1 (Forall_lookup _ _) Hg _ _ Hi).
  - intros j col x Hj Hx.
    destruct (Forall2_lookup_l _ _ _ _ _ (Hcol _ _ Hj) Hi) as (y & Hy & Hxy).
    congruence.
Qed.

(** X4: transposing the columns of a constructed instance gives back its
    rows, so [rows] and [cols] hold the same grid in the two orientations. *)
Theorem transpose_cols_gives_rows grid sep rt ct self :
  init_grid grid sep rt ct = Return self →
  transpose (rows self) = Return (cols self) ∧
  transpose (cols self) = Return (rows self).
Proof.
  intros (Hrows & _ & _ & _ & _ & _ & Hwf)%init_grid_Return.
  split; [apply Hwf|].
  pose proof (wf_transpose _ Hwf) as (row0 & Hhd & Hcs)%transpose_Return.
  pose proof (wf_rows _ Hwf) as Hall.
  assert (length row0 = length_of_rows self) as Hw.
  { rewrite head_lookup in Hhd. apply (proj1 (Forall_lookup _ _) Hall _ _ Hhd). }
  rewrite Hw in Hcs.
  destruct (lookup_lt_is_Some_2 (cols self) 0) as [col0 Hcol0].
  { rewrite (wf_cols_length _ Hwf). apply Hwf. }
  apply transpose_Return. exists col0. split; [by rewrite head_lookup|]. split.
  - symmetry. apply (proj1 (Forall_lookup _ _) (wf_cols _ Hwf) _ _ Hcol0).
  - intros i row Hi. by eapply columns_of_rows.
Qed.

Lemma transpose_cols_gives_rows_witness :
  transpose (rows Tests.row_only) = Return (cols Tests.row_only) ∧
  transpose (cols Tests.row_only) = Return (rows Tests.row_only).
Proof.
  apply (transpose_cols_gives_rows Tests.row_only_rows "," true false Tests.row_only).
  reflexivity.
Defined.

(** X5: the sizes an instance records.  [length_of_rows] is the number of
    cells of every row and the number of columns, [length_of_cols] is the
    number of cells of every column and the number of rows, which is the
    number of lines of the file; neither is 0. *)
Theorem recorded_lengths lines sep rt ct self :
  __init__ lines sep rt ct = Return self →
  Forall (fun row => length row = length_of_rows self) (rows self) ∧
  length (cols self) = length_of_rows self ∧
  Forall (fun col => length col = length_of_cols self) (cols self) ∧
  length (rows self) = length_of_cols self ∧
  length_of_cols self = length lines ∧
  0 < length_of_rows self ∧ 0 < length_of_cols self.
Proof.
  intros Hinit. apply __init___Return in Hinit as (grid & Hread & Hinit).
  apply read_rows_Return, Forall2_length in Hread.
  apply init_grid_Return in Hinit as (Hrows & _ & _ & _ & _ & _ & Hwf).
  rewrite (wf_length_of_cols _ Hwf).
  split_and!; try apply Hwf; [done | by rewrite Hrows].
Qed.

Lemma recorded_lengths_witness :
  Forall (fun row => length row = 3) (rows Tests.col_only) ∧
  length (cols Tests.col_only) = 3 ∧
  Forall (fun col => length col = 4) (cols Tests.col_only) ∧
  length (rows Tests.col_only) = 4 ∧
  4 = length Tests.csv_only_col_titles ∧
  0 < 3 ∧ 0 < 4.
Proof.
  apply (recorded_lengths Tests.csv_only_col_titles "," false true Tests.col_only).
  reflexivity.
Defined.

(** X6: [all_are_the_same_length] returns [True] exactly when any two items
    have the same length, hence on every iterable with at most one item. *)
Theorem all_are_the_same_length_pairwise {A} (l : list (list A)) :
  all_are_the_same_length l = true ↔
  ∀ x y, x ∈ l → y ∈ l → length x = length y.
Proof.
  rewrite all_are_the_same_length_true. split.
  - intros Hall x y Hx Hy. destruct l as [|first l]; [by apply elem_of_nil in Hx|].
    specialize (Hall _ eq_refl). rewrite Forall_forall in Hall.
    by rewrite (Hall _ Hx), (Hall _ Hy).
  - intros Hpair first Hhd. apply Forall_forall. intros item Hitem.
    apply Hpair; [done|]. apply list_elem_of_lookup. exists 0. by rewrite <-head_lookup.
Qed.

(** ** Titles, data and the grid *)

Lemma zip_heads {A} (l : list (list A)) titles :
  Forall2 (fun row title => head row = Some title) l titles →
  zip_with cons titles (drop 1 <$> l) = l.
Proof.
  induction 1 as [|row title l titles Hrow _ IH]; [done|].
  destruct row as [|x row]; simplify_eq/=. by rewrite IH.
Qed.

Lemma first_cells_unique {A} (l : list (list A)) titles1 titles2 :
  Forall2 (fun row title => head row = Some title) l titles1 →
  Forall2 (fun row title => head row = Some title) l titles2 →
  titles1 = titles2.
Proof. intros H1 H2. eapply Forall2_unique; [done..|]. simpl. congruence. Qed.

Section views.
Context (grid : list (list string)) (sep : string) (rt ct : bool) (self : CSV).
Hypothesis construction : init_grid grid sep rt ct = Return self.

(** The column titles are the first row, without its first cell when there
    are row titles too. *)
Lemma col_titles_first_row :
  ∃ row0, head grid = Some row0 ∧ 0 < length row0 ∧
    Forall (fun row => length row = length row0) grid ∧
    result get_col_titles self
    = Return (if ct then Some (if rt then drop 1 row0 else row0) else None).
Proof using construction.
  destruct (col_titles_view _ _ _ _ _ construction) as (Ht & _ & Hview).
  destruct (init_grid_Return _ _ _ _ _ construction)
    as (Hrows & _ & _ & _ & _ & _ & Hwf).
  pose proof Ht as (row0 & Hhd & Hcs)%transpose_Return.
  pose proof (wf_rows _ Hwf) as Hall. rewrite Hrows in Hall.
  assert (length row0 = length_of_rows self) as Hw.
  { rewrite head_lookup in Hhd. apply (proj1 (Forall_lookup _ _) Hall _ _ Hhd). }
  exists row0. rewrite Hw. split_and!; [done | apply Hwf | done |].
  destruct ct; [|done]. destruct Hview as (titles & -> & Htitles).
  do 2 f_equal. rewrite Hw in Hcs. rewrite head_lookup in Hhd.
  pose proof (columns_of_rows _ _ _ _ _ Hcs Hall Hhd) as Hfirst.
  assert (Forall2 (fun col title => head col = Some title) (cols self) row0) as Hrow0.
  { eapply Forall2_impl; [done|]. intros col x. by rewrite head_lookup. }
  destruct rt; eapply first_cells_unique; [done | by apply Forall2_drop | done..].
Qed.

(** [to_df] as a function of the grid. *)
Lemma to_df_view :
  ∃ row0, head grid = Some row0 ∧
    result to_df self =
      (titles ← (if rt
                 then titles ← mapM (fun row => index row 0)
                                    (if ct then drop 1 grid else grid);
                      mret (Some titles)
                 else Return None);
       data ← mapM (mapM (fun val => PyFloat.float (Str.replace val "," ".")))
                   (data_rows_rule rt ct grid);
       Return {| df_data := data;
                 df_index := titles;
                 df_columns := if ct then Some (if rt then drop 1 row0 else row0)
                               else None |}).
Proof using construction.
  destruct col_titles_first_row as (row0 & Hhd & _ & _ & Hcol).
  destruct (data_views _ _ _ _ _ construction) as (Hdr & _).
  destruct (init_grid_Return _ _ _ _ _ construction)
    as (Hrows & _ & Hrt & Hct & _).
  exists row0. split; [done|]. unfold result in *.
  unfold to_df, mbind at 1, method_bind.
  rewrite get_row_titles_unfold, Hrt, Hct, Hrows.
  destruct rt.
  - destruct (mapM _ (if ct then drop 1 grid else grid)) as [titles|e]; [|done]. simpl.
    unfold mbind at 1, method_bind.
    destruct (get_col_titles self) as [c self1] eqn:Hc. simpl in Hcol. subst c.
    rewrite get_col_titles_unfold in Hc. injection Hc as _ <-.
    unfold mbind at 1, method_bind.
    destruct (get_data_per_row_without_titles self) as [d self2] eqn:Hd.
    simpl in Hdr. subst d.
    rewrite get_data_per_row_without_titles_unfold in Hd. injection Hd as _ <-.
    unfold mbind at 1, method_bind. rewrite parse_data_unfold.
    by destruct (mapM _ (data_rows_rule true ct grid)).
  - simpl. unfold mbind at 1, method_bind.
    destruct (get_col_titles self) as [c self1] eqn:Hc. simpl in Hcol. subst c.
    rewrite get_col_titles_unfold in Hc. injection Hc as _ <-.
    unfold mbind at 1, method_bind.
    destruct (get_data_per_row_without_titles self) as [d self2] eqn:Hd.
    simpl in Hdr. subst d.
    rewrite get_data_per_row_without_titles_unfold in Hd. injection Hd as _ <-.
    unfold mbind at 1, method_bind. rewrite parse_data_unfold.
    by destruct (mapM _ (data_rows_rule false ct grid)).
Qed.

End views.

(** X7: what the getters return is the whole grid, sorted into titles and
    data: the grid is rebuilt from the row titles, the column titles and
    the data rows, and nothing but the corner cell of a grid with both
    kinds of titles is in none of them. *)
Theorem titles_and_data_rebuild_grid grid sep rt ct self :
  init_grid grid sep rt ct = Return self →
  ∃ corner row_titles col_titles data_rows,
    result get_row_titles self = Return row_titles ∧
    result get_col_titles self = Return col_titles ∧
    result get_data_per_row_without_titles self = Return data_rows ∧
    rebuild corner row_titles col_titles data_rows = grid.
Proof.
  intros construction.
  pose proof (row_titles_view _ _ _ _ _ construction) as Hrow.
  destruct (col_titles_first_row _ _ _ _ _ construction)
    as (row0 & Hhd & Hpos & _ & Hcol).
  destruct (data_views _ _ _ _ _ construction) as (Hdr & _).
  destruct row0 as [|corner r0]; [simpl in Hpos; lia|].
  destruct grid as [|r rest]; [done|]. injection Hhd as ->.
  exists corner. destruct rt, ct.
  - destruct Hrow as (titles & Hrow & Htitles).
    exists (Some titles), (Some r0), (drop 1 <$> rest). split_and!; [done..|].
    unfold rebuild. simpl. by rewrite (zip_heads rest).
  - destruct Hrow as (titles & Hrow & Htitles).
    exists (Some titles), None, (drop 1 <$> (corner :: r0) :: rest).
    split_and!; [done..|].
    unfold rebuild. by rewrite (zip_heads ((corner :: r0) :: rest)).
  - by exists None, (Some (corner :: r0)), rest.
  - by exists None, None, ((corner :: r0) :: rest).
Qed.

Lemma titles_and_data_rebuild_grid_witness :
  ∃ corner row_titles col_titles data_rows,
    result get_row_titles Tests.default = Return row_titles ∧
    result get_col_titles Tests.default = Return col_titles ∧
    result get_data_per_row_without_titles Tests.default = Return data_rows ∧
    rebuild corner row_titles col_titles data_rows = Tests.default_rows.
Proof.
  apply (titles_and_data_rebuild_grid Tests.default_rows "," true true Tests.default).
  reflexivity.
Defined.

(** ** The data frame *)

(** X8: on a constructed instance [to_df] fails only with [ValueError],
    and only because [parse_data] refuses a data cell: the getters do not
    raise and no title is parsed.  When it returns, the frame holds the
    parsed data rows, the row titles as index and the column titles as
    columns. *)
Theorem to_df_outcome grid sep rt ct self :
  init_grid grid sep rt ct = Return self →
  ∃ row_titles col_titles,
    result get_row_titles self = Return row_titles ∧
    result get_col_titles self = Return col_titles ∧
    result to_df self =
      (data ← result (parse_data (data_rows_rule rt ct grid)) self;
       Return {| df_data := data; df_index := row_titles; df_columns := col_titles |}) ∧
    (∀ e, result to_df self = Raise e →
       e = ValueError ∧ result (parse_data (data_rows_rule rt ct grid)) self = Raise e).
Proof.
  intros construction.
  pose proof (row_titles_view _ _ _ _ _ construction) as Hrow.
  destruct (col_titles_first_row _ _ _ _ _ construction) as (row0 & Hhd & _ & _ & Hcol).
  destruct (to_df_view _ _ _ _ _ construction) as (row0' & Hhd' & Hdf).
  assert (row0' = row0) as -> by congruence.
  destruct (init_grid_Return _ _ _ _ _ construction) as (Hrows & _ & Hrt & Hct & _).
  assert (∃ row_titles, result get_row_titles self = Return row_titles ∧
    (if rt then titles ← mapM (fun row => index row 0) (if ct then drop 1 grid else grid);
                mret (Some titles)
     else Return None) = Return row_titles) as (row_titles & Hres & Hexp).
  { unfold result in *. rewrite get_row_titles_unfold, Hrt, Hct, Hrows in *. simpl in *.
    destruct rt; [|by eexists]. destruct Hrow as (titles & Ht & _). by eexists. }
  exists row_titles, (if ct then Some (if rt then drop 1 row0 else row0) else None).
  split_and!; [done | done | |].
  - rewrite Hdf, Hexp. unfold result. by rewrite parse_data_unfold.
  - intros e. rewrite Hdf, Hexp. unfold result. rewrite parse_data_unfold. simpl.
    destruct (mapM _ (data_rows_rule rt ct grid)) as [data|e'] eqn:Hdata; [done|].
    intros [= ->]. split; [|done].
    apply mapM_Raise in Hdata as (_ & row & _ & _ & _ & Hrow').
    apply mapM_Raise in Hrow' as (_ & val & _ & _ & _ & Hval).
    by eapply float_Raise.
Qed.

Lemma to_df_outcome_witness :
  ∃ row_titles col_titles,
    result get_row_titles Tests.default = Return row_titles ∧
    result get_col_titles Tests.default = Return col_titles ∧
    result to_df Tests.default =
      (data ← result (parse_data (data_rows_rule true true Tests.default_rows))
                     Tests.default;
       Return {| df_data := data; df_index := row_titles; df_columns := col_titles |}) ∧
    (∀ e, result to_df Tests.default = Raise e →
       e = ValueError ∧
       result (parse_data (data_rows_rule true true Tests.default_rows)) Tests.default
       = Raise e).
Proof.
  apply (to_df_outcome Tests.default_rows "," true true Tests.default).
  reflexivity.
Defined.

(** X9: the frame [to_df] returns fits together: its data has one row per
    index entry and every row has one number per column label, when there
    are such titles, and all its rows have the same length. *)
Theorem to_df_shape grid sep rt ct self df :
  init_grid grid sep rt ct = Return self →
  result to_df self = Return df →
  (if rt then ∃ ix, df_index df = Some ix ∧ length ix = length (df_data df)
   else df_index df = None) ∧
  (if ct then ∃ cs, df_columns df = Some cs ∧
                Forall (fun row => length row = length cs) (df_data df)
   else df_columns df = None) ∧
  all_are_the_same_length (df_data df) = true.
Proof.
  intros construction.
  destruct (to_df_view _ _ _ _ _ construction) as (row0 & Hhd & ->).
  destruct (col_titles_first_row _ _ _ _ _ construction)
    as (row0' & Hhd' & _ & Hall & _).
  assert (row0' = row0) as -> by congruence.
  assert (∀ data, mapM (mapM (fun val => PyFloat.float (Str.replace val "," ".")))
                       (data_rows_rule rt ct grid) = Return data →
    length data = length (if ct then drop 1 grid else grid) ∧
    Forall (fun row => length row = length (if rt then drop 1 row0 else row0)) data)
    as Hshape.
  { intros data Hdata%mapM_Return. split.
    - rewrite <-(Forall2_length _ _ _ Hdata), data_rows_rule_drop, length_fmap.
      by destruct ct.
    - apply (Forall2_Forall_r _ _ _ _ Hdata).
      rewrite data_rows_rule_drop. apply Forall_fmap, Forall_drop.
      apply (Forall_impl _ _ _ Hall). intros row Hlen floats Hfl. simpl in Hfl.
      apply mapM_Return, Forall2_length in Hfl. rewrite <-Hfl, length_drop, Hlen.
      destruct rt; simpl; by rewrite ?length_drop, ?Nat.sub_0_r. }
  intros Hdf.
  assert (∃ titles data, df = {| df_data := data; df_index := titles;
      df_columns := if ct then Some (if rt then drop 1 row0 else row0) else None |} ∧
    (if rt then ∃ ix, titles = Some ix ∧ length ix = length (if ct then drop 1 grid else grid)
     else titles = None) ∧
    mapM (mapM (fun val => PyFloat.float (Str.replace val "," ".")))
         (data_rows_rule rt ct grid) = Return data) as (titles & data & -> & Htitles & Hdata).
  { destruct rt.
    - destruct (mapM _ (if ct then drop 1 grid else grid)) as [ts|] eqn:Hts; [|done].
      simpl in Hdf. destruct (mapM _ (data_rows_rule true ct grid)) as [data|]; [|done].
      injection Hdf as <-. eexists _, _. split_and!; [done | | done].
      eexists. split; [done|]. apply mapM_Return, Forall2_length in Hts. by rewrite Hts.
    - simpl in Hdf. destruct (mapM _ (data_rows_rule false ct grid)) as [data|]; [|done].
      injection Hdf as <-. by eexists _, _. }
  destruct (Hshape _ Hdata) as [Hlen Hrows]. simpl. split_and!.
  - destruct rt; [|done]. destruct Htitles as (ix & -> & Hix). exists ix. by rewrite Hlen.
  - destruct ct; [|done]. by eexists.
  - apply all_are_the_same_length_true. intros first Hfirst.
    rewrite head_lookup in Hfirst.
    rewrite (proj1 (Forall_lookup _ _) Hrows _ _ Hfirst). done.
Qed.

Lemma to_df_shape_witness :
  (∃ ix, df_index (default_frame) = Some ix ∧
         length ix = length (df_data default_frame)) ∧
  (∃ cs, df_columns default_frame = Some cs ∧
         Forall (fun row => length row = length cs) (df_data default_frame)) ∧
  all_are_the_same_length (df_data default_frame) = true.
Proof.
  apply (to_df_shape Tests.default_rows "," true true Tests.default default_frame).
  - reflexivity.
  - by vm_compute.
Defined.

(** X10: with both kinds of titles the corner cell is ignored: a grid
    that differs from a constructed one in that cell only is constructed
    too, and [to_df] gives the same for both. *)
Theorem corner_cell_ignored a b row0 rest sep self :
  init_grid ((a :: row0) :: rest) sep true true = Return self →
  ∃ self', init_grid ((b :: row0) :: rest) sep true true = Return self' ∧
           result to_df self' = result to_df self.
Proof.
  intros construction.
  destruct (col_titles_first_row _ _ _ _ _ construction) as (r0 & [= <-] & _ & Hall & _).
  destruct (init_grid_total ((b :: row0) :: rest) sep true true (b :: row0))
    as [self' construction']; [done | simpl; lia | |].
  { inv Hall. by constructor. }
  exists self'. split; [done|].
  destruct (to_df_view _ _ _ _ _ construction) as (? & [= <-] & ->).
  by destruct (to_df_view _ _ _ _ _ construction') as (? & [= <-] & ->).
Qed.

Lemma corner_cell_ignored_witness :
  ∃ self', init_grid (("" :: ["default1"; "default2"; "default3"])
                        :: drop 1 Tests.default_rows) "," true true = Return self' ∧
           result to_df self' = result to_df Tests.default.
Proof.
  apply (corner_cell_ignored "col_titles" "" ["default1"; "default2"; "default3"]
           (drop 1 Tests.default_rows) "," Tests.default).
  reflexivity.
Defined.

(** ** Numbers as text *)

Lemma parse_cells_ext (R : string → string → Prop) (cells cells' : list (list string)) :
  (∀ a b, R a b →
     PyFloat.float (Str.replace b "," ".") = PyFloat.float (Str.replace a "," ".")) →
  Forall2 (Forall2 R) cells cells' →
  mapM (mapM (fun val => PyFloat.float (Str.replace val "," "."))) cells'
  = mapM (mapM (fun val => PyFloat.float (Str.replace val "," "."))) cells.
Proof.
  intros HR. induction 1 as [|row row' cells cells' Hrow _ IH]; [done|].
  rewrite !mapM_cons, IH. f_equal.
  induction Hrow as [|a b row row' Hab _ IHrow]; [done|].
  by rewrite !mapM_cons, IHrow, (HR _ _ Hab).
Qed.

(** X11: a decimal comma and a decimal point are the same to
    [parse_data]: tables whose cells differ at most in [","] for ["."] give
    the same numbers, or fail alike. *)
Theorem parse_data_comma_or_point (cells cells' : list (list string)) (self : CSV) :
  Forall2 (Forall2 same_up_to_commas) cells cells' →
  result (parse_data cells') self = result (parse_data cells) self.
Proof.
  intros Hcells. unfold result. rewrite !parse_data_unfold. simpl.
  apply (parse_cells_ext same_up_to_commas); [|done].
  intros a b Hab. f_equal. apply chars_inj. by rewrite !replace_comma.
Qed.

Lemma parse_data_comma_or_point_witness :
  result (parse_data [["1.5"; "3.14"]]) Tests.default
  = result (parse_data [["1,5"; "3,14"]]) Tests.default.
Proof.
  apply (parse_data_comma_or_point [["1,5"; "3,14"]] [["1.5"; "3.14"]]).
  repeat constructor.
Defined.

(** *** White space around a number *)

Section padding.
Import Grammar.
Implicit Types (w x lit : list ascii).

Lemma literal_start w1 x u1 lit u2 :
  w1 ++ x = u1 ++ lit ++ u2 → Forall whitespace w1 →
  Forall (fun c => ¬ whitespace c) lit → lit ≠ [] →
  ∃ a, u1 = w1 ++ a ∧ x = a ++ lit ++ u2.
Proof.
  revert u1. induction w1 as [|c w1 IH]; intros u1 Heq Hw Hlit Hne; [by exists u1|].
  apply Forall_cons in Hw as [Hc Hw]. destruct u1 as [|c' u1].
  - destruct Hlit as [|c' lit Hc' _]; [done|]. by injection Heq as -> _.
  - injection Heq as -> Heq. destruct (IH _ Heq Hw Hlit Hne) as (a & -> & ->). by exists a.
Qed.

(** White space around a text adds nothing to what it writes. *)
Lemma valid_padded w1 x w2 v :
  Forall whitespace w1 → Forall whitespace w2 →
  (∃ u1 lit u2, w1 ++ x ++ w2 = u1 ++ lit ++ u2 ∧
                Forall whitespace u1 ∧ Forall whitespace u2 ∧ floatvalue lit v) ↔
  (∃ u1 lit u2, x = u1 ++ lit ++ u2 ∧
                Forall whitespace u1 ∧ Forall whitespace u2 ∧ floatvalue lit v).
Proof.
  intros Hw1 Hw2. split.
  - intros (u1 & lit & u2 & Heq & Hu1 & Hu2 & Hlit).
    destruct (floatvalue_no_whitespace _ _ Hlit) as [Hnw Hne].
    apply literal_start in Heq as (a & -> & Heq); [|done..].
    assert (reverse w2 ++ reverse x = reverse u2 ++ reverse lit ++ reverse a) as Hrev.
    { by rewrite <-!reverse_app, <-app_assoc, Heq. }
    apply literal_start in Hrev as (b & Hb & Hx); [|by apply Forall_reverse..|].
    2:{ intros Hr%(f_equal reverse). by rewrite reverse_involutive in Hr. }
    apply Forall_app in Hu1 as [_ Ha]. exists a, lit, (reverse b). split_and!; [|done| |done].
    + by rewrite <-(reverse_involutive x), Hx, !reverse_app, !reverse_involutive, <-app_assoc.
    + apply Forall_reverse. apply Forall_reverse in Hu2. rewrite Hb in Hu2.
      by apply Forall_app in Hu2 as [_ ?].
  - intros (u1 & lit & u2 & -> & Hu1 & Hu2 & Hlit).
    exists (w1 ++ u1), lit, (u2 ++ w2).
    split_and!; [by rewrite <-!app_assoc | by apply Forall_app.. | done].
Qed.

Lemma float_ext (s t : string) :
  (∀ v, valid_number s v ↔ valid_number t v) → PyFloat.float s = PyFloat.float t.
Proof.
  intros Hst. pose proof (float_outcome s) as Hs. pose proof (float_outcome t) as Ht.
  destruct (PyFloat.float s) as [x|e], (PyFloat.float t) as [y|e'] eqn:Hy.
  - destruct Hs as (v & Hv%Hst & ->).
    assert (PyFloat.float t = Return (to_float v)) by (apply float_valid; eauto).
    congruence.
  - destruct Hs as (v & Hv%Hst & _), Ht as [_ []]. eauto.
  - destruct Ht as (v & Hv%Hst & _), Hs as [_ []]. eauto.
  - destruct Hs as [-> _], Ht as [-> _]. done.
Qed.

Lemma whitespace_no_comma c : whitespace c → comma_to_point c = c.
Proof.
  intros Hc. unfold comma_to_point. rewrite decide_False; [done|]. intros ->.
  exact (bool_decide_eq_false_1 (whitespace ","%char) eq_refl Hc).
Qed.

Lemma float_padded (a b : string) :
  padded a b →
  PyFloat.float (Str.replace b "," ".") = PyFloat.float (Str.replace a "," ".").
Proof.
  intros (ws1 & ws2 & Hws1 & Hws2 & ->). apply float_ext. intros v.
  unfold valid_number. rewrite !replace_comma, !chars_app, !fmap_app.
  assert (∀ ws, blank ws →
    comma_to_point <$> String.list_ascii_of_string ws = String.list_ascii_of_string ws)
    as Hid.
  { intros ws Hws. rewrite <-(list_fmap_id (String.list_ascii_of_string ws)) at 2.
    apply Forall_fmap_ext_1. apply (Forall_impl _ _ _ Hws). intros c.
    apply whitespace_no_comma. }
  rewrite (Hid _ Hws1), (Hid _ Hws2). by apply valid_padded.
Qed.

End padding.

(** X12: the white space that [float] removes around a number does not
    matter to [parse_data]: a table whose cells are padded with it, as
    after ["; "] or with a no-break space, gives the same numbers as the
    table without the padding, or fails alike. *)
Theorem parse_data_ignores_padding (cells cells' : list (list string)) (self : CSV) :
  Forall2 (Forall2 padded) cells cells' →
  result (parse_data cells') self = result (parse_data cells) self.
Proof.
  intros Hcells. unfold result. rewrite !parse_data_unfold. simpl.
  apply (parse_cells_ext padded); [|done]. apply float_padded.
Qed.

Lemma parse_data_ignores_padding_witness :
  result (parse_data [[" 1,5"; String (ascii_of_nat 160) "2 "]]) Tests.default
  = result (parse_data [["1,5"; "2"]]) Tests.default.
Proof.
  apply (parse_data_ignores_padding [["1,5"; "2"]]
           [[" 1,5"; String (ascii_of_nat 160) "2 "]]).
  repeat constructor.
  - exists " ", "". split_and!; [|constructor|reflexivity].
    constructor; [|constructor].
    exact (bool_decide_unpack (Grammar.whitespace " "%char) I).
  - exists (String (ascii_of_nat 160) ""), " ". split_and!; [| |reflexivity].
    + constructor; [|constructor].
      exact (bool_decide_unpack (Grammar.whitespace (ascii_of_nat 160)) I).
    + constructor; [|constructor].
      exact (bool_decide_unpack (Grammar.whitespace " "%char) I).
Defined.

(** ** The text of an instance *)

Section repr.
Import Repr.
Implicit Types (s p : string) (l : list string).

Local Abbreviation one_line s := (newline ∉ String.list_ascii_of_string s).

Lemma one_line_app s1 s2 : one_line s1 → one_line s2 → one_line (s1 +:+ s2).
Proof. intros H1 H2. rewrite chars_app, elem_of_app. by intros [?|?]. Qed.

Lemma has_false c s : has c s = false → c ∉ String.list_ascii_of_string s.
Proof. unfold has. by intros ?%bool_decide_eq_false. Qed.

Lemma escape_one_line quote c :
  quote = apostrophe ∨ quote = double_quote → one_line (escape quote c).
Proof.
  intros Hq. assert (has newline (escape quote c) = false) as Hhas.
  { destruct Hq as [-> | ->]; destruct c as [[] [] [] [] [] [] [] []]; by vm_compute. }
  by apply has_false.
Qed.

Lemma escape_all_one_line quote s :
  quote = apostrophe ∨ quote = double_quote → one_line (escape_all quote s).
Proof.
  intros Hq. induction s as [|c s IH]; simpl; [by apply not_elem_of_nil|].
  apply one_line_app; [by apply escape_one_line | done].
Qed.

Lemma repr_one_line s : one_line (repr s).
Proof.
  unfold repr.
  set (quote := if has apostrophe s && negb (has double_quote s)
                then double_quote else apostrophe).
  assert (quote = apostrophe ∨ quote = double_quote) as Hq.
  { subst quote. destruct (has apostrophe s && negb (has double_quote s)); auto. }
  apply (one_line_app (String quote "")).
  - destruct Hq as [-> | ->]; by apply has_false; vm_compute.
  - apply one_line_app; [by apply escape_all_one_line|].
    destruct Hq as [-> | ->]; by apply has_false; vm_compute.
Qed.

Lemma join_one_line l : Forall (fun p => one_line p) l → one_line (Str.join ", " l).
Proof.
  induction 1 as [|p l Hp Hl IH]; [by apply not_elem_of_nil|].
  destruct l as [|q l]; [done|]. rewrite join_cons_cons.
  apply one_line_app; [done|]. apply one_line_app; [|done].
  by apply has_false; vm_compute.
Qed.

Lemma str_of_list_one_line l : one_line (str_of_list l).
Proof.
  unfold str_of_list. apply one_line_app; [by apply has_false; vm_compute|].
  apply one_line_app; [|by apply has_false; vm_compute].
  apply join_one_line, Forall_fmap, Forall_forall. intros s _. apply repr_one_line.
Qed.

(** A piece without a line break, then a line break: the piece is the
    first one of the split. *)
Lemma split_pieces_line p rest :
  one_line p →
  Str.split_pieces (String newline "") 0 (p +:+ String newline rest)
  = (p, let '(h, t) := Str.split_pieces (String newline "") 0 rest in h :: t).
Proof.
  induction p as [|c p IH]; intros Hp.
  - rewrite str_app_nil_l. cbn [Str.split_pieces String.prefix String.length Nat.sub].
    destruct (ascii_dec newline newline); [|done].
    by destruct (Str.split_pieces _ 0 rest), rest.
  - rewrite str_app_cons. cbn [Str.split_pieces String.prefix].
    simpl in Hp. apply not_elem_of_cons in Hp as [Hc Hp].
    destruct (ascii_dec newline c); [done|]. by rewrite (IH Hp).
Qed.

Lemma repr_text_foldl (rows : list (list string)) acc :
  foldl (fun csv_as_str row => csv_as_str +:+ str_of_list row +:+ String newline "")
        acc rows
  = acc +:+ foldr (fun row text => str_of_list row +:+ String newline text) "" rows.
Proof.
  revert acc. induction rows as [|row rows IH]; intros acc; simpl.
  - by rewrite str_app_nil_r.
  - rewrite IH, !str_app_assoc. do 2 f_equal.
Qed.

Lemma split_repr_text (rows : list (list string)) :
  Str.split_pieces (String newline "") 0
    (foldr (fun row text => str_of_list row +:+ String newline text) "" rows)
  = match (str_of_list <$> rows) ++ [""] with
    | h :: t => (h, t)
    | [] => ("", [])
    end.
Proof.
  induction rows as [|row rows IH]; [done|]. cbn [foldr]. rewrite fmap_cons.
  rewrite split_pieces_line by apply str_of_list_one_line. rewrite IH.
  cbn [app]. f_equal.
  destruct ((str_of_list <$> rows) ++ [""]) as [|h t] eqn:Hrows; [|done].
  by apply app_nil in Hrows as [_ ?].
Qed.

End repr.

(** X13: [__repr__] writes every row on a line of its own, whatever the
    cells hold: splitting the text at the line breaks gives the rows as
    [str] writes them, in their order, and an empty piece after the last
    line break.  The call leaves the instance as it was. *)
Theorem repr_one_line_per_row (self : CSV) :
  ∃ text, result __repr__ self = Return text ∧
    Str.split text (String Repr.newline "")
    = Return ((Repr.str_of_list <$> rows self) ++ [""]) ∧
    instance_after __repr__ self = self.
Proof.
  eexists. split_and!; [reflexivity | | reflexivity].
  unfold Str.split. rewrite repr_text_foldl, str_app_nil_l, split_repr_text.
  destruct ((Repr.str_of_list <$> rows self) ++ [""]) as [|h t] eqn:Hrows; [|done].
  by apply app_nil in Hrows as [_ ?].
Qed.

(** ** Integers as text *)

Lemma scan_digits_uint prev (d : Decimal.uint) :
  prev ≠ Some "_"%char →
  PyInt.scan_digits prev
    (String.list_ascii_of_string (DecimalString.NilEmpty.string_of_uint d))
  = Some (digits_of d, []).
Proof.
  revert prev. induction d as [|d IH|d IH|d IH|d IH|d IH|d IH|d IH|d IH|d IH|d IH];
    intros prev Hprev; simpl;
    [by rewrite decide_False | rewrite IH by done; done ..].
Qed.

Lemma number_of_digits_revapp (d d' : Decimal.uint) :
  Z.of_N (DecimalPos.Unsigned.of_lu (Decimal.revapp d d'))
  = foldl (fun acc k => 10 * acc + k)%Z
          (Z.of_N (DecimalPos.Unsigned.of_lu d')) (digits_of d).
Proof.
  revert d'. induction d as [|d IH|d IH|d IH|d IH|d IH|d IH|d IH|d IH|d IH|d IH];
    intros d'; simpl; [done | rewrite IH; f_equal; simpl DecimalPos.Unsigned.of_lu; lia ..].
Qed.

Lemma number_of_digits_uint (d : Decimal.uint) :
  PyFloat.number_of_digits (digits_of d) = Z.of_N (Pos.of_uint d).
Proof.
  rewrite DecimalPos.Unsigned.of_uint_alt. unfold Decimal.rev.
  by rewrite number_of_digits_revapp.
Qed.

Lemma digits_of_nonempty (d : Decimal.uint) : d ≠ Decimal.Nil → digits_of d ≠ [].
Proof. by destruct d. Qed.

Lemma skip_spaces_uint (d : Decimal.uint) rest :
  PyFloat.skip_spaces
    (String.list_ascii_of_string (DecimalString.NilEmpty.string_of_uint d) ++ rest)
  = if d is Decimal.Nil then PyFloat.skip_spaces rest
    else String.list_ascii_of_string (DecimalString.NilEmpty.string_of_uint d) ++ rest.
Proof. by destruct d. Qed.

Lemma Transform_uint (d : Decimal.uint) :
  PyFloat.TransformDecimalAndSpaceToASCII
    (String.list_ascii_of_string (DecimalString.NilEmpty.string_of_uint d))
  = String.list_ascii_of_string (DecimalString.NilEmpty.string_of_uint d) ∧
  PyFloat.TransformDecimalAndSpaceToASCII
    (String.list_ascii_of_string (String "-" (DecimalString.NilEmpty.string_of_uint d)))
  = "-"%char :: String.list_ascii_of_string (DecimalString.NilEmpty.string_of_uint d).
Proof.
  assert (PyFloat.IS_ASCII
            (String.list_ascii_of_string (DecimalString.NilEmpty.string_of_uint d)) = true)
    as Hd by (induction d; done).
  unfold PyFloat.TransformDecimalAndSpaceToASCII. split; [by rewrite Hd|].
  change (PyFloat.IS_ASCII (String.list_ascii_of_string
            (String "-" (DecimalString.NilEmpty.string_of_uint d))))
    with (PyFloat.IS_ASCII (String.list_ascii_of_string
            (DecimalString.NilEmpty.string_of_uint d))).
  by rewrite Hd.
Qed.

Lemma int_uint (d : Decimal.uint) :
  d ≠ Decimal.Nil →
  PyInt.int (DecimalString.NilEmpty.string_of_uint d) = Return (Z.of_N (Pos.of_uint d)) ∧
  PyInt.int (String "-" (DecimalString.NilEmpty.string_of_uint d))
  = Return (- Z.of_N (Pos.of_uint d))%Z.
Proof.
  intros Hd. unfold PyInt.int. destruct (Transform_uint d) as [-> ->].
  pose proof (skip_spaces_uint d []) as Hskip. rewrite !app_nil_r in Hskip.
  pose proof (scan_digits_uint None d) as Hscan.
  pose proof (digits_of_nonempty d Hd) as Hne.
  pose proof (number_of_digits_uint d) as Hnum.
  destruct (digits_of d) as [|k ds] eqn:Hds; [done|].
  split.
  - rewrite Hskip. destruct d; try done; simpl in *; rewrite Hscan by done;
      simpl; by rewrite Hnum.
  - cbn [String.list_ascii_of_string PyFloat.skip_spaces].
    change (PyFloat.Py_ISSPACE "-") with false. cbn [PyFloat.scan_sign].
    destruct d; try done; simpl in *; rewrite Hscan by done; simpl; by rewrite Hnum.
Qed.

Lemma int_str (n : Z) : PyInt.int (PyInt.str n) = Return n.
Proof.
  unfold PyInt.str. destruct n as [|p|p]; [done|..]; simpl.
  - destruct (int_uint (Pos.to_uint p)) as [-> _].
    + apply DecimalPos.Unsigned.to_uint_nonnil.
    + by rewrite DecimalPos.Unsigned.of_to.
  - destruct (int_uint (Pos.to_uint p)) as [_ ->].
    + apply DecimalPos.Unsigned.to_uint_nonnil.
    + by rewrite DecimalPos.Unsigned.of_to.
Qed.

(** X14: the dialog of [setting] confirmed as it opens changes nothing:
    [int] reads back the value that [str] wrote into the entry, the
    variable keeps it and the dialog is destroyed.  In general [ok] gives
    the variable the value [int] reads and destroys the dialog, and when
    [int] refuses the text it raises [ValueError] and leaves the variable
    and the dialog as they are. *)
Theorem setting_ok_round_trip (var : Z) :
  (Z.abs var < 10 ^ 640)%Z →
  ok (setting var) var
  = (Return tt, var, {| wrapper_var := PyInt.str var; destroyed := true |}) ∧
  ∀ dialog,
    match PyInt.int (wrapper_var dialog) with
    | Return new_val => ∃ dialog', ok dialog var = (Return tt, new_val, dialog') ∧
                                   destroyed dialog' = true
    | Raise e => e = ValueError ∧ ok dialog var = (Raise ValueError, var, dialog)
    end.
Proof.
  intros _. split.
  - unfold ok, setting. simpl. by rewrite int_str.
  - intros dialog. unfold ok.
    destruct (PyInt.int (wrapper_var dialog)) as [new_val|e] eqn:Hint; [by eexists|].
    assert (e = ValueError) as ->; [|done].
    unfold PyInt.int in Hint. repeat case_match; congruence.
Qed.

Lemma setting_ok_round_trip_witness :
  ok (setting (-4)) (-4)
  = (Return tt, (-4)%Z, {| wrapper_var := PyInt.str (-4); destroyed := true |}).
Proof.
  apply (setting_ok_round_trip (-4)). by vm_compute.
Defined.

(** ** The entry with a placeholder *)

(** X15: an entry made empty, with a placeholder that is not empty and a
    placeholder colour other than its own colour, shows when it has not the
    focus either the placeholder in the placeholder colour or a text of the
    user, which is not empty, in its own colour; while it has the focus it
    has its own colour.  So a focus change never removes a text of the user
    and never leaves the entry empty. *)
Theorem entry_shows_placeholder_or_text fg0 ph color focus self :
  ph ≠ "" → color ≠ fg0 →
  entry_state fg0 ph color focus self →
  placeholder self = ph ∧
  placeholder_color self = color ∧
  default_fg_color self = fg0 ∧
  if focus then fg self = fg0
  else (fg self = color ∧ entry_text self = ph)
       ∨ (fg self = fg0 ∧ entry_text self ≠ "").
Proof.
  intros Hph Hcolor.
  induction 1 as [|self _ (Hp & Hc & Hd & IH)|self text _ (Hp & Hc & Hd & IH)
                  |self _ (Hp & Hc & Hd & IH)].
  - split_and!; [done..|]. left. split; [done|]. simpl. by rewrite str_app_nil_r.
  - unfold foc_in. destruct (decide (fg self = placeholder_color self)) as [Heq|Hne].
    + by split_and!.
    + split_and!; [done..|]. destruct IH as [[Hfg _]|[Hfg _]]; [|done].
      by rewrite Hc in Hne.
  - by split_and!.
  - unfold foc_out. destruct (decide (entry_text self = "")) as [Heq|Hne].
    + split_and!; [done..|]. left. simpl. split; [done|].
      by rewrite Heq, str_app_nil_r.
    + split_and!; [done..|]. by right.
Qed.

Lemma entry_shows_placeholder_or_text_witness :
  entry_text (foc_out (foc_in (entry_init "" "black" "Heatmap Title" "grey")))
  = "Heatmap Title".
Proof.
  destruct (entry_shows_placeholder_or_text "black" "Heatmap Title" "grey" false
              (foc_out (foc_in (entry_init "" "black" "Heatmap Title" "grey"))))
    as (_ & _ & _ & [[_ Htext]|[Hfg _]]).
  - done.
  - done.
  - apply entry_focus_out, entry_focus_in, entry_made.
  - exact Htext.
  - discriminate Hfg.
Defined.

(** ** The window *)

Section cells.
Context {A B : Type} (f : A → outcome B).

(** A grid is parsed exactly when each of its cells is. *)
Lemma parse_cells_total (g : list (list A)) :
  (∃ data, mapM (mapM f) g = Return data) ↔
  ∀ i j val, cell g i j = Some val → ∃ x, f val = Return x.
Proof.
  split.
  - intros (data & Hdata%mapM_Return) i j val Hcell. unfold cell in Hcell.
    destruct (g !! i) as [row|] eqn:Hrow; [|done]. simpl in Hcell.
    destruct (Forall2_lookup_l _ _ _ _ _ Hdata Hrow) as (r & _ & Hr).
    apply mapM_Return in Hr.
    destruct (Forall2_lookup_l _ _ _ _ _ Hr Hcell) as (x & _ & Hx). by exists x.
  - intros Hcells. apply mapM_total, Forall_lookup. intros i row Hrow.
    apply mapM_total, Forall_lookup. intros j val Hval.
    apply (Hcells i j). unfold cell. by rewrite Hrow.
Qed.

End cells.

(** With both kinds of titles [to_df] returns exactly when the cells
    outside row 0 and column 0 are numbers, and raises [ValueError] when it
    does not. *)
Lemma to_df_titled grid sep csv :
  init_grid grid sep true true = Return csv →
  ((∃ df, result to_df csv = Return df) ↔
   ∀ i j val, 0 < i → 0 < j → cell grid i j = Some val → numeric val) ∧
  (∀ e, result to_df csv = Raise e → e = ValueError).
Proof.
  intros construction.
  assert ((∀ i j val, 0 < i → 0 < j → cell grid i j = Some val → numeric val) ↔
          (∀ i j val, 0 < i → 0 < j → cell grid i j = Some val →
             ∃ x, PyFloat.float (Str.replace val "," ".") = Return x)) as ->.
  { split; intros H i j val Hi Hj Hc; apply float_numeric; eauto. }
  destruct (to_df_view _ _ _ _ _ construction) as (row0 & _ & ->).
  pose proof (row_titles_view _ _ _ _ _ construction) as (titles & _ & Htitles).
  assert (mapM (fun row : list string => index row 0) (drop 1 grid) = Return titles) as ->.
  { apply mapM_Return. eapply Forall2_impl; [done|]. intros row t.
    simpl. rewrite head_lookup. apply index_Return. }
  unfold data_rows_rule.
  pose proof (parse_cells_total (fun val => PyFloat.float (Str.replace val "," "."))
                (drop 1 <$> drop 1 grid)) as Hparse.
  destruct (mapM _ (drop 1 <$> drop 1 grid)) as [data|e] eqn:Hdata; simpl.
  - split; [|done]. split; [|by eauto]. intros _ i j val Hi Hj Hcell.
    apply (proj1 Hparse (ex_intro _ data eq_refl) (i - 1) (j - 1)).
    rewrite cell_drop. by replace (1 + (i - 1)) with i by lia; replace (1 + (j - 1)) with j by lia.
  - split.
    + split; [by intros [? ?]|]. intros Hcells. destruct Hparse as [_ [? ?]]; [|done].
      intros i j val. rewrite cell_drop. apply Hcells; lia.
    + intros ? [= <-].
      apply mapM_Raise in Hdata as (_ & row & _ & _ & _ & Hrow).
      apply mapM_Raise in Hrow as (_ & val & _ & _ & _ & Hval).
      by eapply float_Raise.
Qed.

(** The window is what it was unless the file was read to its end and gave
    a frame. *)
Lemma define_dataframe_window basename csv_file file decodes self :
  snd (define_dataframe basename csv_file file decodes self) = self ∨
  ∃ lines csv df,
    file = Some lines ∧ decodes = true ∧
    fst (define_dataframe basename csv_file file decodes self) = None ∧
    __init__ lines (seperator_in_input_csv self) true true = Return csv ∧
    result to_df csv = Return df ∧
    snd (define_dataframe basename csv_file file decodes self) =
      {| heatmap_title := heatmap_title self;
         min_value := min_value self;
         max_value := max_value self;
         dpi := dpi self;
         notification_csv := "Current active data CSV: " +:+ basename csv_file;
         notification_heatmap := "";
         ckey := ckey self;
         show_annotation_in_cells := show_annotation_in_cells self;
         show_cells_as_squares := show_cells_as_squares self;
         seperator_in_input_csv := seperator_in_input_csv self;
         dataframe := Some df |}.
Proof.
  unfold define_dataframe. destruct file as [lines|]; [|by left].
  destruct decodes.
  - destruct (__init__ _ _ _ _) as [csv|] eqn:Hinit; [|by left].
    destruct (result to_df csv) as [df|] eqn:Hdf; [|by left].
    right. by exists lines, csv, df.
  - left. by destruct (read_rows _ _).
Qed.

(** X16: what pressing "Read CSV" does.  The callback returns exactly when
    the file opens, is read to its end and has a line, its lines split into
    rows of one length and every cell outside row 0 and column 0 writes a
    number, as the grammar of [float] has them, once its commas are points;
    then the window holds the frame of the file, announces the file and
    shows no message about a heat map, and all its settings are as before.
    In every other case the callback raises and the window is what it was,
    with the frame and the announcement of the file read before: it raises
    [OSError] for a file that does not open, an exception of the class
    [CSV] for one read to its end, and for one not decoded to its end
    [ValueError] when the separator is empty and a line was read, else
    [UnicodeDecodeError]. *)
Theorem read_csv_outcome basename csv_file file decodes self :
  (fst (define_dataframe basename csv_file file decodes self) = None ↔
     ∃ lines, file = Some lines ∧ decodes = true ∧
              readable lines (seperator_in_input_csv self)) ∧
  (∀ r, fst (define_dataframe basename csv_file file decodes self) = Some r →
     snd (define_dataframe basename csv_file file decodes self) = self ∧
     match file with
     | None => r = OSError
     | Some lines =>
         if decodes then ∃ e, r = Exn e
         else lines ≠ [] ∧ seperator_in_input_csv self = "" ∧ r = Exn ValueError
              ∨ ¬ (lines ≠ [] ∧ seperator_in_input_csv self = "") ∧ r = UnicodeDecodeError
     end) ∧
  (fst (define_dataframe basename csv_file file decodes self) = None →
     ∃ lines csv df,
       file = Some lines ∧
       __init__ lines (seperator_in_input_csv self) true true = Return csv ∧
       result to_df csv = Return df ∧
       snd (define_dataframe basename csv_file file decodes self) =
         {| heatmap_title := heatmap_title self;
            min_value := min_value self;
            max_value := max_value self;
            dpi := dpi self;
            notification_csv := "Current active data CSV: " +:+ basename csv_file;
            notification_heatmap := "";
            ckey := ckey self;
            show_annotation_in_cells := show_annotation_in_cells self;
            show_cells_as_squares := show_cells_as_squares self;
            seperator_in_input_csv := seperator_in_input_csv self;
            dataframe := Some df |}).
Proof.
  unfold define_dataframe, readable. destruct file as [lines|].
  2:{ simpl. split_and!; [|by intros ? [= <-]|done].
      split; [done | by intros (? & ? & _)]. }
  destruct decodes.
  2:{ pose proof (read_rows_no_separator lines) as Hno.
      destruct (decide (seperator_in_input_csv self = "")) as [Hsep|Hsep].
      - rewrite Hsep in *. rewrite Hno. destruct lines as [|line lines]; simpl.
        + split_and!; [|intros ? [= <-]; split; [done|right; split; [|done]; by intros [? _]]
                       |done].
          split; [done | by intros (? & _ & ? & _)].
        + split_and!; [|intros ? [= <-]; split; [done|by left]|done].
          split; [done | by intros (? & _ & ? & _)].
      - destruct (read_rows_total lines _ Hsep) as (grid & -> & _). simpl.
        split_and!; [|intros ? [= <-]; split; [done|right; split; [|done]; by intros [_ ?]]
                     |done].
        split; [done | by intros (? & _ & ? & _)]. }
  pose proof (init_cases lines (seperator_in_input_csv self) true true) as Hcases.
  destruct (__init__ lines (seperator_in_input_csv self) true true) as [csv|e] eqn:Hinit.
  - destruct Hcases as (Hlines & Hread & Hrag).
    destruct (proj1 (__init___Return _ _ _ _ _) Hinit) as (grid & Hgrid & construction).
    assert (rows csv = grid) as Hrows by congruence. rewrite Hrows in *.
    destruct (to_df_titled _ _ _ construction) as [Hdf _].
    destruct (result to_df csv) as [df|e] eqn:Hres; simpl.
    + split_and!.
      * split; [|done]. intros _. exists lines. split_and!; [done..|].
        exists grid. split_and!; [done..|]. apply Hdf. by exists df.
      * done.
      * intros _. by exists lines, csv, df.
    + split_and!.
      * split; [done|]. intros (? & [= <-] & _ & _ & grid' & Hgrid' & _ & Hcells).
        assert (grid' = grid) as -> by congruence.
        by destruct (proj2 Hdf Hcells).
      * intros ? [= <-]. by eauto.
      * done.
  - simpl. split_and!.
    + split; [done|]. intros (? & [= <-] & _ & Hlines & grid & Hgrid & Hrag & _). destruct e.
      * destruct Hcases as (grid' & Hgrid' & Hrag'). congruence.
      * done.
      * destruct Hcases as [_ Hsep]. rewrite Hsep, read_rows_no_separator in Hgrid.
        by destruct lines.
    + intros ? [= <-]. by eauto.
    + done.
Qed.

Lemma coherent_further basename ev history self :
  coherent basename history self → coherent basename (ev :: history) self.
Proof.
  intros [Hcolor Hnone Hframe]. split; [done..|]. intros df Hdf.
  destruct (Hframe df Hdf) as (Hmsg & csv_file & lines & sep & csv & Hin & ?).
  split; [done|]. exists csv_file, lines, sep, csv. split; [|done].
  by right.
Qed.

Lemma created_is_not_could_not title :
  "Created heatmap2 '" +:+ title +:+ "'"
  ≠ "Could not make heatmap. Check if a CSV file has been read!".
Proof. done. Qed.

Lemma call_make_heatmap_cases draws save_to self :
  match dataframe self with
  | None =>
      call_make_heatmap draws save_to self =
        (None, set_notification_heatmap
                 "Could not make heatmap. Check if a CSV file has been read!" self)
  | Some df =>
      match legal_colors !! ckey self with
      | None => call_make_heatmap draws save_to self = (Some KeyError, self)
      | Some colormap =>
          match half (min_value self + max_value self) with
          | inl r => r = OverflowError ∧
                     call_make_heatmap draws save_to self = (Some OverflowError, self)
          | inr center =>
              if draws {| hm_dataframe := df;
                          hm_filename := save_to;
                          hm_cmap := colormap;
                          hm_annot := show_annotation_in_cells self;
                          hm_square := show_cells_as_squares self;
                          hm_vmin := min_value self;
                          hm_vmax := max_value self;
                          hm_center := center;
                          hm_dpi := dpi self;
                          hm_title := Some (heatmap_title self);
                          hm_cbar_label := "log2 (fold change)" |}
              then call_make_heatmap draws save_to self =
                     (None, set_notification_heatmap
                              ("Created heatmap2 '" +:+ heatmap_title self +:+ "'") self)
              else call_make_heatmap draws save_to self = (Some PlotError, self)
          end
      end
  end.
Proof.
  unfold call_make_heatmap, make_heatmap.
  destruct (dataframe self) as [df|]; [|done].
  destruct (legal_colors !! ckey self) as [colormap|]; [|done].
  destruct (half (min_value self + max_value self)) as [r|center] eqn:Hhalf.
  - assert (r = OverflowError) as ->; [|done]. unfold half in Hhalf.
    destruct (min_value self + max_value self)%Z; [done|..];
      destruct (Floats.SpecFloat.SFdiv _ _ _ _); congruence.
  - by destruct (draws _).
Qed.

(** Whatever the user does, the window stays coherent. *)
Lemma reachable_coherent draws basename history self :
  reachable draws basename history self → coherent basename history self.
Proof.
  induction 1 as [|ev history self Hreach IH Hoffered].
  - split; [by exists "seismic" | done | done].
  - pose proof (coherent_further _ ev _ _ IH) as Hco.
    destruct ev; simpl in *; try (destruct Hco; by split).
    + destruct (define_dataframe_window basename csv_file file true self)
        as [-> | (lines & csv & df & -> & _ & _ & Hinit & Hdf & ->)]; [done|].
      destruct IH as [Hcolor _ _]. split; simpl; [done..|].
      intros ? [= <-]. split; [done|].
      exists csv_file, lines, (seperator_in_input_csv self), csv.
      split_and!; [left | done..].
    + by destruct (read_rows _ _).
    + pose proof (call_make_heatmap_cases draws save_to self) as Hcases.
      destruct (dataframe self) as [df|] eqn:Hdf.
      * destruct (legal_colors !! ckey self); [|by rewrite Hcases].
        destruct (half _); [by destruct Hcases as [_ ->]|].
        destruct (draws _); rewrite Hcases; [|done].
        destruct Hco as [Hcolor Hnone Hframe]. split; simpl; [done..|].
        intros df' Hdf'. destruct (Hframe df' Hdf') as [_ ?].
        split; [apply created_is_not_could_not | done].
      * rewrite Hcases. destruct Hco as [Hcolor Hnone Hframe].
        split; simpl; [done | done | by rewrite Hdf].
Qed.

(** X17: whatever the user does, the window tells whether it holds data.
    It holds no frame exactly as long as it says that no CSV is defined
    yet; a frame it holds is the one [to_df] returned for a file the user
    has read, with both kinds of titles, and that is a file it announces
    as the active one. *)
Theorem window_announces_its_frame draws basename history self :
  reachable draws basename history self →
  (dataframe self = None ↔
   notification_csv self = "No data CSV defined yet. Click 'Read CSV' to proceed.") ∧
  (∀ df, dataframe self = Some df →
     ∃ csv_file lines sep csv,
       ReadCSV csv_file (Some lines) ∈ history ∧
       notification_csv self = "Current active data CSV: " +:+ basename csv_file ∧
       __init__ lines sep true true = Return csv ∧
       result to_df csv = Return df).
Proof.
  intros [Hcolor Hnone Hframe]%reachable_coherent. split.
  - split; [done|]. intros Hmsg. destruct (dataframe self) as [df|]; [|done].
    destruct (Hframe df eq_refl) as (_ & ? & ? & ? & ? & _ & Hmsg' & _).
    by rewrite Hmsg in Hmsg'.
  - intros df Hdf. by destruct (Hframe df Hdf) as [_ ?].
Qed.

Lemma default_window_reachable :
  reachable (fun _ => true) (fun path => path) default_history default_window.
Proof. by repeat constructor. Qed.

Lemma window_announces_its_frame_witness :
  (dataframe default_window = None ↔
   notification_csv default_window
   = "No data CSV defined yet. Click 'Read CSV' to proceed.") ∧
  (∀ df, dataframe default_window = Some df →
     ∃ csv_file lines sep csv,
       ReadCSV csv_file (Some lines) ∈ default_history ∧
       notification_csv default_window = "Current active data CSV: " +:+ csv_file ∧
       __init__ lines sep true true = Return csv ∧
       result to_df csv = Return df).
Proof.
  apply (window_announces_its_frame (fun _ => true) (fun path => path)
           default_history default_window).
  apply default_window_reachable.
Defined.

(** X18: what pressing "Save Heatmap" does, whatever the user did before.
    The callback never raises [KeyError]: the colour map chosen is always
    one of [legal_colors].  It raises only when the window holds a frame,
    and then [OverflowError] from the division or what the plotting
    raises, and the window is what it was.  The message that no heat map
    could be made is shown afterwards exactly when the window holds no
    frame, so never for a plot that failed; and when the callback returns
    for a window with a frame, that frame has been drawn and saved with the
    chosen colour map and settings, centred between the two boundaries, and
    the message names the title. *)
Theorem save_heatmap_outcome draws basename history self save_to :
  reachable draws basename history self →
  (∀ r, fst (call_make_heatmap draws save_to self) = Some r →
     (r = OverflowError ∨ r = PlotError) ∧
     is_Some (dataframe self) ∧
     snd (call_make_heatmap draws save_to self) = self) ∧
  (notification_heatmap (snd (call_make_heatmap draws save_to self))
   = "Could not make heatmap. Check if a CSV file has been read!" ↔
   dataframe self = None) ∧
  (∀ df, dataframe self = Some df →
     fst (call_make_heatmap draws save_to self) = None →
     ∃ colormap center,
       legal_colors !! ckey self = Some colormap ∧
       half (min_value self + max_value self) = inr center ∧
       draws {| hm_dataframe := df;
                hm_filename := save_to;
                hm_cmap := colormap;
                hm_annot := show_annotation_in_cells self;
                hm_square := show_cells_as_squares self;
                hm_vmin := min_value self;
                hm_vmax := max_value self;
                hm_center := center;
                hm_dpi := dpi self;
                hm_title := Some (heatmap_title self);
                hm_cbar_label := "log2 (fold change)" |} = true ∧
       notification_heatmap (snd (call_make_heatmap draws save_to self))
       = "Created heatmap2 '" +:+ heatmap_title self +:+ "'").
Proof.
  intros [Hcolor Hnone Hframe]%reachable_coherent.
  pose proof (call_make_heatmap_cases draws save_to self) as Hcases.
  destruct (dataframe self) as [df|] eqn:Hdf.
  - destruct (Hframe df eq_refl) as [Hmsg _].
    destruct Hcolor as [colormap Hcolormap]. rewrite Hcolormap in Hcases.
    destruct (half _) as [r|center] eqn:Hhalf.
    { destruct Hcases as [_ ->]. simpl. split_and!.
      - intros ? [= <-]. by eauto.
      - done.
      - done. }
    destruct (draws _) eqn:Hdraws; rewrite Hcases; simpl; split_and!.
    + done.
    + split; [|done]. intros []%created_is_not_could_not.
    + intros ? [= <-] _. by exists colormap, center.
    + intros ? [= <-]. by eauto.
    + done.
    + done.
  - rewrite Hcases. simpl. by split_and!.
Qed.

Lemma save_heatmap_outcome_witness :
  (∀ r, fst (call_make_heatmap (fun _ => true) "default.png" default_window) = Some r →
     (r = OverflowError ∨ r = PlotError) ∧
     is_Some (dataframe default_window) ∧
     snd (call_make_heatmap (fun _ => true) "default.png" default_window)
     = default_window) ∧
  (notification_heatmap
     (snd (call_make_heatmap (fun _ => true) "default.png" default_window))
   = "Could not make heatmap. Check if a CSV file has been read!" ↔
   dataframe default_window = None) ∧
  (∀ df, dataframe default_window = Some df →
     fst (call_make_heatmap (fun _ => true) "default.png" default_window) = None →
     ∃ colormap center,
       legal_colors !! ckey default_window = Some colormap ∧
       half (min_value default_window + max_value default_window) = inr center ∧
       (fun _ : heatmap => true)
         {| hm_dataframe := df;
            hm_filename := "default.png";
            hm_cmap := colormap;
            hm_annot := show_annotation_in_cells default_window;
            hm_square := show_cells_as_squares default_window;
            hm_vmin := min_value default_window;
            hm_vmax := max_value default_window;
            hm_center := center;
            hm_dpi := dpi default_window;
            hm_title := Some (heatmap_title default_window);
            hm_cbar_label := "log2 (fold change)" |} = true ∧
       notification_heatmap
         (snd (call_make_heatmap (fun _ => true) "default.png" default_window))
       = "Created heatmap2 '" +:+ heatmap_title default_window +:+ "'").
Proof.
  apply (save_heatmap_outcome (fun _ => true) (fun path => path)
           default_history default_window "default.png").
  apply default_window_reachable.
Defined.
